(** * pypass.store: the secret tree engine over a model of the file system

    The development embeds [pypass/store.py] (class [Store]) shallowly:
    a Python [str] is the [string] of its bytes in the file system
    encoding, [None]-able arguments are [option], the file system is a
    finite map from canonical paths to nodes, and a method is a function
    of the world that returns an outcome together with the world it
    leaves behind (an exception keeps the mutations made before it).

    [store.py] imports from [pypass.git], [pypass.gpg] and [pypass.util].
    The history and encryption functions are defined here after their
    contract, over an abstract [encrypt] and [decrypt]; the decorators
    [initialised] and [trap], the password generator and [_copy_move] are
    parameters. The functions of [os], [os.path] and [shutil] follow the
    Python library on a POSIX system without symbolic links. *)

From Stdlib Require Import ZArith Ascii.
From stdpp Require Import base option list sorting gmap strings.

(** ** Python [str] operations used by the module *)

Module PyStr.

Abbreviation sep := "/"%char.
Abbreviation nl := "010"%char.

(** [s.startswith(p)] *)
Fixpoint startswith (p s : string) : bool :=
  match p, s with
  | EmptyString, _ => true
  | String a p', String b s' => Ascii.eqb a b && startswith p' s'
  | String _ _, EmptyString => false
  end.

(** [s.endswith(p)]: some suffix of [s] is [p]. *)
Fixpoint endswith (p s : string) : bool :=
  String.eqb s p ||
  match s with
  | EmptyString => false
  | String _ s' => endswith p s'
  end.

(** [s.split(c)] for a one-character separator: never the empty list. *)
Fixpoint split (c : ascii) (s : string) : list string :=
  match s with
  | EmptyString => [EmptyString]
  | String a s' =>
      if Ascii.eqb a c then EmptyString :: split c s'
      else match split c s' with
           | h :: t => String a h :: t
           | [] => [String a EmptyString]
           end
  end.

(** [c.join(l)] *)
Fixpoint join (c : string) (l : list string) : string :=
  match l with
  | [] => EmptyString
  | [x] => x
  | x :: l' => x +:+ c +:+ join c l'
  end.

(** [s.rstrip(c)] *)
Fixpoint rstrip (c : ascii) (s : string) : string :=
  match s with
  | EmptyString => EmptyString
  | String a s' =>
      let r := rstrip c s' in
      if String.eqb r EmptyString && Ascii.eqb a c then EmptyString
      else String a r
  end.

(** [s[:-n]] for [n > 0] *)
Definition drop_last (n : nat) (s : string) : string :=
  String.substring 0 (String.length s - n) s.

(** [c in s] for a character *)
Fixpoint contains (c : ascii) (s : string) : bool :=
  match s with
  | EmptyString => false
  | String a s' => Ascii.eqb a c || contains c s'
  end.

(** [c * n] *)
Fixpoint fill (n : nat) (a : ascii) : string :=
  match n with
  | 0 => EmptyString
  | S n' => String a (fill n' a)
  end.

(** *** The order of [str]

    A [string] holds a [str] as the bytes the system calls take and give:
    its file system encoding, UTF-8 with [surrogateescape], which is how
    [os.listdir] decodes names. The operations above are asked for ASCII
    arguments only and are the same on the bytes. Python orders [str] by
    code point, so the order is taken on the decoded string. *)

(** A continuation byte, [80..BF]. *)
Definition cont (b : N) : bool := (128 <=? b)%N && (b <=? 191)%N.

(** The well-formed two, three and four byte sequences of UTF-8: no
    overlong form, no surrogate, nothing above [U+10FFFF]. *)
Definition two_bytes (b0 b1 : N) : bool :=
  (194 <=? b0)%N && (b0 <=? 223)%N && cont b1.
Definition three_bytes (b0 b1 b2 : N) : bool :=
  ((b0 =? 224)%N && (160 <=? b1)%N && (b1 <=? 191)%N
   || (225 <=? b0)%N && (b0 <=? 236)%N && cont b1
   || (b0 =? 237)%N && (128 <=? b1)%N && (b1 <=? 159)%N
   || (238 <=? b0)%N && (b0 <=? 239)%N && cont b1)
  && cont b2.
Definition four_bytes (b0 b1 b2 b3 : N) : bool :=
  ((b0 =? 240)%N && (144 <=? b1)%N && (b1 <=? 191)%N
   || (241 <=? b0)%N && (b0 <=? 243)%N && cont b1
   || (b0 =? 244)%N && (128 <=? b1)%N && (b1 <=? 143)%N)
  && cont b2 && cont b3.

(** The code points of the [str] with these bytes: a well-formed sequence
    is its character, and any other byte [b] is the lone surrogate
    [U+DC00 + b]. *)
Fixpoint code_points (s : string) : list N :=
  match s with
  | EmptyString => []
  | String a0 s1 =>
      let b0 := N_of_ascii a0 in
      let escaped := (56320 + b0)%N :: code_points s1 in
      if (b0 <? 128)%N then b0 :: code_points s1
      else
        match s1 with
        | String a1 s2 =>
            let b1 := N_of_ascii a1 in
            if two_bytes b0 b1
            then (64 * (b0 - 192) + (b1 - 128))%N :: code_points s2
            else
              match s2 with
              | String a2 s3 =>
                  let b2 := N_of_ascii a2 in
                  if three_bytes b0 b1 b2
                  then (4096 * (b0 - 224) + 64 * (b1 - 128)
                        + (b2 - 128))%N :: code_points s3
                  else
                    match s3 with
                    | String a3 s4 =>
                        let b3 := N_of_ascii a3 in
                        if four_bytes b0 b1 b2 b3
                        then (262144 * (b0 - 240) + 4096 * (b1 - 128)
                              + 64 * (b2 - 128) + (b3 - 128))%N
                             :: code_points s4
                        else escaped
                    | EmptyString => escaped
                    end
              | EmptyString => escaped
              end
        | EmptyString => escaped
        end
  end.

(** The bytes that stand for one code point. *)
Inductive encodes : N -> string -> Prop :=
| enc_ascii a0 :
    (N_of_ascii a0 < 128)%N ->
    encodes (N_of_ascii a0) (String a0 "")
| enc_two a0 a1 :
    two_bytes (N_of_ascii a0) (N_of_ascii a1) = true ->
    encodes (64 * (N_of_ascii a0 - 192) + (N_of_ascii a1 - 128))%N
      (String a0 (String a1 ""))
| enc_three a0 a1 a2 :
    three_bytes (N_of_ascii a0) (N_of_ascii a1) (N_of_ascii a2) = true ->
    encodes (4096 * (N_of_ascii a0 - 224) + 64 * (N_of_ascii a1 - 128)
             + (N_of_ascii a2 - 128))%N
      (String a0 (String a1 (String a2 "")))
| enc_four a0 a1 a2 a3 :
    four_bytes (N_of_ascii a0) (N_of_ascii a1) (N_of_ascii a2)
      (N_of_ascii a3) = true ->
    encodes (262144 * (N_of_ascii a0 - 240) + 4096 * (N_of_ascii a1 - 128)
             + 64 * (N_of_ascii a2 - 128) + (N_of_ascii a3 - 128))%N
      (String a0 (String a1 (String a2 (String a3 ""))))
| enc_escape a0 :
    (128 <= N_of_ascii a0)%N ->
    encodes (56320 + N_of_ascii a0)%N (String a0 "").

(** [x <= y] on sequences of code points: the first difference decides,
    and a proper prefix is smaller. *)
Fixpoint cp_leb (x y : list N) : bool :=
  match x, y with
  | [], _ => true
  | _ :: _, [] => false
  | c :: x', d :: y' => (c <? d)%N || (c =? d)%N && cp_leb x' y'
  end.

(** [s <= t] and [s < t] on [str] *)
Definition str_le (s t : string) : Prop :=
  Is_true (cp_leb (code_points s) (code_points t)).
Definition str_lt (s t : string) : Prop := ~ str_le t s.

#[global] Instance str_le_dec : RelDecision str_le :=
  fun s t => Is_true_dec (cp_leb (code_points s) (code_points t)).

(** [sorted(l)] on strings: the order is total and antisymmetric, so the
    sorted list is unique and stability cannot be observed. *)
Definition sorted (l : list string) : list string := merge_sort str_le l.

End PyStr.

(** ** [posixpath] *)

Module PosixPath.
Import PyStr.

Definition isabs (p : string) : bool := startswith "/" p.

(** [os.path.join(a, b)] *)
Definition join (a b : string) : string :=
  if startswith "/" b then b
  else if String.eqb a "" || endswith "/" a then a +:+ b
  else a +:+ "/" +:+ b.

(** The loop of [normpath] over the components, [new_comps] kept reversed. *)
Fixpoint normpath_comps (initial_slashes : bool) (acc comps : list string)
  : list string :=
  match comps with
  | [] => rev acc
  | comp :: rest =>
      if String.eqb comp "" || String.eqb comp "." then
        normpath_comps initial_slashes acc rest
      else if negb (String.eqb comp "..")
              || (negb initial_slashes && bool_decide (acc = []))
              || match acc with
                 | last :: _ => String.eqb last ".."
                 | [] => false
                 end
      then normpath_comps initial_slashes (comp :: acc) rest
      else normpath_comps initial_slashes (tl acc) rest
  end.

(** [os.path.normpath(path)] *)
Definition normpath (path : string) : string :=
  if String.eqb path "" then "."
  else
    let initial_slashes : nat :=
      if startswith "/" path then
        if startswith "//" path && negb (startswith "///" path) then 2
        else 1
      else 0 in
    let comps := normpath_comps (negb (Nat.eqb initial_slashes 0)) []
                   (split sep path) in
    let path' := PyStr.join "/" comps in
    let path' := match initial_slashes with
                 | 0 => path'
                 | 1 => "/" +:+ path'
                 | _ => "//" +:+ path'
                 end in
    if String.eqb path' "" then "." else path'.

(** [p[:i], p[i:]] with [i = p.rfind('/') + 1] *)
Fixpoint rsplit (p : string) : string * string :=
  match p with
  | EmptyString => (EmptyString, EmptyString)
  | String a p' =>
      let '(h, t) := rsplit p' in
      if String.eqb h "" then
        if Ascii.eqb a sep then ("/", p') else ("", String a p')
      else (String a h, t)
  end.

(** [os.path.split(p)] *)
Definition split (p : string) : string * string :=
  let '(head, tail) := rsplit p in
  let stripped := rstrip sep head in
  (if String.eqb stripped "" then head else stripped, tail).

Definition dirname (p : string) : string := fst (split p).

(** [os.path.abspath(p)] in working directory [cwd] *)
Definition abspath (cwd p : string) : string :=
  normpath (if isabs p then p else join cwd p).

Fixpoint drop_common (a b : list string) : list string * list string :=
  match a, b with
  | x :: a', y :: b' =>
      if String.eqb x y then drop_common a' b' else (a, b)
  | _, _ => (a, b)
  end.

Definition nonempty (s : string) : bool := negb (String.eqb s "").

(** [os.path.join] of the items of a non-empty list *)
Definition join_all (l : list string) : string :=
  match l with
  | [] => ""
  | x :: l' => fold_left join l' x
  end.

(** [os.path.relpath(path, start)]; [None] is the [ValueError] on an
    empty [path]. *)
Definition relpath (cwd path start : string) : option string :=
  if String.eqb path "" then None
  else
    let start_list := filter nonempty (PyStr.split sep (abspath cwd start)) in
    let path_list := filter nonempty (PyStr.split sep (abspath cwd path)) in
    let '(up, down) := drop_common start_list path_list in
    let rel_list := replicate (length up) ".." ++ down in
    match rel_list with
    | [] => Some "."
    | _ => Some (join_all rel_list)
    end.

End PosixPath.

(** ** The world a method runs in *)

Inductive node :=
  | File (data : string)
  | Dir.

(** Python exceptions the module raises or lets through. [Refused] is
    whatever a decorator of [pypass.util] raises when it blocks a call. *)
Inductive exn :=
  | FileExistsError
  | FileNotFoundError
  | NotADirectoryError
  | IsADirectoryError
  | TypeError
  | ValueError
  | RecursionError
  | GpgError
  | Refused.

(** What the history backend was asked to do. *)
Inductive git_op :=
  | GitAdd (path msg : string)
  | GitRemove (paths : list string) (msg : string) (recursive commit : bool).

Record World := mkWorld {
  fs : gmap (list string) node;   (* canonical absolute path -> node *)
  cwd : list string;              (* working directory, canonical *)
  git_log : list git_op;          (* history calls, oldest first *)
  entropy : nat                   (* state of the random source *)
}.

Inductive outcome (A : Type) :=
  | Return (a : A)
  | Raise (e : exn).
Arguments Return {A} a.
Arguments Raise {A} e.

(** A computation: its outcome and the world it leaves, also on [Raise]. *)
Definition M (A : Type) : Type := World -> outcome A * World.

Definition ret {A} (a : A) : M A := fun w => (Return a, w).
Definition raise {A} (e : exn) : M A := fun w => (Raise e, w).
Definition bind {A B} (m : M A) (f : A -> M B) : M B :=
  fun w => match m w with
           | (Return a, w') => f a w'
           | (Raise e, w') => (Raise e, w')
           end.
Definition get_world : M World := fun w => (Return w, w).
Definition set_fs (f : gmap (list string) node) : M unit :=
  fun w => (Return tt, mkWorld f (cwd w) (git_log w) (entropy w)).

Notation "'do' x <- m ; k" := (bind m (fun x => k))
  (at level 10, x pattern, m at level 100, k at level 200,
   format "'[v' 'do'  x  <-  m ; '/' k ']'").
Notation "m ;; k" := (bind m (fun _ => k))
  (at level 100, k at level 200, right associativity).

(** ** [os], [os.path] and [shutil] on the model *)

Module OS.
Import PyStr.

Definition is_dir (f : gmap (list string) node) (k : list string) : bool :=
  match f !! k with Some Dir => true | _ => false end.

(** Path resolution without symbolic links: every component is looked up
    in a directory; the last one need not exist. Walking through a file
    is [ENOTDIR], through nothing [ENOENT]. *)
Fixpoint walk (f : gmap (list string) node) (cur comps : list string)
  : outcome (list string) :=
  match comps with
  | [] => Return cur
  | c :: rest =>
      match f !! cur with
      | Some Dir =>
          if String.eqb c "" || String.eqb c "." then walk f cur rest
          else if String.eqb c ".." then walk f (removelast cur) rest
          else walk f (cur ++ [c]) rest
      | Some (File _) => Raise NotADirectoryError
      | None => Raise FileNotFoundError
      end
  end.

(** Where resolution starts: the root or the working directory. *)
Definition start (w : World) (p : string) : list string :=
  if PosixPath.isabs p then [] else cwd w.

Definition resolve (w : World) (p : string) : outcome (list string) :=
  if String.eqb p "" then Raise FileNotFoundError
  else walk (fs w) (start w p) (split sep p).

Definition lookup (w : World) (p : string) : option node :=
  match resolve w p with
  | Return k => fs w !! k
  | Raise _ => None
  end.

Definition getcwd (w : World) : string := "/" +:+ PyStr.join "/" (cwd w).

Definition exists_ (w : World) (p : string) : bool :=
  bool_decide (is_Some (lookup w p)).
Definition isdir (w : World) (p : string) : bool :=
  match lookup w p with Some Dir => true | _ => false end.
Definition isfile (w : World) (p : string) : bool :=
  match lookup w p with Some (File _) => true | _ => false end.

(** The last component names a new entry (not [.], [..] or nothing). *)
Definition proper_leaf (p : string) : bool :=
  let t := snd (PosixPath.rsplit p) in
  negb (String.eqb t "" || String.eqb t "." || String.eqb t "..").

(** [os.remove(p)] *)
Definition remove (p : string) : M unit := fun w =>
  match resolve w p with
  | Return k =>
      match fs w !! k with
      | Some (File _) => set_fs (delete k (fs w)) w
      | Some Dir => (Raise IsADirectoryError, w)
      | None => (Raise FileNotFoundError, w)
      end
  | Raise e => (Raise e, w)
  end.

(** [os.mkdir(p)]: a trailing separator is allowed. *)
Definition mkdir (p : string) : M unit := fun w =>
  let p' := rstrip sep p in
  if String.eqb p "" then (Raise FileNotFoundError, w)
  else if String.eqb p' "" then (Raise FileExistsError, w)
  else
    match resolve w p' with
    | Return k =>
        match fs w !! k with
        | Some _ => (Raise FileExistsError, w)
        | None =>
            if proper_leaf p' then set_fs (<[k := Dir]> (fs w)) w
            else (Raise FileNotFoundError, w)
        end
    | Raise e => (Raise e, w)
    end.

(** [os.makedirs(name, exist_ok=exist_ok)]; every recursive call is on a
    strictly shorter string, so [S (length name)] levels suffice. *)
Fixpoint makedirs_rec (fuel : nat) (name : string) (exist_ok : bool)
  : M unit :=
  match fuel with
  | 0 => raise RecursionError
  | S fuel' => fun w =>
      let '(head, tail) := PosixPath.split name in
      let '(head, tail) :=
        if String.eqb tail "" then PosixPath.split head else (head, tail) in
      let do_mkdir : M unit := fun w1 =>
        match mkdir name w1 with
        | (Raise e, w2) =>
            if negb exist_ok || negb (isdir w2 name) then (Raise e, w2)
            else (Return tt, w2)
        | r => r
        end in
      if PosixPath.nonempty head && PosixPath.nonempty tail
         && negb (exists_ w head)
      then
        match makedirs_rec fuel' head exist_ok w with
        | (Raise FileExistsError, w1) | (Return _, w1) =>
            if String.eqb tail "." then (Return tt, w1) else do_mkdir w1
        | (Raise e, w1) => (Raise e, w1)
        end
      else do_mkdir w
  end.

Definition makedirs (name : string) (exist_ok : bool) : M unit :=
  makedirs_rec (S (String.length name)) name exist_ok.

Definition under (k k' : list string) : bool := bool_decide (k `prefix_of` k').

(** The last component of [p], separators at its end set aside, is [.] or
    [..]. The system unlinks no directory under such a name: [rmdir]
    fails with [EINVAL] or [ENOTEMPTY], as it fails with [EBUSY] on the
    root. *)
Definition dot_leaf (p : string) : bool :=
  let t := snd (PosixPath.rsplit (rstrip sep p)) in
  String.eqb t "." || String.eqb t "..".

(** The directory [k], reached as [p], cannot be removed itself. *)
Definition stays (p : string) (k : list string) : bool :=
  dot_leaf p || bool_decide (k = []).

(** What [shutil.rmtree(p)] leaves of the files when [p] is the directory
    [k]: all that is below [k] goes, and then [k] itself where [os.rmdir]
    takes it. *)
Definition without_tree (p : string) (k : list string)
    (f : gmap (list string) node) : gmap (list string) node :=
  filter (fun kv => negb (under k (fst kv))
                    || stays p k && bool_decide (fst kv = k)) f.

(** [shutil.rmtree(p, ignore_errors=True)]: the whole tree below a
    directory goes; anything else, the failure to remove the directory
    itself included, is an ignored error. *)
Definition rmtree_ignore_errors (p : string) : M unit := fun w =>
  match resolve w p with
  | Return k =>
      if is_dir (fs w) k then set_fs (without_tree p k (fs w)) w
      else (Return tt, w)
  | Raise _ => (Return tt, w)
  end.

(** [with open(p, 'w') as f: f.write(data)] *)
Definition write_file (p data : string) : M unit := fun w =>
  match resolve w p with
  | Return k =>
      match fs w !! k with
      | Some Dir => (Raise IsADirectoryError, w)
      | Some (File _) => set_fs (<[k := File data]> (fs w)) w
      | None =>
          if proper_leaf p then set_fs (<[k := File data]> (fs w)) w
          else (Raise IsADirectoryError, w)
      end
  | Raise e => (Raise e, w)
  end.

Definition read_file (p : string) : M string := fun w =>
  match lookup w p with
  | Some (File d) => (Return d, w)
  | Some Dir => (Raise IsADirectoryError, w)
  | None => (Raise FileNotFoundError, w)
  end.

Fixpoint child_of (k k' : list string) : option string :=
  match k, k' with
  | [], [n] => Some n
  | x :: k1, y :: k1' => if String.eqb x y then child_of k1 k1' else None
  | _, _ => None
  end.

(** The names in directory [k], in the order the system reports them. *)
Definition entries (f : gmap (list string) node) (k : list string)
  : list string :=
  omap (fun kv => child_of k (fst kv)) (map_to_list f).

(** [os.listdir(p)] *)
Definition listdir (p : string) : M (list string) := fun w =>
  match resolve w p with
  | Return k =>
      match fs w !! k with
      | Some Dir => (Return (entries (fs w) k), w)
      | Some (File _) => (Raise NotADirectoryError, w)
      | None => (Raise FileNotFoundError, w)
      end
  | Raise e => (Raise e, w)
  end.

End OS.

(** ** The store *)

Record Store := mkStore {
  store_dir : string;          (* [self.store_dir], already normalised *)
  repo : bool;                 (* is [self.repo] a repository? *)
  gpg_bin : string;
  gpg_opts : list string
}.

Definition guard (ok : World -> bool) : M unit :=
  fun w => if ok w then (Return tt, w) else (Raise Refused, w).

Fixpoint for_each {A} (f : A -> M unit) (l : list A) : M unit :=
  match l with
  | [] => ret tt
  | x :: l' => f x ;; for_each f l'
  end.

Module Methods.
Section Engine.

(** The encryption backend: [encrypt ids plaintext] and [decrypt]. *)
Variable encrypt : list string -> string -> string.
Variable decrypt : string -> option string.

(** [pypass.util._gen_password(length, symbols)] at a state of the
    random source. *)
Variable _gen_password : nat -> Z -> bool -> string.

(** The decorators [initialised] and [trap] of [pypass.util], as the
    condition under which they let the call through. *)
Variable initialised_ok : Store -> World -> bool.
Variable trap_ok : Store -> option string -> World -> bool.

(** [pypass.util._copy_move(old, new, force, move)] *)
Variable _copy_move : string -> string -> bool -> bool -> M string.

(** *** History backend *)

(** Modelled from the spec: [pypass.git._git_add_path], which stages a
    path and commits with the message, and does nothing without a
    repository. *)
Definition _git_add_path (st : Store) (path msg : string) : M unit :=
  fun w =>
    if repo st
    then (Return tt, mkWorld (fs w) (cwd w) (git_log w ++ [GitAdd path msg])
                             (entropy w))
    else (Return tt, w).

(** Modelled from the spec: [pypass.git._git_remove_path], which removes
    paths from the history and does nothing without a repository. *)
Definition _git_remove_path (st : Store) (paths : list string)
    (msg : string) (recursive commit : bool) : M unit :=
  fun w =>
    if repo st
    then (Return tt,
          mkWorld (fs w) (cwd w)
                  (git_log w ++ [GitRemove paths msg recursive commit])
                  (entropy w))
    else (Return tt, w).

(** *** Encryption backend *)

Definition read_ids (data : string) : list string :=
  filter PosixPath.nonempty (PyStr.split PyStr.nl data).

(** Modelled from the spec: the effective identities of directory [k],
    read from the nearest [.gpg-id] at [k] or above it ([rk] is [k]
    reversed). *)
Fixpoint effective_identities (f : gmap (list string) node)
    (rk : list string) : option (list string) :=
  match f !! (rev rk ++ [".gpg-id"]) with
  | Some (File d) => Some (read_ids d)
  | _ => match rk with
         | [] => None
         | _ :: rk' => effective_identities f rk'
         end
  end.

(** The effective identities for the file at [key_path]. *)
Definition scope_of (w : World) (key_path : string)
  : option (list string) :=
  match OS.resolve w key_path with
  | Return k => effective_identities (fs w) (rev (removelast k))
  | Raise _ => None
  end.

(** Modelled from the spec: [pypass.gpg._write_key], which encrypts the
    data to the effective identities of the key's directory and writes
    the file. *)
Definition _write_key (st : Store) (key_path key_data : string) : M unit :=
  fun w =>
    match OS.resolve w key_path with
    | Return k =>
        match effective_identities (fs w) (rev (removelast k)) with
        | Some ids => OS.write_file key_path (encrypt ids key_data) w
        | None => (Raise GpgError, w)
        end
    | Raise e => (Raise e, w)
    end.

(** Modelled from the spec: [pypass.gpg._read_key], which decrypts the
    file. *)
Definition _read_key (st : Store) (key_path : string) : M string :=
  do payload <- OS.read_file key_path;
  match decrypt payload with
  | Some data => ret data
  | None => raise GpgError
  end.

Definition reencrypt_one (k : list string) (kv : list string * node)
  : M unit :=
  fun w =>
    match kv with
    | (k', File payload) =>
        if OS.under k k' && PyStr.endswith ".gpg" (List.last k' "") then
          match decrypt payload,
                effective_identities (fs w) (rev (removelast k')) with
          | Some data, Some ids =>
              set_fs (<[k' := File (encrypt ids data)]> (fs w)) w
          | _, _ => (Raise GpgError, w)
          end
        else (Return tt, w)
    | (_, Dir) => (Return tt, w)
    end.

(** Modelled from the spec: [pypass.gpg._reencrypt_path], which decrypts
    every secret at or below the path and encrypts it again to its
    effective identities; the first failure stops it. *)
Definition _reencrypt_path (st : Store) (path : string) : M unit :=
  fun w =>
    match OS.resolve w path with
    | Return k => for_each (reencrypt_one k) (map_to_list (fs w)) w
    | Raise _ => (Return tt, w)
    end.

(** *** Methods of [Store] *)

(** [Store._get_store_name] *)
Definition _get_store_name (st : Store) (path : string) : M string :=
  fun w =>
    match PosixPath.relpath (OS.getcwd w) path (store_dir st) with
    | None => (Raise ValueError, w)
    | Some path =>
        (* Keys are identified without their file ending. *)
        if PyStr.endswith ".gpg" path
        then (Return (PyStr.drop_last 4 path), w)
        else (Return path, w)
    end.


(** [Store.init_store], under [@trap('path')]. A single identity given
    as a string is the list of that one identity (lines 157-158). *)
Definition init_store (st : Store) (gpg_ids : option (list string))
    (path : option string) : M unit :=
  guard (trap_ok st path) ;;
  do path <- match path with
             | Some path =>
                 let path := PosixPath.normpath path in
                 do w <- get_world;
                 if negb (OS.isdir w path) && OS.exists_ w path
                 then raise FileExistsError
                 else ret path
             | None => ret (store_dir st)
             end;
  let gpg_id_dir := PosixPath.join (store_dir st) path in
  let gpg_id_path := PosixPath.join gpg_id_dir ".gpg-id" in
  match gpg_ids with
  | None | Some [] =>
      (* Delete current gpg id. *)
      do w <- get_world;
      if negb (OS.isfile w gpg_id_path) then raise FileNotFoundError
      else
        OS.remove gpg_id_path ;;
        _git_remove_path st [gpg_id_path]
          ("Deinitialize " +:+ gpg_id_path +:+ ".") true true ;;
        OS.rmtree_ignore_errors gpg_id_dir
  | Some ids =>
      OS.makedirs gpg_id_dir false ;;
      (* pass needs the gpg id file to be newline terminated. *)
      OS.write_file gpg_id_path
        (PyStr.join (String PyStr.nl "") ids +:+ String PyStr.nl "") ;;
      _git_add_path st gpg_id_path
        ("Set GPG id to " +:+ PyStr.join ", " ids +:+ ".")
  end ;;
  _reencrypt_path st gpg_id_dir ;;
  match gpg_ids with
  | None => raise TypeError
  | Some ids =>
      _git_add_path st gpg_id_dir
        ("Reencrypt password store using new GPG id "
         +:+ PyStr.join ", " ids +:+ ".")
  end.

(** [key_path], as [get_key], [set_key] and [gen_key] compute it. *)
Definition key_path_of (st : Store) (path : string) : string :=
  PosixPath.join (store_dir st) (PosixPath.normpath path +:+ ".gpg").

(** [Store.get_key], under [@initialised] and [@trap(1)] *)
Definition get_key (st : Store) (path : option string)
  : M (option string) :=
  guard (initialised_ok st) ;;
  guard (trap_ok st path) ;;
  match path with
  | None | Some "" => ret None
  | Some path =>
      let path := PosixPath.normpath path in
      let key_path := PosixPath.join (store_dir st) (path +:+ ".gpg") in
      do w <- get_world;
      if OS.isfile w key_path then
        do data <- _read_key st key_path; ret (Some data)
      else raise FileNotFoundError
  end.

(** [Store.set_key], under [@initialised] and [@trap(1)] *)
Definition set_key (st : Store) (path : option string) (key_data : string)
    (force : bool) : M unit :=
  guard (initialised_ok st) ;;
  guard (trap_ok st path) ;;
  match path with
  | None | Some "" => ret tt
  | Some path =>
      let path := PosixPath.normpath path in
      let key_path := PosixPath.join (store_dir st) (path +:+ ".gpg") in
      let key_dir := PosixPath.dirname key_path in
      do w <- get_world;
      if OS.exists_ w key_path && negb force then raise FileExistsError
      else
        OS.makedirs (PosixPath.join (store_dir st) key_dir) true ;;
        _write_key st key_path key_data ;;
        _git_add_path st key_path
          ("Add given password for " +:+ path +:+ " to store.")
  end.

Definition draw_password (length : Z) (symbols : bool) : M string :=
  fun w => (Return (_gen_password (entropy w) length symbols),
            mkWorld (fs w) (cwd w) (git_log w) (S (entropy w))).

(** [Store.gen_key], under [@initialised] and [@trap(1)] *)
Definition gen_key (st : Store) (path : option string) (length : Z)
    (symbols force inplace : bool) : M (option string) :=
  guard (initialised_ok st) ;;
  guard (trap_ok st path) ;;
  match path with
  | None | Some "" => ret None
  | Some path =>
      let path := PosixPath.normpath path in
      let key_path := PosixPath.join (store_dir st) (path +:+ ".gpg") in
      let key_dir := PosixPath.dirname key_path in
      do w <- get_world;
      if OS.exists_ w key_path && negb (force || inplace)
      then raise FileExistsError
      else
        OS.makedirs (PosixPath.join (store_dir st) key_dir) true ;;
        do password <- draw_password length symbols;
        do action <-
          (if negb inplace then
             _write_key st key_path password ;;
             ret "Add"
           else
             do key_data <- _read_key st key_path;
             let lines := PyStr.split PyStr.nl key_data in
             let lines := <[0 := password]> lines in
             _write_key st key_path
               (PyStr.join (String PyStr.nl "") lines) ;;
             ret "Replace");
        _git_add_path st key_path
          (action +:+ " generated password for " +:+ path +:+ ".") ;;
        ret (Some password)
  end.

(** The two paths [Store._copy_move_path] hands to [_copy_move]. *)
Definition copy_move_paths (st : Store) (w : World)
    (old_path new_path : string) : string * string :=
  let old_path := PosixPath.normpath old_path in
  let new_path := PosixPath.normpath new_path in
  let old_path_full := PosixPath.join (store_dir st) old_path in
  let new_path_full := PosixPath.join (store_dir st) new_path in
  if negb (OS.isdir w old_path_full) then
    (old_path_full +:+ ".gpg",
     if negb (OS.isdir w new_path_full || PyStr.endswith "/" new_path_full)
     then new_path_full +:+ ".gpg"
     else new_path_full)
  else (old_path_full, new_path_full).

(** [Store._copy_move_path], under [@initialised], [@trap(1)], [@trap(2)] *)
Definition _copy_move_path (st : Store) (old_path new_path : string)
    (force move : bool) : M unit :=
  guard (initialised_ok st) ;;
  guard (trap_ok st (Some old_path)) ;;
  guard (trap_ok st (Some new_path)) ;;
  do w <- get_world;
  let '(old_path_full, new_path_full) :=
    copy_move_paths st w old_path new_path in
  let old_path := PosixPath.normpath old_path in
  let new_path := PosixPath.normpath new_path in
  do new_path_full <- _copy_move old_path_full new_path_full force move;
  do w <- get_world;
  (if OS.exists_ w new_path_full then _reencrypt_path st new_path_full
   else ret tt) ;;
  do action <-
    (if move then
       OS.rmtree_ignore_errors old_path_full ;;
       do w <- get_world;
       (if negb (OS.exists_ w old_path_full)
        then _git_remove_path st [old_path_full] "" true false
        else ret tt) ;;
       ret "Rename"
     else ret "Copy");
  _git_add_path st new_path_full
    (action +:+ " " +:+ old_path +:+ " to " +:+ new_path +:+ ".").

(** [Store.copy_path] *)
Definition copy_path (st : Store) (old_path new_path : string)
    (force : bool) : M unit :=
  _copy_move_path st old_path new_path force false.

(** [Store.move_path] *)
Definition move_path (st : Store) (old_path new_path : string)
    (force : bool) : M unit :=
  _copy_move_path st old_path new_path force true.

(** The loop of [Store.list_dir] over the sorted entries. *)
Fixpoint list_dir_loop (st : Store) (path_dir : string)
    (entries : list string) (dirs keys : list string)
  : M (list string * list string) :=
  match entries with
  | [] => ret (dirs, keys)
  | entry :: rest =>
      if PyStr.startswith "." entry then
        list_dir_loop st path_dir rest dirs keys
      else
        let entry_path := PosixPath.join path_dir entry in
        do w <- get_world;
        if OS.isdir w entry_path then
          do name <- _get_store_name st entry_path;
          list_dir_loop st path_dir rest (dirs ++ [name]) keys
        else if OS.isfile w entry_path && PyStr.endswith ".gpg" entry then
          (* Keys are named without their ending. *)
          do name <- _get_store_name st entry_path;
          list_dir_loop st path_dir rest dirs (keys ++ [name])
        else list_dir_loop st path_dir rest dirs keys
  end.

(** [Store.list_dir], under [@initialised] and [@trap(1)] *)
Definition list_dir (st : Store) (path : option string)
  : M (list string * list string) :=
  guard (initialised_ok st) ;;
  guard (trap_ok st path) ;;
  match path with
  | None => raise TypeError
  | Some path =>
      let path := PosixPath.normpath path in
      let path_dir := PosixPath.join (store_dir st) path in
      do w <- get_world;
      if negb (OS.isdir w path_dir) then raise FileNotFoundError
      else
        (* We want to return the entries alphabetically sorted. *)
        do entries <- OS.listdir path_dir;
        list_dir_loop st path_dir (PyStr.sorted entries) [] []
  end.

End Engine.

(** *** What the properties speak of *)

(** The name [_get_store_name] gives to a path in a world. *)
Definition store_name_at (st : Store) (w : World) (path : string) : string :=
  match fst (_get_store_name st path w) with
  | Return name => name
  | Raise _ => ""
  end.

(** The tests of the loop of [list_dir] on an entry. *)
Definition listed_dir (w : World) (path_dir entry : string) : bool :=
  negb (PyStr.startswith "." entry)
  && OS.isdir w (PosixPath.join path_dir entry).
Definition listed_key (w : World) (path_dir entry : string) : bool :=
  negb (PyStr.startswith "." entry)
  && OS.isfile w (PosixPath.join path_dir entry)
  && PyStr.endswith ".gpg" entry.

(** [gpg_id_dir] and [gpg_id_path] as [init_store] computes them. *)
Definition gpg_id_dir_of (st : Store) (path : option string) : string :=
  PosixPath.join (store_dir st)
    match path with
    | Some path => PosixPath.normpath path
    | None => store_dir st
    end.
Definition gpg_id_path_of (st : Store) (path : option string) : string :=
  PosixPath.join (gpg_id_dir_of st path) ".gpg-id".

(** The test that opens [init_store]: the path, as given, exists and is
    not a directory. *)
Definition early_conflict (w : World) (path : option string) : bool :=
  match path with
  | Some path =>
      negb (OS.isdir w (PosixPath.normpath path))
      && OS.exists_ w (PosixPath.normpath path)
  | None => false
  end.


End Methods.


(** ** A toy backend, to run the engine on concrete stores *)

Module Demo.

Definition shift (a : ascii) : ascii :=
  ascii_of_N ((N_of_ascii a + 1) mod 256).
Definition unshift (a : ascii) : ascii :=
  ascii_of_N ((N_of_ascii a + 255) mod 256).

Fixpoint smap (f : ascii -> ascii) (s : string) : string :=
  match s with
  | EmptyString => EmptyString
  | String a s' => String (f a) (smap f s')
  end.

(** The payload is a tag, the number of recipients, and the shifted text. *)
Definition encrypt (ids : list string) (data : string) : string :=
  String "G" (String (ascii_of_nat (length ids)) (smap shift data)).
Definition decrypt (payload : string) : option string :=
  match payload with
  | String "G" (String _ body) => Some (smap unshift body)
  | _ => None
  end.

(** A password of the asked length, its letter picked by the source. *)
Definition _gen_password (seed : nat) (length : Z) (symbols : bool)
  : string :=
  PyStr.fill (Z.to_nat length) (ascii_of_nat (97 + seed mod 26)).

(** Calls are let through on an initialised store. *)
Definition initialised_ok (st : Store) (w : World) : bool :=
  OS.isfile w (PosixPath.join (store_dir st) ".gpg-id").

(** Calls are let through when the path stays below the store. *)
Definition trap_ok (st : Store) (path : option string) (w : World) : bool :=
  match path with
  | None => true
  | Some p =>
      let root := PosixPath.abspath (OS.getcwd w) (store_dir st) in
      PyStr.startswith root
        (PosixPath.abspath (OS.getcwd w) (PosixPath.join root p))
  end.

Definition store : Store := mkStore "/s" true "gpg" ["--quiet"; "--yes"].

Definition files : gmap (list string) node :=
  list_to_map
    [([], Dir); (["home"], Dir); (["s"], Dir);
     (["s"; ".gpg-id"], File "alice
");
     (["s"; "b.gpg"], File (encrypt ["alice"] "pw-b"));
     (["s"; "a.gpg"], File (encrypt ["alice"] "old
meta1
meta2"));
     (["s"; "notes.txt"], File "plain");
     (["s"; "d"], Dir);
     (["s"; "d"; ".gpg-id"], File "bob
");
     (["s"; "d"; "x.gpg"], File (encrypt ["bob"] "pw-x"))].

Definition world : World := mkWorld files ["home"] [] 0.

(** The same store seen from inside the store directory. *)
Definition world_in_store : World := mkWorld files ["s"] [] 0.

Definition get_key := Methods.get_key decrypt initialised_ok trap_ok.
Definition set_key := Methods.set_key encrypt initialised_ok trap_ok.
Definition gen_key :=
  Methods.gen_key encrypt decrypt _gen_password initialised_ok trap_ok.
Definition init_store := Methods.init_store encrypt decrypt trap_ok.
Definition list_dir := Methods.list_dir initialised_ok trap_ok.

End Demo.

(** ** The rest of the store: removal, traversal and search by name *)

Module Removal.
Section Removal.

(** The plain [OSError] that [os.rmdir] raises on a directory that is not
    empty, is named by [.] or [..], or is the root; Python has no class
    of its own for it. *)
Variable OSError : exn.

Variable initialised_ok : Store -> World -> bool.
Variable trap_ok : Store -> option string -> World -> bool.

(** [os.rmdir(p)] *)
Definition rmdir (p : string) : M unit := fun w =>
  match OS.resolve w p with
  | Return k =>
      match fs w !! k with
      | Some Dir =>
          if negb (OS.stays p k) && bool_decide (OS.entries (fs w) k = [])
          then set_fs (delete k (fs w)) w
          else (Raise OSError, w)
      | Some (File _) => (Raise NotADirectoryError, w)
      | None => (Raise FileNotFoundError, w)
      end
  | Raise e => (Raise e, w)
  end.

(** [shutil.rmtree(p)]: errors are raised. The directory is emptied
    first, and the error of the [os.rmdir] that ends it comes after. *)
Definition rmtree (p : string) : M unit := fun w =>
  match OS.resolve w p with
  | Return k =>
      match fs w !! k with
      | Some Dir =>
          (if OS.stays p k then Raise OSError else Return tt,
           mkWorld (OS.without_tree p k (fs w)) (cwd w) (git_log w)
             (entropy w))
      | Some (File _) => (Raise NotADirectoryError, w)
      | None => (Raise FileNotFoundError, w)
      end
  | Raise e => (Raise e, w)
  end.

(** [Store.remove_path], under [@initialised] and [@trap(1)]. The history
    is given the one path as a list. *)
Definition remove_path (st : Store) (path : option string)
    (recursive : bool) : M unit :=
  guard (initialised_ok st) ;;
  guard (trap_ok st path) ;;
  match path with
  | None => raise TypeError
  | Some path =>
      let key_path := PosixPath.join (store_dir st) path in
      let key_path := PosixPath.normpath key_path in
      do w <- get_world;
      do key_path <-
        (if OS.isdir w key_path then
           (if recursive then rmtree key_path else rmdir key_path) ;;
           ret key_path
         else
           let key_path := key_path +:+ ".gpg" in
           if negb (OS.isfile w key_path) then raise FileNotFoundError
           else OS.remove key_path ;; ret key_path);
      do w <- get_world;
      if negb (OS.exists_ w key_path) then
        Methods._git_remove_path st [key_path]
          ("Remove " +:+ path +:+ " from store.") recursive true
      else ret tt
  end.

End Removal.
End Removal.

Module Traversal.
Section Traversal.

Variable initialised_ok : Store -> World -> bool.
Variable trap_ok : Store -> option string -> World -> bool.

(** [s.find(sub)]: the lowest index at which [sub] starts, or [-1]. *)
Fixpoint str_find (s sub : string) : Z :=
  if PyStr.startswith sub s then 0%Z
  else match s with
       | EmptyString => (-1)%Z
       | String _ s' =>
           let r := str_find s' sub in
           if Z.eqb r (-1) then (-1)%Z else (r + 1)%Z
       end.

(** The loop of [Store.iter_dir] over the sorted entries, with the names
    it yields as a list; [iter_dir] is the method itself, called on the
    directories. *)
Fixpoint iter_dir_loop (iter_dir : option string -> M (list string))
    (st : Store) (path_dir : string) (entries : list string)
  : M (list string) :=
  match entries with
  | [] => ret []
  | entry :: rest =>
      (* Ignore hidden files and directories as pass does the same. *)
      if PyStr.startswith "." entry then
        iter_dir_loop iter_dir st path_dir rest
      else
        let entry_path := PosixPath.join path_dir entry in
        do w <- get_world;
        match PosixPath.relpath (OS.getcwd w) entry_path (store_dir st) with
        | None => raise ValueError
        | Some entry_path_rel =>
            if OS.isdir w entry_path then
              do below <- iter_dir (Some entry_path_rel);
              do after <- iter_dir_loop iter_dir st path_dir rest;
              ret (below ++ after)
            else if PyStr.endswith ".gpg" entry then
              do after <- iter_dir_loop iter_dir st path_dir rest;
              ret (PyStr.drop_last 4 entry_path_rel :: after)
            else iter_dir_loop iter_dir st path_dir rest
        end
  end.

(** [Store.iter_dir], under [@initialised] and [@trap(1)], iterated to its
    end: the generator's names in the order it yields them, or what it
    raises on the way; [limit] is how deep the interpreter lets the calls
    nest. *)
Fixpoint iter_dir (limit : nat) (st : Store) (path : option string)
  : M (list string) :=
  match limit with
  | 0 => raise RecursionError
  | S limit' =>
      guard (initialised_ok st) ;;
      guard (trap_ok st path) ;;
      match path with
      | None => raise TypeError
      | Some path =>
          let path := PosixPath.normpath path in
          let path_dir := PosixPath.join (store_dir st) path in
          do w <- get_world;
          if negb (OS.isdir w path_dir) then raise FileNotFoundError
          else
            (* List keys in lexicographical order. *)
            do entries <- OS.listdir path_dir;
            iter_dir_loop (iter_dir limit' st) st path_dir
              (PyStr.sorted entries)
      end
  end.

(** [Store.__iter__] *)
Definition iter (limit : nat) (st : Store) : M (list string) :=
  iter_dir limit st (Some "").

(** The inner loop of [Store.find]: does some name occur in the key? *)
Fixpoint matches_any (key : string) (names : list string) : bool :=
  match names with
  | [] => false
  | name :: rest =>
      if negb (Z.eqb (str_find key name) (-1)) then true
      else matches_any key rest
  end.

(** The outer loop of [Store.find], [keys] being the list built so far. *)
Fixpoint find_loop (names : list string) (walk keys : list string)
  : list string :=
  match walk with
  | [] => keys
  | key :: rest =>
      if matches_any key names
      then find_loop names rest (keys ++ [key])   (* append, then break *)
      else find_loop names rest keys
  end.

(** [Store.find], under [@initialised]. A single name given as a string
    is the list of that one name. *)
Definition find (limit : nat) (st : Store) (names : option (list string))
  : M (list string) :=
  guard (initialised_ok st) ;;
  match names with
  | None => ret []
  | Some names =>
      do walk <- iter limit st;
      ret (find_loop names walk [])
  end.

End Traversal.
End Traversal.

(** *** What the further properties speak of *)

(** The history after one more call, when there is a repository. *)
Definition staged (st : Store) (log : list git_op) (op : git_op)
  : list git_op :=
  if repo st then log ++ [op] else log.

(** The path [remove_path] works on, before [.gpg] is tried. *)
Definition removal_path (st : Store) (path : string) : string :=
  PosixPath.normpath (PosixPath.join (store_dir st) path).

Module Clean.

(** A name a directory entry can have: not empty, not [.] or [..], and
    without separator. *)
Definition proper_name (c : string) : bool :=
  negb (String.eqb c "" || String.eqb c "." || String.eqb c "..")
  && negb (PyStr.contains "/" c).

(** The absolute path with the given components. *)
Definition rooted (l : list string) : string := "/" +:+ PyStr.join "/" l.

(** The normal form of the relative path with the given components. *)
Definition relative (l : list string) : string :=
  match l with
  | [] => "."
  | _ => PyStr.join "/" l
  end.

(** The components of the directory [p] of a store as [list_dir] and
    [iter_dir] spell them: the store directory itself is [.]. *)
Definition spelled (p : list string) : list string :=
  match p with
  | [] => ["."]
  | _ => p
  end.

(** Every entry of the file system has a proper name, as the system
    ensures. *)
Definition proper_names (f : gmap (list string) node) : Prop :=
  forall key, is_Some (f !! key) ->
              Forall (fun c => proper_name c = true) key.

(** What [_get_store_name] makes of the name of an entry: the ending
    [.gpg] is cut, whatever the entry is. *)
Definition cut_gpg (e : string) : string :=
  if PyStr.endswith ".gpg" e then PyStr.drop_last 4 e else e.

(** The entries of the directory [k] that [list_dir] lists: the
    directories that are not hidden, and the files that are not hidden
    and end in [.gpg]. *)
Definition shown_dir (f : gmap (list string) node) (k : list string)
    (e : string) : bool :=
  negb (PyStr.startswith "." e) && OS.is_dir f (k ++ [e]).
Definition shown_key (f : gmap (list string) node) (k : list string)
    (e : string) : bool :=
  negb (PyStr.startswith "." e)
  && match f !! (k ++ [e]) with Some (File _) => true | _ => false end
  && PyStr.endswith ".gpg" e.

End Clean.

Module DemoRest.

(** Any exception can stand for the plain [OSError] on the toy store. *)
Definition remove_path :=
  Removal.remove_path ValueError Demo.initialised_ok Demo.trap_ok.
Definition iter_dir := Traversal.iter_dir Demo.initialised_ok Demo.trap_ok.
Definition find := Traversal.find Demo.initialised_ok Demo.trap_ok.


(** The toy store as the directory [.], for a caller inside it. *)
Definition dot_store : Store := mkStore "." true "gpg" ["--quiet"; "--yes"].

(** The toy store with a directory whose name ends in [.gpg]. *)
Definition world_with_gpg_dir : World :=
  mkWorld (<[ ["s"; "x.gpg"] := Dir ]> Demo.files) ["home"] [] 0.

(** The toy store with one more directory, an empty one. *)
Definition world_with_empty : World :=
  mkWorld (<[ ["s"; "e"] := Dir ]> Demo.files) ["home"] [] 0.

End DemoRest.

(** * Properties *)

Ltac run := unfold bind, guard, ret, raise, get_world.

Arguments Ascii.eqb : simpl never.
Arguments String.eqb : simpl never.
Arguments PosixPath.normpath : simpl never.
Arguments PosixPath.join : simpl never.
Arguments PosixPath.split : simpl never.
Arguments PosixPath.dirname : simpl never.
Arguments OS.resolve : simpl never.
Arguments OS.lookup : simpl never.
Arguments OS.makedirs : simpl never.

(** ** The model on examples *)

Example normpath_collapses : PosixPath.normpath "a//b/./c/../d/" = "a/b/d".
Proof. reflexivity. Qed.

Example normpath_keeps_leading_dotdot : PosixPath.normpath "../x/.." = "..".
Proof. reflexivity. Qed.

Example normpath_two_slashes : PosixPath.normpath "//a/../.." = "//".
Proof. reflexivity. Qed.

Example split_key_path : PosixPath.split "/s/a/b.gpg" = ("/s/a", "b.gpg").
Proof. reflexivity. Qed.

Example split_trailing_separators : PosixPath.split "a//" = ("a", "").
Proof. reflexivity. Qed.

Example relpath_below_store :
  PosixPath.relpath "/home" "/s/./a/b.gpg" "/s" = Some "a/b.gpg".
Proof. reflexivity. Qed.

Example split_lines :
  PyStr.split PyStr.nl "old
m1
" = ["old"; "m1"; ""].
Proof. reflexivity. Qed.

Example sorted_by_code_point :
  PyStr.sorted ["b.gpg"; "a.gpg"; "a-b.gpg"; ".x"]
  = [".x"; "a-b.gpg"; "a.gpg"; "b.gpg"].
Proof. vm_compute. reflexivity. Qed.

(** A name that is no UTF-8 comes before one that is: the byte [FF] is
    read as [U+DCFF], the bytes [EE 80 80] as [U+E000]. *)
Example sorted_undecodable_name :
  PyStr.sorted
    [String "238" (String "128" (String "128" "")); String "255" ""; "z"]
  = ["z"; String "255" ""; String "238" (String "128" (String "128" ""))].
Proof. vm_compute. reflexivity. Qed.

Example lookup_through_dotdot :
  OS.lookup Demo.world "/s/d/../notes.txt" = Some (File "plain").
Proof. vm_compute. reflexivity. Qed.

Example lookup_through_file : OS.lookup Demo.world "../s/b.gpg/" = None.
Proof. vm_compute. reflexivity. Qed.

Example makedirs_creates_parents :
  let '(r, w) := OS.makedirs "/s/n/m" false Demo.world in
  r = Return tt /\ OS.isdir w "/s/n/m" = true /\ OS.isdir w "/s/n" = true.
Proof. vm_compute. auto. Qed.

Example makedirs_through_file :
  fst (OS.makedirs "/s/b.gpg/z" true Demo.world) = Raise NotADirectoryError.
Proof. vm_compute. reflexivity. Qed.

Example list_dir_of_root :
  fst (Demo.list_dir Demo.store (Some "") Demo.world)
  = Return (["d"], ["a"; "b"]).
Proof. vm_compute. reflexivity. Qed.

Example list_dir_of_subdirectory :
  fst (Demo.list_dir Demo.store (Some "d") Demo.world)
  = Return ([], ["d/x"]).
Proof. vm_compute. reflexivity. Qed.

Example init_store_new_directory :
  let '(r, w) :=
    Demo.init_store Demo.store (Some ["carol"; "dave"]) (Some "new/sub")
      Demo.world in
  r = Return tt
  /\ OS.lookup w "/s/new/sub/.gpg-id" = Some (File "carol
dave
")
  /\ git_log w
     = [GitAdd "/s/new/sub/.gpg-id" "Set GPG id to carol, dave.";
        GitAdd "/s/new/sub"
          "Reencrypt password store using new GPG id carol, dave."].
Proof. vm_compute. auto. Qed.

(** ** Strings and paths *)

Module StrFacts.
Import PyStr.

Lemma app_nil_l s : "" +:+ s = s.
Proof. reflexivity. Qed.

Lemma app_cons a s t : String a s +:+ t = String a (s +:+ t).
Proof. reflexivity. Qed.

Lemma app_nil_r s : s +:+ "" = s.
Proof. induction s as [|a s IH]; [done|]. by rewrite app_cons, IH. Qed.

Lemma app_assoc s t u : (s +:+ t) +:+ u = s +:+ t +:+ u.
Proof.
  induction s as [|a s IH]; [done|]. by rewrite !app_cons, IH.
Qed.

Lemma app_eq_nil s t : s +:+ t = "" -> s = "" /\ t = "".
Proof. destruct s; [done|]. rewrite app_cons. discriminate. Qed.

Lemma eqb_false_iff s t : String.eqb s t = false <-> s <> t.
Proof. apply String.eqb_neq. Qed.

Lemma split_nonempty c s : split c s <> [].
Proof.
  destruct s as [|a s]; simpl; [done|].
  destruct (Ascii.eqb a c); [done|]. by destruct (split c s).
Qed.

Lemma split_no_sep c s : contains c s = false -> split c s = [s].
Proof.
  induction s as [|a s IH]; simpl; [done|].
  destruct (Ascii.eqb a c); simpl; [done|].
  intros H. by rewrite (IH H).
Qed.

(** [(a + c + b).split(c) == a.split(c) + b.split(c)] *)
Lemma split_app_sep c a b :
  split c (a +:+ String c b) = split c a ++ split c b.
Proof.
  induction a as [|x a IH].
  - rewrite app_nil_l. simpl. by rewrite Ascii.eqb_refl.
  - rewrite app_cons. simpl. destruct (Ascii.eqb x c); [by rewrite IH|].
    rewrite IH. pose proof (split_nonempty c a).
    by destruct (split c a).
Qed.

(** The items of a split hold no separator. *)
Lemma split_items c s x : x ∈ split c s -> contains c x = false.
Proof.
  revert x. induction s as [|a s IH]; simpl; intros x Hx.
  - apply list_elem_of_singleton in Hx as ->. done.
  - destruct (Ascii.eqb a c) eqn:Ha.
    + apply elem_of_cons in Hx as [-> | Hx]; [done | by apply IH].
    + pose proof (split_nonempty c s).
      destruct (split c s) as [|h t] eqn:Hs; [done|].
      apply elem_of_cons in Hx as [-> | Hx].
      * simpl. rewrite Ha. apply IH. by left.
      * apply IH. by right.
Qed.

Lemma join_cons c x y l : join c (x :: y :: l) = x +:+ c +:+ join c (y :: l).
Proof. reflexivity. Qed.

(** [c.join(l).split(c) == l] when no item of the non-empty [l] holds [c] *)
Lemma split_join c l :
  l <> [] -> Forall (fun x => contains c x = false) l ->
  split c (join (String c "") l) = l.
Proof.
  induction l as [|x l IH]; [done|]. intros _ Hl.
  apply Forall_cons in Hl as [Hx Hl].
  destruct l as [|y l].
  - simpl. by apply split_no_sep.
  - rewrite join_cons, app_cons, app_nil_l, split_app_sep.
    rewrite (split_no_sep _ _ Hx), IH; done.
Qed.

Lemma split_fill c n : split c (fill n c) = replicate (S n) "".
Proof.
  induction n as [|n IH]; simpl; [done|]. by rewrite Ascii.eqb_refl, IH.
Qed.

Lemma split_app_fill c s n :
  split c (s +:+ fill (S n) c) = split c s ++ replicate (S n) "".
Proof. simpl fill. by rewrite split_app_sep, split_fill. Qed.

Lemma rstrip_fill c s : exists n, s = rstrip c s +:+ fill n c.
Proof.
  induction s as [|a s [n IH]]; simpl.
  - by exists 0.
  - destruct (String.eqb (rstrip c s) "") eqn:Hr; simpl.
    + apply String.eqb_eq in Hr. rewrite Hr, app_nil_l in IH.
      destruct (Ascii.eqb a c) eqn:Ha.
      * apply Ascii.eqb_eq in Ha as ->. exists (S n). simpl.
        by rewrite app_nil_l, <- IH.
      * exists n. by rewrite Hr, app_cons, app_nil_l, <- IH.
    + exists n. by rewrite app_cons, <- IH.
Qed.

Lemma startswith_sep_inv s :
  startswith "/" s = true -> exists s', s = String sep s'.
Proof.
  destruct s as [|a s]; simpl; [done|].
  destruct (Ascii.eqb "/" a) eqn:Ha; [|done].
  apply Ascii.eqb_eq in Ha as <-. by exists s.
Qed.

Lemma startswith_sep_app s t :
  s <> "" -> startswith "/" (s +:+ t) = startswith "/" s.
Proof. destruct s as [|a s]; [done|]. intros _. by rewrite app_cons. Qed.

End StrFacts.

Module PathFacts.
Import PyStr StrFacts.

(** [rsplit] cuts after the last separator. *)
Lemma rsplit_spec p :
  let '(h, t) := PosixPath.rsplit p in
  p = h +:+ t /\ contains sep t = false
  /\ (h = "" \/ exists h0, h = h0 +:+ "/").
Proof.
  induction p as [|a p IH]; simpl.
  - split; [done|]. split; [done|]. by left.
  - destruct (PosixPath.rsplit p) as [h t].
    destruct IH as (Hp & Ht & Hh).
    destruct (String.eqb h "") eqn:He.
    + apply String.eqb_eq in He. subst h. rewrite app_nil_l in Hp. subst t.
      destruct (Ascii.eqb a sep) eqn:Ha.
      * apply Ascii.eqb_eq in Ha as ->. split; [done|]. split; [done|].
        right. by exists "".
      * split; [done|]. split; [by simpl; rewrite Ha|]. by left.
    + split; [by rewrite app_cons, <- Hp|]. split; [done|]. right.
      destruct Hh as [-> | [h0 ->]]; [done|].
      exists (String a h0). by rewrite app_cons.
Qed.

Lemma walk_app f cur l1 l2 :
  OS.walk f cur (l1 ++ l2)
  = match OS.walk f cur l1 with
    | Return k => OS.walk f k l2
    | Raise e => Raise e
    end.
Proof.
  revert cur. induction l1 as [|c l1 IH]; intros cur; simpl; [done|].
  destruct (f !! cur) as [[]|]; [done| |done].
  destruct (String.eqb c "" || String.eqb c "."); [apply IH|].
  destruct (String.eqb c ".."); apply IH.
Qed.

(** Resolution only looks at which paths are directories. *)
Lemma walk_mono f f' cur l k :
  (forall x, f !! x = Some Dir -> f' !! x = Some Dir) ->
  OS.walk f cur l = Return k -> OS.walk f' cur l = Return k.
Proof.
  intros Hd. revert cur. induction l as [|c l IH]; intros cur; simpl; [done|].
  destruct (f !! cur) as [[]|] eqn:Hc; [done| |done].
  rewrite (Hd _ Hc).
  destruct (String.eqb c "" || String.eqb c "."); [apply IH|].
  destruct (String.eqb c ".."); apply IH.
Qed.

Lemma walk_empties f cur n k :
  OS.walk f cur (replicate n "") = Return k -> k = cur.
Proof.
  induction n as [|n IH]; simpl; [congruence|].
  destruct (f !! cur) as [[]|]; [done| |done]. apply IH.
Qed.

(** A walk that took a step started in a directory. *)
Lemma walk_start_dir f cur l k :
  l <> [] -> OS.walk f cur l = Return k -> f !! cur = Some Dir.
Proof.
  destruct l as [|c l]; [done|]. intros _. simpl.
  by destruct (f !! cur) as [[]|].
Qed.

Lemma resolve_walk w p :
  p <> "" ->
  OS.resolve w p = OS.walk (fs w) (OS.start w p) (split sep p).
Proof.
  intros Hp. unfold OS.resolve.
  apply eqb_false_iff in Hp. by rewrite Hp.
Qed.

Lemma resolve_nonempty w p k : OS.resolve w p = Return k -> p <> "".
Proof. unfold OS.resolve. by intros H ->. Qed.

Lemma start_app w p q : p <> "" -> OS.start w (p +:+ q) = OS.start w p.
Proof.
  intros Hp. unfold OS.start, PosixPath.isabs.
  by rewrite startswith_sep_app.
Qed.

(** Trailing separators do not change what an existing path names. *)
Lemma resolve_rstrip w p k :
  OS.resolve w p = Return k -> rstrip sep p <> "" ->
  OS.resolve w (rstrip sep p) = Return k.
Proof.
  intros Hr Hs. pose proof (resolve_nonempty _ _ _ Hr) as Hp.
  rewrite resolve_walk in Hr by done. rewrite resolve_walk by done.
  destruct (rstrip_fill sep p) as [n Hn].
  remember (rstrip sep p) as r eqn:Er. clear Er Hp. subst p.
  destruct n as [|n].
  - by rewrite app_nil_r in Hr.
  - rewrite split_app_fill, walk_app, start_app in Hr by done.
    destruct (OS.walk _ _ (split sep r)) as [k'|]; [|done].
    by apply walk_empties in Hr as ->.
Qed.

(** The directory part of a path that resolves is a directory, and the
    path is its entry [tail]. *)
Lemma resolve_parent w p k head tail :
  OS.resolve w p = Return k ->
  PosixPath.split p = (head, tail) ->
  head <> "" ->
  exists k0, OS.resolve w head = Return k0
             /\ fs w !! k0 = Some Dir
             /\ OS.walk (fs w) k0 [tail] = Return k.
Proof.
  intros Hr Hs Hh. pose proof (resolve_nonempty _ _ _ Hr) as Hp.
  unfold PosixPath.split in Hs. pose proof (rsplit_spec p) as Hrs.
  destruct (PosixPath.rsplit p) as [h t].
  destruct Hrs as (Hpe & Ht & Hh0). injection Hs as Hhead <-.
  destruct Hh0 as [-> | [h0 ->]].
  { simpl in Hhead. by subst head. }
  rewrite resolve_walk in Hr by done.
  assert (Hsp : split sep p = split sep h0 ++ [t]).
  { rewrite Hpe, app_assoc, app_cons, app_nil_l, split_app_sep.
    by rewrite (split_no_sep _ _ Ht). }
  rewrite Hsp, walk_app in Hr.
  destruct (OS.walk (fs w) (OS.start w p) (split sep h0)) as [k0|] eqn:Hw0;
    [|done].
  assert (Hk0 : fs w !! k0 = Some Dir)
    by (by apply (walk_start_dir _ _ [t] k)).
  assert (Hstart : OS.start w p = OS.start w (h0 +:+ "/")).
  { rewrite Hpe. apply start_app. by destruct h0. }
  exists k0. split; [|done].
  assert (Hfull : OS.resolve w (h0 +:+ "/") = Return k0).
  { rewrite resolve_walk by by destruct h0.
    rewrite <- Hstart.
    change "/" with (String sep ""). rewrite split_app_sep, walk_app, Hw0.
    simpl. by rewrite Hk0. }
  destruct (String.eqb (rstrip sep (h0 +:+ "/")) "") eqn:He.
  - by subst head.
  - subst head. apply resolve_rstrip; [done|]. by apply eqb_false_iff.
Qed.

Lemma exists_lookup w p :
  OS.exists_ w p = true <-> exists n, OS.lookup w p = Some n.
Proof.
  unfold OS.exists_. rewrite bool_decide_eq_true. unfold is_Some. done.
Qed.

Lemma lookup_resolve w p n :
  OS.lookup w p = Some n <->
  exists k, OS.resolve w p = Return k /\ fs w !! k = Some n.
Proof.
  unfold OS.lookup. destruct (OS.resolve w p) as [k|e].
  - split; [by exists k|]. by intros (k' & [= <-] & ?).
  - split; [done|]. by intros (k' & ? & ?).
Qed.

Lemma exists_parent w p head tail :
  OS.exists_ w p = true -> PosixPath.split p = (head, tail) ->
  head <> "" -> OS.exists_ w head = true.
Proof.
  intros [n [k [Hr Hk]]%lookup_resolve]%exists_lookup Hs Hh.
  destruct (resolve_parent _ _ _ _ _ Hr Hs Hh) as (k0 & Hr0 & Hk0 & _).
  apply exists_lookup. exists Dir. apply lookup_resolve. by exists k0.
Qed.

Lemma isdir_parent w p k head tail :
  OS.resolve w p = Return k -> PosixPath.split p = (head, tail) ->
  head <> "" -> OS.isdir w head = true.
Proof.
  intros Hr Hs Hh.
  destruct (resolve_parent _ _ _ _ _ Hr Hs Hh) as (k0 & Hr0 & Hk0 & _).
  unfold OS.isdir.
  assert (OS.lookup w head = Some Dir) as ->; [|done].
  apply lookup_resolve. by exists k0.
Qed.

Lemma isabs_join a b :
  PosixPath.isabs a = true -> PosixPath.isabs (PosixPath.join a b) = true.
Proof.
  unfold PosixPath.isabs, PosixPath.join. intros Ha.
  destruct (startswith "/" b) eqn:Hb; [done|].
  assert (a <> "") by by intros ->.
  destruct (String.eqb a "" || endswith "/" a);
    by rewrite startswith_sep_app.
Qed.

Lemma join_abs a b : PosixPath.isabs b = true -> PosixPath.join a b = b.
Proof. unfold PosixPath.isabs, PosixPath.join. by intros ->. Qed.

Lemma isabs_dirname p :
  PosixPath.isabs p = true -> PosixPath.isabs (PosixPath.dirname p) = true.
Proof.
  unfold PosixPath.isabs, PosixPath.dirname, PosixPath.split. intros Hp.
  pose proof (rsplit_spec p) as Hrs.
  destruct (PosixPath.rsplit p) as [h t]. destruct Hrs as (Hpe & Ht & Hh).
  assert (Hhne : h <> "").
  { intros ->. rewrite app_nil_l in Hpe. subst t.
    apply startswith_sep_inv in Hp as [p' ->]. simpl in Ht.
    by rewrite ?Ascii.eqb_refl in Ht. }
  assert (Hha : startswith "/" h = true).
  { rewrite Hpe in Hp. by rewrite startswith_sep_app in Hp. }
  simpl. destruct (String.eqb (rstrip sep h) "") eqn:He; [done|].
  apply eqb_false_iff in He.
  destruct (rstrip_fill sep h) as [n Hn]. rewrite Hn in Hha.
  by rewrite startswith_sep_app in Hha.
Qed.

Lemma normpath_nonempty p : PosixPath.normpath p <> "".
Proof.
  unfold PosixPath.normpath. destruct (String.eqb p ""); [done|].
  match goal with
  | |- (if String.eqb ?x "" then _ else _) <> _ =>
      destruct (String.eqb x "") eqn:He; [done | by apply eqb_false_iff]
  end.
Qed.

Lemma join_nonempty_l a b : a <> "" -> PosixPath.join a b <> "".
Proof.
  intros Ha. unfold PosixPath.join.
  destruct (startswith "/" b) eqn:Hb; [by intros -> |].
  destruct (String.eqb a "" || endswith "/" a);
    by intros [? ?]%app_eq_nil.
Qed.

Lemma join_nonempty_r a b : b <> "" -> PosixPath.join a b <> "".
Proof.
  intros Hb. unfold PosixPath.join.
  destruct (startswith "/" b); [done|].
  destruct (String.eqb a "" || endswith "/" a).
  - by intros [? ?]%app_eq_nil.
  - intros [? [? ?]%app_eq_nil]%app_eq_nil. done.
Qed.

Lemma endswith_sep_no_sep s :
  contains sep s = false -> endswith "/" s = false.
Proof.
  induction s as [|a s IH]; [done|]. cbn [contains endswith].
  intros [Ha Hs]%orb_false_iff. rewrite (IH Hs), orb_false_r.
  apply eqb_false_iff. intros [= -> ->]. by rewrite Ascii.eqb_refl in Ha.
Qed.

Lemma endswith_sep_app s t :
  t <> "" -> endswith "/" (s +:+ t) = endswith "/" t.
Proof.
  intros Ht. induction s as [|a s IH]; [done|].
  rewrite app_cons. cbn [endswith]. rewrite IH.
  assert (String.eqb (String a (s +:+ t)) "/" = false) as ->; [|done].
  apply eqb_false_iff. intros [= _ [_ ?]%app_eq_nil]. done.
Qed.

(** What [normpath] keeps of the components is not empty. *)
Lemma normpath_comps_items b acc l x :
  x ∈ PosixPath.normpath_comps b acc l -> x ∈ acc \/ (x ∈ l /\ x <> "").
Proof.
  revert acc. induction l as [|c l IH]; intros acc; cbn [PosixPath.normpath_comps].
  - intros Hx%list_elem_of_In%in_rev. left. by apply list_elem_of_In.
  - destruct (String.eqb c "" || String.eqb c ".") eqn:Hc.
    { intros [?|[? ?]]%IH; [by left | right; split; [by right | done]]. }
    apply orb_false_iff in Hc as [Hc%eqb_false_iff _].
    match goal with
    | |- context [if ?t then _ else _] => destruct t
    end.
    + intros [[->|?]%elem_of_cons|[? ?]]%IH.
      * right. split; [by left | done].
      * by left.
      * right. split; [by right | done].
    + intros [Hx|[? ?]]%IH.
      * left. destruct acc; [done | by right].
      * right. split; [by right | done].
Qed.

Lemma join_comps_end l :
  Forall (fun x => x <> "" /\ contains sep x = false) l ->
  endswith "/" (PyStr.join "/" l) = false
  /\ (l <> [] -> PyStr.join "/" l <> "").
Proof.
  induction 1 as [|x l [Hx Hs] Hl [IHe IHn]]; [done|].
  destruct l as [|y l].
  - split; [by apply endswith_sep_no_sep | done].
  - rewrite join_cons, <- app_assoc. split.
    + by rewrite endswith_sep_app by by apply IHn.
    + intros _ [[? ?]%app_eq_nil ?]%app_eq_nil. done.
Qed.

(** Only the roots [/] and [//] come out of [normpath] with a separator
    at the end. *)
Lemma normpath_endswith_sep p :
  endswith "/" (PosixPath.normpath p) = true ->
  PosixPath.normpath p = "/" \/ PosixPath.normpath p = "//".
Proof.
  unfold PosixPath.normpath. destruct (String.eqb p ""); [done|].
  set (n := if startswith "/" p then _ else _).
  set (comps := PosixPath.normpath_comps _ [] (split sep p)).
  assert (Hc : Forall (fun x => x <> "" /\ contains sep x = false) comps).
  { apply Forall_forall. intros x [Hx|[Hx Hne]]%normpath_comps_items.
    - by apply elem_of_nil in Hx.
    - split; [done | by apply (split_items _ p)]. }
  destruct (join_comps_end comps Hc) as [He Hn].
  destruct (decide (comps = [])) as [->|Hne].
  - destruct n as [|[|n]]; simpl; auto. discriminate.
  - specialize (Hn Hne).
    assert (Hpre : forall pre,
      endswith "/" (pre +:+ PyStr.join "/" comps) = false
      /\ String.eqb (pre +:+ PyStr.join "/" comps) "" = false).
    { intros pre. split; [by rewrite endswith_sep_app|].
      apply eqb_false_iff. by intros [? ?]%app_eq_nil. }
    destruct n as [|[|n]].
    + destruct (Hpre "") as [H1 H2]. rewrite app_nil_l in H1, H2.
      rewrite H2. by rewrite H1.
    + destruct (Hpre "/") as [H1 H2]. rewrite H2. by rewrite H1.
    + destruct (Hpre "//") as [H1 H2]. rewrite H2. by rewrite H1.
Qed.

Lemma join_endswith_sep a b :
  b <> "" -> endswith "/" (PosixPath.join a b) = endswith "/" b.
Proof.
  intros Hb. unfold PosixPath.join. destruct (startswith "/" b); [done|].
  destruct (String.eqb a "" || endswith "/" a).
  - by apply endswith_sep_app.
  - rewrite <- app_assoc. by apply endswith_sep_app.
Qed.

Lemma rsplit_no_sep s :
  contains sep s = false -> PosixPath.rsplit s = ("", s).
Proof.
  induction s as [|a s IH]; [done|]. cbn [contains PosixPath.rsplit].
  intros [Ha Hs]%orb_false_iff. by rewrite (IH Hs), String.eqb_refl, Ha.
Qed.

(** A suffix without separator stays in the last component. *)
Lemma rsplit_app s t :
  contains sep t = false ->
  PosixPath.rsplit (s +:+ t)
  = (fst (PosixPath.rsplit s), snd (PosixPath.rsplit s) +:+ t).
Proof.
  intros Ht. induction s as [|a s IH].
  - by rewrite app_nil_l, rsplit_no_sep.
  - rewrite app_cons. cbn [PosixPath.rsplit]. rewrite IH.
    destruct (PosixPath.rsplit s) as [h t0] eqn:Hs. cbn [fst snd].
    pose proof (rsplit_spec s) as Hsp. rewrite Hs in Hsp.
    destruct Hsp as (Hse & _ & _).
    destruct (String.eqb h "") eqn:Hh; [|done].
    apply String.eqb_eq in Hh. subst h. rewrite app_nil_l in Hse. subst t0.
    by destruct (Ascii.eqb a sep).
Qed.

Lemma proper_leaf_suffix s : OS.proper_leaf (s +:+ ".gpg") = true.
Proof.
  unfold OS.proper_leaf. rewrite rsplit_app by done. cbn [snd].
  destruct (snd (PosixPath.rsplit s)) as [|a [|b [|c t]]]; try done.
  - rewrite !app_cons, app_nil_l.
    by destruct (Ascii.eqb a ".") eqn:Ha; unfold String.eqb; rewrite ?Ha.
  - rewrite !app_cons, app_nil_l. unfold String.eqb. cbn.
    by destruct (Ascii.eqb a "."), (Ascii.eqb b ".").
  - rewrite !app_cons. unfold String.eqb. cbn.
    destruct (Ascii.eqb a "."), (Ascii.eqb b "."); try done.
Qed.

(** The file of a key is named after the key, with [.gpg] at the end. *)
Lemma join_suffix a b t : exists s, PosixPath.join a (b +:+ t) = s +:+ t.
Proof.
  unfold PosixPath.join. destruct (startswith "/" (b +:+ t)); [by exists b|].
  destruct (String.eqb a "" || endswith "/" a).
  - exists (a +:+ b). by rewrite app_assoc.
  - exists (a +:+ "/" +:+ b). by rewrite !app_assoc.
Qed.

Lemma isabs_nonempty p : PosixPath.isabs p = true -> p <> "".
Proof. by intros H ->. Qed.

End PathFacts.

(** ** File-system operations *)

Module OSFacts.
Import PyStr StrFacts PathFacts.

Lemma mkdir_existing w name :
  OS.exists_ w name = true -> OS.mkdir name w = (Raise FileExistsError, w).
Proof.
  intros [n [k [Hr Hk]]%lookup_resolve]%exists_lookup.
  pose proof (resolve_nonempty _ _ _ Hr) as Hp.
  unfold OS.mkdir. apply eqb_false_iff in Hp. rewrite Hp.
  destruct (String.eqb (rstrip sep name) "") eqn:He; [done|].
  apply eqb_false_iff in He.
  by rewrite (resolve_rstrip _ _ _ Hr He), Hk.
Qed.

(** On a path that exists [os.makedirs] creates nothing: it returns when
    the path is a directory and [exist_ok] is set, and raises
    [FileExistsError] otherwise. *)
Lemma makedirs_existing w name exist_ok :
  OS.exists_ w name = true ->
  OS.makedirs name exist_ok w
  = (if exist_ok && OS.isdir w name then Return tt
     else Raise FileExistsError, w).
Proof.
  intros Hex. unfold OS.makedirs. cbn [OS.makedirs_rec].
  destruct (PosixPath.split name) as [head tail] eqn:Hs.
  assert (Hskip : forall h t,
    (if String.eqb tail "" then PosixPath.split head else (head, tail))
    = (h, t) ->
    PosixPath.nonempty h && PosixPath.nonempty t && negb (OS.exists_ w h)
    = false).
  { intros h t Hht.
    destruct (PosixPath.nonempty h) eqn:Hh; [|done].
    destruct (PosixPath.nonempty t) eqn:Ht; [|done]. simpl.
    apply negb_true_iff, eqb_false_iff in Hh, Ht.
    destruct (String.eqb tail "") eqn:Htl.
    - destruct (String.eqb head "") eqn:Hhd.
      { apply String.eqb_eq in Hhd. subst head. by injection Hht as <- <-. }
      apply eqb_false_iff in Hhd.
      pose proof (exists_parent _ _ _ _ Hex Hs Hhd) as Hex1.
      by rewrite (exists_parent _ _ _ _ Hex1 Hht Hh).
    - injection Hht as <- <-. by rewrite (exists_parent _ _ _ _ Hex Hs Hh). }
  destruct (if String.eqb tail "" then PosixPath.split head
            else (head, tail)) as [h t].
  rewrite (Hskip h t eq_refl), (mkdir_existing _ _ Hex).
  by destruct exist_ok, (OS.isdir w name).
Qed.

(** The directory of an absolute path that resolves is there already. *)
Lemma makedirs_dirname_existing w a p k :
  PosixPath.isabs p = true -> OS.resolve w p = Return k ->
  OS.makedirs (PosixPath.join a (PosixPath.dirname p)) true w
  = (Return tt, w).
Proof.
  intros Hp Hex.
  pose proof (isabs_dirname _ Hp) as Hd. rewrite (join_abs _ _ Hd).
  pose proof (isabs_nonempty _ Hd) as Hne.
  assert (Hdir : OS.isdir w (PosixPath.dirname p) = true).
  { unfold PosixPath.dirname in *.
    destruct (PosixPath.split p) as [head tail] eqn:Hs.
    by apply (isdir_parent w p k head tail). }
  rewrite makedirs_existing.
  - by rewrite Hdir.
  - apply exists_lookup. exists Dir. unfold OS.isdir in Hdir.
    by destruct (OS.lookup w _) as [[]|].
Qed.

Lemma write_file_inv p data w w' :
  OS.write_file p data w = (Return tt, w') ->
  exists k, OS.resolve w p = Return k
            /\ fs w !! k <> Some Dir
            /\ w' = mkWorld (<[k := File data]> (fs w)) (cwd w)
                            (git_log w) (entropy w).
Proof.
  unfold OS.write_file, set_fs.
  destruct (OS.resolve w p) as [k|e]; [|done].
  destruct (fs w !! k) as [[d|]|] eqn:Hk; [|done|].
  - intros [= <-]. exists k. by rewrite Hk.
  - destruct (OS.proper_leaf p); [|done].
    intros [= <-]. exists k. by rewrite Hk.
Qed.

(** Resolution is the same in two worlds with the same directories and
    working directory. *)
Lemma resolve_mono w w' p k :
  cwd w' = cwd w ->
  (forall x, fs w !! x = Some Dir -> fs w' !! x = Some Dir) ->
  OS.resolve w p = Return k -> OS.resolve w' p = Return k.
Proof.
  intros Hc Hd. unfold OS.resolve, OS.start.
  destruct (String.eqb p ""); [done|]. rewrite Hc. by apply walk_mono.
Qed.

(** A file that was written is there to be read, under the same name. *)
Lemma lookup_written p data w w' :
  OS.write_file p data w = (Return tt, w') ->
  OS.lookup w' p = Some (File data).
Proof.
  intros (k & Hr & Hk & ->)%write_file_inv.
  apply lookup_resolve. exists k. split.
  - apply (resolve_mono w); [done| |done]. simpl. intros x Hx.
    rewrite lookup_insert_ne; [done|]. intros <-. congruence.
  - simpl. apply lookup_insert_eq.
Qed.

Lemma lookup_same_files w w' p :
  fs w' = fs w -> cwd w' = cwd w -> OS.lookup w' p = OS.lookup w p.
Proof.
  intros Hf Hc. unfold OS.lookup, OS.resolve, OS.start. by rewrite Hf, Hc.
Qed.

Lemma child_of_spec k k' n : OS.child_of k k' = Some n <-> k' = k ++ [n].
Proof.
  revert k'. induction k as [|x k IH]; intros k'; simpl.
  - destruct k' as [|y [|z k']]; split; intros H; by simplify_eq.
  - destruct k' as [|y k']; [split; intros H; by simplify_eq|].
    destruct (String.eqb x y) eqn:Hxy.
    + apply String.eqb_eq in Hxy as ->. rewrite IH.
      split; intros H; by simplify_eq.
    + apply eqb_false_iff in Hxy. split; intros H; by simplify_eq.
Qed.

(** [os.listdir] reports exactly the entries of the directory. *)
Lemma entries_spec f k n : n ∈ OS.entries f k <-> is_Some (f !! (k ++ [n])).
Proof.
  unfold OS.entries. rewrite list_elem_of_omap. split.
  - intros ([k' v] & Hin & Hc). apply elem_of_map_to_list in Hin.
    apply child_of_spec in Hc. simpl in Hc. subst k'. by exists v.
  - intros [v Hv]. exists (k ++ [n], v). split.
    + by apply elem_of_map_to_list.
    + by apply child_of_spec.
Qed.

Lemma StronglySorted_filter {A} (R : relation A) (P : A -> Prop)
    `{!forall x, Decision (P x)} l :
  StronglySorted R l -> StronglySorted R (filter P l).
Proof.
  induction 1 as [|x l Hl IH Hx]; [constructor|].
  rewrite filter_cons. destruct (decide (P x)); [|done].
  constructor; [done|]. apply Forall_forall. intros y Hy.
  apply list_elem_of_filter in Hy as [_ Hy].
  by apply (proj1 (Forall_forall _ _) Hx).
Qed.

Lemma cp_leb_refl x : cp_leb x x = true.
Proof.
  induction x as [|c x IH]; cbn [cp_leb]; [done|].
  by rewrite N.eqb_refl, IH, orb_true_r.
Qed.

Lemma cp_leb_cons c x d y :
  cp_leb (c :: x) (d :: y) = true <->
  (c < d)%N \/ c = d /\ cp_leb x y = true.
Proof.
  cbn [cp_leb]. by rewrite orb_true_iff, andb_true_iff, N.ltb_lt, N.eqb_eq.
Qed.

Lemma cp_leb_total x y : cp_leb x y = true \/ cp_leb y x = true.
Proof.
  revert y. induction x as [|c x IH]; intros [|d y]; try by (left + right).
  rewrite !cp_leb_cons.
  destruct (N.lt_trichotomy c d) as [?|[->|?]]; [by left; left| |by right; left].
  destruct (IH y); [left | right]; by right.
Qed.

Lemma cp_leb_trans x y z :
  cp_leb x y = true -> cp_leb y z = true -> cp_leb x z = true.
Proof.
  revert y z. induction x as [|c x IH]; intros [|d y] [|e z]; try done.
  rewrite !cp_leb_cons. intros [?|[-> Hxy]] [?|[-> Hyz]]; try lia.
  right. split; [done|]. by apply (IH y).
Qed.

Lemma cp_leb_antisym x y :
  cp_leb x y = true -> cp_leb y x = true -> x = y.
Proof.
  revert y. induction x as [|c x IH]; intros [|d y]; try done.
  rewrite !cp_leb_cons. intros [?|[? Hxy]] [?|[? Hyx]]; try lia.
  subst. f_equal. by apply IH.
Qed.

Lemma N_of_ascii_inj a b : N_of_ascii a = N_of_ascii b -> a = b.
Proof.
  intros H. by rewrite <- (ascii_N_embedding a), H, ascii_N_embedding.
Qed.

(** Decoding takes the encoding of one code point off the front. *)
Lemma code_points_cons a0 s :
  exists c pre r,
    String a0 s = pre +:+ r /\ encodes c pre
    /\ code_points (String a0 s) = c :: code_points r.
Proof.
  assert (Hesc : (N_of_ascii a0 <? 128)%N = false ->
                 exists c pre r,
                   String a0 s = pre +:+ r /\ encodes c pre
                   /\ (56320 + N_of_ascii a0)%N :: code_points s
                      = c :: code_points r).
  { intros H%N.ltb_ge. eexists _, (String a0 ""), s.
    split; [done|]. split; [by apply enc_escape | done]. }
  cbn [code_points]. destruct (N_of_ascii a0 <? 128)%N eqn:H0.
  { apply N.ltb_lt in H0. eexists _, (String a0 ""), s.
    split; [done|]. split; [by apply enc_ascii | done]. }
  destruct s as [|a1 s]; [by apply Hesc|].
  destruct (two_bytes _ _) eqn:H2.
  { eexists _, (String a0 (String a1 "")), s.
    split; [done|]. split; [by apply enc_two | done]. }
  destruct s as [|a2 s]; [by apply Hesc|].
  destruct (three_bytes _ _ _) eqn:H3.
  { eexists _, (String a0 (String a1 (String a2 ""))), s.
    split; [done|]. split; [by apply enc_three | done]. }
  destruct s as [|a3 s]; [by apply Hesc|].
  destruct (four_bytes _ _ _ _) eqn:H4; [|by apply Hesc].
  eexists _, (String a0 (String a1 (String a2 (String a3 "")))), s.
  split; [done|]. split; [by apply enc_four | done].
Qed.

Ltac byte_facts :=
  unfold two_bytes, three_bytes, four_bytes, cont in *;
  repeat match goal with
         | H : _ = true |- _ =>
             repeat first [ rewrite andb_true_iff in H
                          | rewrite orb_true_iff in H
                          | rewrite N.leb_le in H
                          | rewrite N.eqb_eq in H ];
             revert H
         end;
  intros;
  repeat match goal with
         | a : ascii |- _ =>
             lazymatch goal with
             | H : (N_of_ascii a < 256)%N |- _ => fail
             | _ => pose proof (N_ascii_bounded a)
             end
         end.

(** A code point has one encoding: the ranges of the five forms do not
    meet. *)
Lemma encodes_inj c p q : encodes c p -> encodes c q -> p = q.
Proof.
  intros Hp Hq. destruct Hp; inversion Hq; subst;
    first
      [ exfalso; byte_facts; lia
      | repeat (f_equal; try (apply N_of_ascii_inj; byte_facts; lia)) ].
Qed.

Lemma code_points_inj s t : code_points s = code_points t -> s = t.
Proof.
  remember (code_points s) as l eqn:Hs. revert s t Hs.
  induction l as [|c l IH]; intros s t Hs Ht.
  - destruct s as [|a0 s]; [|by destruct (code_points_cons a0 s)
                                  as (? & ? & ? & _ & _ & ?); congruence].
    destruct t as [|b0 t]; [done|].
    destruct (code_points_cons b0 t) as (? & ? & ? & _ & _ & ?). congruence.
  - destruct s as [|a0 s]; [done|]. destruct t as [|b0 t]; [done|].
    destruct (code_points_cons a0 s) as (c1 & p1 & r1 & E1 & He1 & H1).
    destruct (code_points_cons b0 t) as (c2 & p2 & r2 & E2 & He2 & H2).
    rewrite H1 in Hs. rewrite H2 in Ht. rewrite E1, E2.
    injection Hs as -> Hl. injection Ht as <- Hr.
    rewrite (encodes_inj _ _ _ He1 He2). f_equal. apply IH; congruence.
Qed.

Lemma str_le_antisym s t : str_le s t -> str_le t s -> s = t.
Proof.
  unfold str_le. rewrite !Is_true_true. intros H1 H2.
  apply code_points_inj. by apply cp_leb_antisym.
Qed.

#[global] Instance str_le_trans : Transitive str_le.
Proof.
  intros s t u. unfold str_le. rewrite !Is_true_true. apply cp_leb_trans.
Qed.

#[global] Instance str_le_total : Total str_le.
Proof.
  intros s t. unfold str_le. rewrite !Is_true_true. apply cp_leb_total.
Qed.

Lemma sorted_spec l :
  StronglySorted str_le (sorted l) /\ sorted l ≡ₚ l.
Proof.
  split; [apply (StronglySorted_merge_sort _) | apply merge_sort_Permutation].
Qed.

End OSFacts.

Section Properties.

Variable encrypt : list string -> string -> string.
Variable decrypt : string -> option string.
Variable _gen_password : nat -> Z -> bool -> string.
Variable initialised_ok : Store -> World -> bool.
Variable trap_ok : Store -> option string -> World -> bool.

Import Methods.

Local Abbreviation get_key :=
  (Methods.get_key decrypt initialised_ok trap_ok).
Local Abbreviation set_key :=
  (Methods.set_key encrypt initialised_ok trap_ok).
Local Abbreviation gen_key :=
  (Methods.gen_key encrypt decrypt _gen_password initialised_ok trap_ok).
Local Abbreviation init_store :=
  (Methods.init_store encrypt decrypt trap_ok).
Local Abbreviation list_dir :=
  (Methods.list_dir initialised_ok trap_ok).

Import PathFacts OSFacts.

Lemma git_add_files st path msg w :
  exists w', _git_add_path st path msg w = (Return tt, w')
             /\ fs w' = fs w /\ cwd w' = cwd w /\ entropy w' = entropy w.
Proof. unfold _git_add_path. destruct (repo st); by eexists. Qed.

Lemma write_key_inv st key_path data w w' :
  _write_key encrypt st key_path data w = (Return tt, w') ->
  exists ids, OS.write_file key_path (encrypt ids data) w = (Return tt, w').
Proof.
  unfold _write_key. destruct (OS.resolve w key_path) as [k|]; [|done].
  destruct (effective_identities _ _) as [ids|]; [|done]. by exists ids.
Qed.

Lemma get_key_of_present st w name payload data :
  initialised_ok st w = true ->
  trap_ok st (Some name) w = true ->
  name <> "" ->
  OS.lookup w (key_path_of st name) = Some (File payload) ->
  decrypt payload = Some data ->
  get_key st (Some name) w = (Return (Some data), w).
Proof.
  intros Hi Ht Hne Hl Hd. unfold Methods.get_key. run. rewrite Hi, Ht.
  destruct name as [|a name]; [congruence|].
  unfold key_path_of in Hl. unfold OS.isfile, _read_key, OS.read_file. run.
  rewrite !Hl. rewrite Hd. reflexivity.
Qed.

Lemma set_key_inv st w w' name key_data force :
  name <> "" ->
  set_key st (Some name) key_data force w = (Return tt, w') ->
  let key_path := key_path_of st name in
  (OS.exists_ w key_path = false \/ force = true)
  /\ exists ids w1 w2 r,
       OS.makedirs
         (PosixPath.join (store_dir st) (PosixPath.dirname key_path))
         true w = (r, w1)
       /\ OS.write_file key_path (encrypt ids key_data) w1 = (Return tt, w2)
       /\ fs w' = fs w2 /\ cwd w' = cwd w2.
Proof.
  intros Hne. unfold Methods.set_key. run.
  destruct (initialised_ok st w); [|done].
  destruct (trap_ok st (Some name) w); [|done].
  destruct name as [|a name]; [congruence|]. fold (key_path_of st (String a name)).
  set (key_path := key_path_of st (String a name)).
  destruct (OS.exists_ w key_path && negb force) eqn:Hex; [done|].
  destruct (OS.makedirs _ true w) as [[[]|e] w1] eqn:Hmk; [|done].
  destruct (_write_key encrypt st key_path key_data w1) as [[[]|e] w2] eqn:Hwr;
    [|done].
  destruct (git_add_files st key_path
              ("Add given password for "
               +:+ PosixPath.normpath (String a name) +:+ " to store.") w2)
    as (w3 & -> & Hf & Hc & _).
  intros [= <-]. simpl. split.
  - destruct (OS.exists_ w key_path); [right | by left].
    by destruct force.
  - apply write_key_inv in Hwr as [ids Hwr]. by exists ids, w1, w2, (Return tt).
Qed.

(** C10: with the name [None] or [''], [set_key] and [gen_key] return at
    once ([gen_key] returns [None]) and leave the whole world, files and
    history included, as it was. *)
Theorem empty_name_returns_at_once st w path key_data force length symbols
    inplace :
  path = None \/ path = Some "" ->
  initialised_ok st w = true ->
  trap_ok st path w = true ->
  set_key st path key_data force w = (Return tt, w)
  /\ gen_key st path length symbols force inplace w = (Return None, w).
Proof.
  intros Hp Hi Ht.
  unfold Methods.set_key, Methods.gen_key. run.
  rewrite Hi, Ht. destruct Hp as [-> | ->]; split; reflexivity.
Qed.

(** C6: [get_key] returns the decrypted content of a present secret,
    raises [FileNotFoundError] for an absent one, and returns [None]
    for the name [None] or [''] *)
Theorem get_key_present_absent_empty st w path :
  initialised_ok st w = true ->
  trap_ok st path w = true ->
  (path = None \/ path = Some "" -> get_key st path w = (Return None, w))
  /\ (forall name payload data,
        path = Some name -> name <> "" ->
        OS.lookup w (key_path_of st name) = Some (File payload) ->
        decrypt payload = Some data ->
        get_key st path w = (Return (Some data), w))
  /\ (forall name,
        path = Some name -> name <> "" ->
        OS.isfile w (key_path_of st name) = false ->
        get_key st path w = (Raise FileNotFoundError, w)).
Proof.
  intros Hi Ht. unfold Methods.get_key. run. rewrite Hi, Ht.
  split; [|split].
  - intros [-> | ->]; reflexivity.
  - intros name payload data -> Hne Hl Hd.
    pose proof (get_key_of_present st w name payload data Hi Ht Hne Hl Hd)
      as Hg.
    unfold Methods.get_key in Hg. revert Hg. run. by rewrite Hi, Ht.
  - intros name -> Hne Hf.
    destruct name as [|a name]; [congruence|].
    unfold key_path_of in Hf. rewrite Hf. reflexivity.
Qed.

Lemma write_key_resolved st key_path data w k ids :
  OS.resolve w key_path = Return k ->
  fs w !! k <> Some Dir ->
  (fs w !! k = None -> OS.proper_leaf key_path = true) ->
  scope_of w key_path = Some ids ->
  exists w', _write_key encrypt st key_path data w = (Return tt, w')
             /\ OS.lookup w' key_path = Some (File (encrypt ids data))
             /\ cwd w' = cwd w /\ entropy w' = entropy w
             /\ git_log w' = git_log w.
Proof.
  intros Hr Hk Hleaf Hsc.
  unfold scope_of in Hsc. unfold _write_key. rewrite Hr in *. rewrite Hsc.
  assert (Hw : OS.write_file key_path (encrypt ids data) w
               = set_fs (<[k := File (encrypt ids data)]> (fs w)) w).
  { unfold OS.write_file. rewrite Hr.
    destruct (fs w !! k) as [[]|]; [done..|]. by rewrite Hleaf. }
  eexists. split; [exact Hw|]. split; [|done].
  by apply (lookup_written _ _ w).
Qed.

Lemma write_key_present st key_path data w payload ids :
  OS.lookup w key_path = Some (File payload) ->
  scope_of w key_path = Some ids ->
  exists w', _write_key encrypt st key_path data w = (Return tt, w')
             /\ OS.lookup w' key_path = Some (File (encrypt ids data))
             /\ cwd w' = cwd w /\ entropy w' = entropy w
             /\ git_log w' = git_log w.
Proof.
  intros [k [Hr Hk]]%lookup_resolve Hsc.
  apply (write_key_resolved st key_path data w k ids); try done; congruence.
Qed.

(** [set_key] on a present secret without [force] *)
Lemma set_key_refuses st w name content node :
  initialised_ok st w = true ->
  trap_ok st (Some name) w = true ->
  name <> "" ->
  OS.lookup w (key_path_of st name) = Some node ->
  set_key st (Some name) content false w = (Raise FileExistsError, w).
Proof.
  intros Hi Ht Hne Hl. unfold Methods.set_key. run. rewrite Hi, Ht.
  destruct name as [|a name]; [congruence|].
  fold (key_path_of st (String a name)).
  assert (OS.exists_ w (key_path_of st (String a name)) = true) as ->; [|done].
  apply exists_lookup. by exists node.
Qed.

(** [set_key] where the file of the key can be written: its directory is
    there, and the key is absent or may be overwritten. *)
Lemma set_key_writes st w name content force k ids :
  initialised_ok st w = true ->
  trap_ok st (Some name) w = true ->
  name <> "" ->
  PosixPath.isabs (store_dir st) = true ->
  OS.resolve w (key_path_of st name) = Return k ->
  fs w !! k = None
  \/ (force = true /\ exists payload, fs w !! k = Some (File payload)) ->
  scope_of w (key_path_of st name) = Some ids ->
  exists w', set_key st (Some name) content force w = (Return tt, w')
             /\ OS.lookup w' (key_path_of st name)
                = Some (File (encrypt ids content)).
Proof.
  intros Hi Ht Hne Habs Hr Hk Hsc. unfold Methods.set_key. run.
  rewrite Hi, Ht. destruct name as [|a name]; [congruence|].
  fold (key_path_of st (String a name)).
  set (key_path := key_path_of st (String a name)) in *.
  assert (OS.exists_ w key_path && negb force = false) as ->.
  { destruct Hk as [Hk | [-> _]]; [|apply andb_false_r].
    unfold OS.exists_, OS.lookup. rewrite Hr, Hk.
    by rewrite bool_decide_eq_false_2 by by intros []. }
  rewrite (makedirs_dirname_existing _ _ _ k); [|by apply isabs_join|done].
  destruct (write_key_resolved st key_path content w k ids) as
    (w1 & -> & Hl1 & Hc1 & _); try done.
  { destruct Hk as [-> | [_ [payload ->]]]; done. }
  { intros _. unfold key_path, key_path_of.
    destruct (join_suffix (store_dir st)
                (PosixPath.normpath (String a name)) ".gpg") as [x ->].
    apply proper_leaf_suffix. }
  destruct (git_add_files st key_path
              ("Add given password for "
               +:+ PosixPath.normpath (String a name) +:+ " to store.") w1)
    as (w2 & -> & Hf & Hc & _).
  exists w2. split; [done|]. by rewrite (lookup_same_files w1 w2).
Qed.

Lemma get_store_name_total st w path :
  path <> "" ->
  _get_store_name st path w = (Return (store_name_at st w path), w).
Proof.
  intros Hp. unfold store_name_at, _get_store_name, PosixPath.relpath.
  apply StrFacts.eqb_false_iff in Hp. rewrite Hp.
  destruct (PosixPath.drop_common _ _) as [up down].
  destruct (replicate (length up) ".." ++ down);
    by destruct (PyStr.endswith ".gpg" _).
Qed.

Lemma list_dir_loop_spec st w path_dir entries dirs keys :
  path_dir <> "" ->
  let name e := store_name_at st w (PosixPath.join path_dir e) in
  list_dir_loop st path_dir entries dirs keys w
  = (Return (dirs ++ (name <$> filter (listed_dir w path_dir) entries),
             keys ++ (name <$> filter (listed_key w path_dir) entries)), w).
Proof using Type.
  intros Hp name. revert dirs keys.
  induction entries as [|e entries IH]; intros dirs keys.
  - simpl. by rewrite !app_nil_r.
  - cbn [list_dir_loop].
    destruct (PyStr.startswith "." e) eqn:Hh.
    { rewrite !filter_cons_False; [apply IH|..];
        unfold listed_dir, listed_key; rewrite Hh; simpl; first [exact I | intros []]. }
    run.
    destruct (OS.isdir w (PosixPath.join path_dir e)) eqn:Hd.
    { rewrite get_store_name_total by by apply join_nonempty_l.
      rewrite IH. fold (name e).
      rewrite filter_cons_True
        by (unfold listed_dir; rewrite Hh, Hd; simpl; first [exact I | intros []]).
      rewrite filter_cons_False.
      - by rewrite fmap_cons, <- app_assoc.
      - unfold listed_key. rewrite Hh.
        assert (OS.isfile w (PosixPath.join path_dir e) = false) as ->;
          [|simpl; first [exact I | intros []]].
        unfold OS.isfile, OS.isdir in *.
        by destruct (OS.lookup w _) as [[]|]. }
    rewrite (filter_cons_False (λ x, Is_true (listed_dir w path_dir x)))
      by (unfold listed_dir; rewrite Hh, Hd; simpl; first [exact I | intros []]).
    destruct (OS.isfile w (PosixPath.join path_dir e)
              && PyStr.endswith ".gpg" e) eqn:Hk.
    { rewrite get_store_name_total by by apply join_nonempty_l.
      rewrite IH. fold (name e).
      rewrite filter_cons_True
        by (unfold listed_key; rewrite Hh, <- andb_assoc, Hk; simpl; first [exact I | intros []]).
      by rewrite fmap_cons, <- app_assoc. }
    rewrite filter_cons_False
      by (unfold listed_key; rewrite Hh, <- andb_assoc, Hk; simpl; first [exact I | intros []]).
    apply IH.
Qed.

(** With identities to set, [init_store] raises [FileExistsError] and
    changes nothing whenever [gpg_id_dir] exists already. *)
Lemma init_store_on_existing st w id ids path :
  trap_ok st path w = true ->
  OS.exists_ w (gpg_id_dir_of st path) = true ->
  init_store st (Some (id :: ids)) path w = (Raise FileExistsError, w).
Proof.
  intros Ht Hex. unfold Methods.init_store. run. rewrite Ht.
  unfold gpg_id_dir_of in Hex. destruct path as [path|].
  - destruct (negb (OS.isdir w (PosixPath.normpath path))
              && OS.exists_ w (PosixPath.normpath path)); [done|].
    by rewrite (makedirs_existing _ _ false Hex).
  - by rewrite (makedirs_existing _ _ false Hex).
Qed.


(** [os.remove] of a path that is a file *)
Lemma remove_file w p :
  OS.isfile w p = true ->
  exists k data,
    OS.resolve w p = Return k /\ fs w !! k = Some (File data)
    /\ OS.remove p w
       = (Return tt, mkWorld (delete k (fs w)) (cwd w) (git_log w) (entropy w)).
Proof.
  unfold OS.isfile, OS.lookup, OS.remove, set_fs.
  destruct (OS.resolve w p) as [k|]; [|done].
  destruct (fs w !! k) as [[data|]|] eqn:Hk; [|done..]. intros _.
  by exists k, data.
Qed.

Lemma git_remove_files st paths msg recursive commit w :
  exists w', _git_remove_path st paths msg recursive commit w = (Return tt, w')
             /\ fs w' = fs w /\ cwd w' = cwd w.
Proof. unfold _git_remove_path. destruct (repo st); by eexists. Qed.

(** What is left after [shutil.rmtree]: nothing below the directory, and
    the directory where it cannot be unlinked. *)
Lemma lookup_without_tree p k f x :
  OS.without_tree p k f !! x
  = if OS.under k x && negb (OS.stays p k && bool_decide (x = k))
    then None else f !! x.
Proof.
  unfold OS.without_tree.
  destruct (OS.under k x && negb (OS.stays p k && bool_decide (x = k)))
    eqn:Hc.
  - apply map_lookup_filter_None. right. intros v _. simpl.
    apply andb_true_iff in Hc as [-> Hc]. apply negb_true_iff in Hc.
    rewrite Hc. exact (fun H => H).
  - destruct (f !! x) as [v|] eqn:Hx.
    + apply map_lookup_filter_Some. split; [done|]. simpl.
      apply andb_false_iff in Hc as [->|Hc]; [exact I|].
      apply negb_false_iff in Hc. rewrite Hc. apply orb_True. by right.
    + apply map_lookup_filter_None. by left.
Qed.

(** [shutil.rmtree] of a directory leaves nothing below it, and not the
    directory either unless it was named by [.] or [..] or is the
    root. *)
Lemma rmtree_directory w p k :
  OS.resolve w p = Return k -> fs w !! k = Some Dir ->
  exists w', OS.rmtree_ignore_errors p w = (Return tt, w')
             /\ cwd w' = cwd w
             /\ (forall x, k `prefix_of` x -> x <> k -> fs w' !! x = None)
             /\ (OS.stays p k = false -> fs w' !! k = None).
Proof.
  intros Hr Hk. unfold OS.rmtree_ignore_errors, OS.is_dir, set_fs.
  rewrite Hr, Hk. eexists. split; [done|]. split; [done|]. simpl. split.
  - intros x Hx Hne. rewrite lookup_without_tree. unfold OS.under.
    rewrite bool_decide_eq_true_2 by done.
    rewrite (bool_decide_eq_false_2 (x = k)) by done.
    by rewrite andb_false_r.
  - intros Hs. rewrite lookup_without_tree, Hs. unfold OS.under.
    by rewrite bool_decide_eq_true_2.
Qed.

(** Encrypting again rewrites files that are there; it adds none. *)
Lemma reencrypt_one_frame k kv w r w' :
  reencrypt_one encrypt decrypt k kv w = (r, w') ->
  cwd w' = cwd w
  /\ forall x, x <> kv.1 -> fs w' !! x = fs w !! x.
Proof.
  unfold reencrypt_one, set_fs. destruct kv as [k' [payload|]]; simpl.
  - destruct (OS.under k k' && PyStr.endswith ".gpg" (List.last k' ""));
      [|by intros [= <- <-]].
    destruct (decrypt payload); [|by intros [= <- <-]].
    destruct (effective_identities _ _); [|by intros [= <- <-]].
    intros [= <- <-]. split; [done|]. simpl. intros x Hx.
    by rewrite lookup_insert_ne.
  - by intros [= <- <-].
Qed.

Lemma reencrypt_each_frame k l w r w' :
  for_each (reencrypt_one encrypt decrypt k) l w = (r, w') ->
  cwd w' = cwd w
  /\ forall x, (forall kv, kv ∈ l -> x <> kv.1) -> fs w' !! x = fs w !! x.
Proof.
  revert w. induction l as [|kv l IH]; intros w; cbn [for_each]; run.
  - by intros [= <- <-].
  - destruct (reencrypt_one encrypt decrypt k kv w) as [[[]|e] w1] eqn:H1.
    + apply reencrypt_one_frame in H1 as [Hc1 Hf1].
      intros [Hc Hf]%IH. split; [congruence|]. intros x Hx.
      rewrite Hf by (intros kv' ?; apply Hx; by right).
      apply Hf1, Hx. by left.
    + apply reencrypt_one_frame in H1 as [Hc1 Hf1].
      intros [= <- <-]. split; [done|]. intros x Hx. apply Hf1, Hx. by left.
Qed.

Lemma reencrypt_path_absent st path w r w' x :
  _reencrypt_path encrypt decrypt st path w = (r, w') ->
  fs w !! x = None -> fs w' !! x = None.
Proof.
  unfold _reencrypt_path. destruct (OS.resolve w path) as [k|].
  - intros [_ Hf]%reencrypt_each_frame Hx. rewrite Hf; [done|].
    intros [k' v] Hin%elem_of_map_to_list ->. simpl in Hx. congruence.
  - by intros [= <- <-].
Qed.

Hypothesis decrypt_encrypt :
  forall ids data, decrypt (encrypt ids data) = Some data.

(** C1: for a non-empty name, when [set_key] returns (the name was absent
    or [force] was set), a following [get_key] of the name returns exactly
    the content that was set, given that decryption inverts encryption;
    and [set_key] does return where the directory of the key exists and
    has a scope, and the key is absent or [force] is set on a present
    secret. *)
Theorem set_then_get_roundtrip st w name content force :
  name <> "" ->
  (forall w',
      set_key st (Some name) content force w = (Return tt, w') ->
      initialised_ok st w' = true ->
      trap_ok st (Some name) w' = true ->
      (OS.exists_ w (key_path_of st name) = false \/ force = true)
      /\ get_key st (Some name) w' = (Return (Some content), w'))
  /\ (forall k ids,
        initialised_ok st w = true ->
        trap_ok st (Some name) w = true ->
        PosixPath.isabs (store_dir st) = true ->
        OS.resolve w (key_path_of st name) = Return k ->
        fs w !! k = None
        \/ (force = true /\ exists payload, fs w !! k = Some (File payload)) ->
        scope_of w (key_path_of st name) = Some ids ->
        exists w', set_key st (Some name) content force w = (Return tt, w')).
Proof.
  intros Hne. split.
  - intros w' Hset Hi Ht.
    destruct (set_key_inv _ _ _ _ _ _ Hne Hset)
      as (Habs & ids & w1 & w2 & r & _ & Hwr & Hf & Hc).
    split; [done|].
    apply (get_key_of_present st w' name (encrypt ids content)); try done.
    rewrite (lookup_same_files w2 w') by done.
    by apply (lookup_written _ _ w1).
  - intros k ids Hi Ht Habs Hr Hk Hsc.
    destruct (set_key_writes st w name content force k ids)
      as (w' & Hset & _); try done.
    by exists w'.
Qed.

(** C5: on a present secret, [set_key] without [force] raises
    [FileExistsError] and changes nothing; with [force] it returns, and
    [get_key] then returns the new content. *)
Theorem set_key_conflict_and_force st w name content payload ids :
  initialised_ok st w = true ->
  trap_ok st (Some name) w = true ->
  name <> "" ->
  PosixPath.isabs (store_dir st) = true ->
  OS.lookup w (key_path_of st name) = Some (File payload) ->
  scope_of w (key_path_of st name) = Some ids ->
  set_key st (Some name) content false w = (Raise FileExistsError, w)
  /\ exists w',
       set_key st (Some name) content true w = (Return tt, w')
       /\ (initialised_ok st w' = true ->
           trap_ok st (Some name) w' = true ->
           get_key st (Some name) w' = (Return (Some content), w')).
Proof.
  intros Hi Ht Hne Habs Hl Hsc. split.
  - by apply (set_key_refuses st w name content (File payload)).
  - apply lookup_resolve in Hl as (k & Hr & Hk).
    destruct (set_key_writes st w name content true k ids)
      as (w' & Hset & Hl'); try done.
    { right. split; [done|]. by exists payload. }
    exists w'. split; [done|]. intros Hi' Ht'.
    by apply (get_key_of_present st w' name (encrypt ids content)).
Qed.

(** C4: on a present secret with lines [L0 :: Ls], [gen_key] with
    [inplace] returns the password it drew, of the asked length, and the
    secret then decrypts to that password followed by [Ls] unchanged. *)
Theorem gen_key_inplace_keeps_other_lines st w name length symbols force
    payload data L0 Ls ids :
  initialised_ok st w = true ->
  trap_ok st (Some name) w = true ->
  name <> "" ->
  PosixPath.isabs (store_dir st) = true ->
  OS.lookup w (key_path_of st name) = Some (File payload) ->
  decrypt payload = Some data ->
  PyStr.split PyStr.nl data = L0 :: Ls ->
  scope_of w (key_path_of st name) = Some ids ->
  (forall seed,
      String.length (_gen_password seed length symbols) = Z.to_nat length
      /\ PyStr.contains PyStr.nl (_gen_password seed length symbols)
         = false) ->
  let password := _gen_password (entropy w) length symbols in
  exists w' payload' data',
    gen_key st (Some name) length symbols force true w
    = (Return (Some password), w')
    /\ String.length password = Z.to_nat length
    /\ OS.lookup w' (key_path_of st name) = Some (File payload')
    /\ decrypt payload' = Some data'
    /\ PyStr.split PyStr.nl data' = password :: Ls
    /\ (initialised_ok st w' = true ->
        trap_ok st (Some name) w' = true ->
        get_key st (Some name) w' = (Return (Some data'), w')).
Proof.
  intros Hi Ht Hne Habs Hl Hd Hsp Hsc Hgen password.
  destruct (Hgen (entropy w)) as [Hlen Hnl]. fold password in Hlen, Hnl.
  set (key_path := key_path_of st name) in *.
  set (w1 := mkWorld (fs w) (cwd w) (git_log w) (S (entropy w))).
  assert (Hl1 : OS.lookup w1 key_path = Some (File payload))
    by by rewrite (lookup_same_files w w1).
  assert (Hsc1 : scope_of w1 key_path = Some ids) by done.
  set (data' := PyStr.join (String PyStr.nl "") (password :: Ls)).
  destruct (write_key_present st key_path data' w1 payload ids Hl1 Hsc1)
    as (w2 & Hwr & Hl2 & Hc2 & _).
  destruct (git_add_files st key_path
              ("Replace" +:+ " generated password for "
               +:+ PosixPath.normpath name +:+ ".") w2)
    as (w3 & Hgit & Hf3 & Hc3 & _).
  exists w3, (encrypt ids data'), data'.
  assert (Hl3 : OS.lookup w3 key_path = Some (File (encrypt ids data')))
    by by rewrite (lookup_same_files w2 w3).
  split; [|split; [done|split; [done|split; [done|split]]]].
  - unfold Methods.gen_key. run. rewrite Hi, Ht.
    destruct name as [|a name]; [congruence|].
    fold (key_path_of st (String a name)). fold key_path.
    rewrite orb_true_r, andb_false_r.
    pose proof Hl as (k & Hr & Hk)%lookup_resolve.
    rewrite (makedirs_dirname_existing _ _ _ k); [|by apply isabs_join|done].
    unfold draw_password. fold password. fold w1.
    unfold _read_key, OS.read_file. run.
    change (negb true) with false. cbv beta iota. rewrite Hl1, Hd, Hsp.
    change (<[0:=password]> (L0 :: Ls)) with (password :: Ls).
    fold data'. rewrite Hwr, Hgit. done.
  - apply StrFacts.split_join; [done|].
    apply Forall_cons. split; [done|].
    apply Forall_forall. intros x Hx.
    apply (StrFacts.split_items _ data). rewrite Hsp. by right.
  - intros Hi' Ht'.
    by apply (get_key_of_present st w3 name (encrypt ids data')).
Qed.

(** C2: with identities to set, [init_store] on a directory that exists
    already does not succeed: it raises [FileExistsError] and writes
    nothing. *)
Theorem init_store_existing_directory_raises st w id ids path :
  trap_ok st path w = true ->
  OS.isdir w (gpg_id_dir_of st path) = true ->
  init_store st (Some (id :: ids)) path w = (Raise FileExistsError, w).
Proof.
  intros Ht Hd. apply init_store_on_existing; [done|].
  apply exists_lookup. exists Dir. unfold OS.isdir in Hd.
  by destruct (OS.lookup w _) as [[]|].
Qed.


(** C3: without identities, on a directory that holds a [.gpg-id] file,
    [init_store] removes everything in the directory: whatever it
    returns, no file or directory is left below it, secrets included, and
    the directory itself is gone too unless it was named by [.] or [..]
    or is the root. *)
Theorem init_store_no_ids_removes_subtree st w gpg_ids path k r w' :
  trap_ok st path w = true ->
  gpg_ids = None \/ gpg_ids = Some [] ->
  early_conflict w path = false ->
  OS.resolve w (gpg_id_dir_of st path) = Return k ->
  fs w !! k = Some Dir ->
  OS.isfile w (gpg_id_path_of st path) = true ->
  init_store st gpg_ids path w = (r, w') ->
  (forall x, k `prefix_of` x -> x <> k -> fs w' !! x = None)
  /\ (OS.stays (gpg_id_dir_of st path) k = false -> fs w' !! k = None).
Proof.
  intros Ht Hids Hearly Hr Hk Hf Hrun.
  cut (forall x, (k `prefix_of` x /\ x <> k)
                 \/ (OS.stays (gpg_id_dir_of st path) k = false /\ x = k) ->
                 fs w' !! x = None).
  { intros H. split; [intros x ? ?; apply H; by left|].
    intros ?. apply H. by right. }
  intros x Hx.
  assert (Hbody :
    (do _ <- (do _ <- OS.remove (gpg_id_path_of st path);
              do _ <- _git_remove_path st [gpg_id_path_of st path]
                        ("Deinitialize " +:+ gpg_id_path_of st path +:+ ".")
                        true true;
              OS.rmtree_ignore_errors (gpg_id_dir_of st path));
     do _ <- _reencrypt_path encrypt decrypt st (gpg_id_dir_of st path);
     match gpg_ids with
     | None => raise TypeError
     | Some ids =>
         _git_add_path st (gpg_id_dir_of st path)
           ("Reencrypt password store using new GPG id "
            +:+ PyStr.join ", " ids +:+ ".")
     end) w = (r, w')).
  { revert Hrun. unfold Methods.init_store. run. rewrite Ht.
    unfold early_conflict in Hearly.
    unfold gpg_id_path_of, gpg_id_dir_of in *.
    destruct path as [path|]; [rewrite Hearly|];
      destruct Hids as [-> | ->]; rewrite Hf; intros H; exact H. }
  clear Hrun. revert Hbody. run.
  destruct (remove_file w _ Hf) as (kid & data & Hrid & Hkid & ->).
  set (w1 := mkWorld (delete kid (fs w)) (cwd w) (git_log w) (entropy w)).
  destruct (git_remove_files st [gpg_id_path_of st path]
              ("Deinitialize " +:+ gpg_id_path_of st path +:+ ".")
              true true w1) as (w2 & -> & Hf2 & Hc2).
  assert (Hdir : forall y, fs w !! y = Some Dir -> fs w2 !! y = Some Dir).
  { intros y Hy. rewrite Hf2. simpl. rewrite lookup_delete_ne; [done|].
    intros <-. congruence. }
  assert (Hr2 : OS.resolve w2 (gpg_id_dir_of st path) = Return k).
  { apply (resolve_mono w); [by rewrite Hc2 | done | done]. }
  destruct (rmtree_directory w2 _ k Hr2 (Hdir _ Hk))
    as (w3 & -> & Hc3 & Hbelow & Hself).
  assert (Hgone : fs w3 !! x = None).
  { destruct Hx as [[Hx Hne]|[Hs ->]]; [by apply Hbelow | by apply Hself]. }
  destruct (_reencrypt_path encrypt decrypt st (gpg_id_dir_of st path) w3)
    as [[[]|e] w4] eqn:Hre.
  - assert (fs w4 !! x = None)
      by (eapply reencrypt_path_absent; [exact Hre | exact Hgone]).
    destruct gpg_ids as [ids|].
    + destruct (git_add_files st (gpg_id_dir_of st path)
                  ("Reencrypt password store using new GPG id "
                   +:+ PyStr.join ", " ids +:+ ".") w4)
        as (w5 & -> & Hf5 & _).
      intros [= <- <-]. by rewrite Hf5.
    + by intros [= <- <-].
  - intros [= <- <-].
    eapply reencrypt_path_absent; [exact Hre | exact Hgone].
Qed.

(** C7: when the old path is no directory and the new path no existing
    directory (nor a root), [.gpg] is appended to the new path, whether
    or not it was given with a separator at its end. *)
Theorem copy_move_paths_append_suffix st w old_path new_path :
  let old_full :=
    PosixPath.join (store_dir st) (PosixPath.normpath old_path) in
  let new_full :=
    PosixPath.join (store_dir st) (PosixPath.normpath new_path) in
  OS.isdir w old_full = false ->
  OS.isdir w new_full = false ->
  PosixPath.normpath new_path <> "/" ->
  PosixPath.normpath new_path <> "//" ->
  copy_move_paths st w old_path new_path
  = (old_full +:+ ".gpg", new_full +:+ ".gpg").
Proof using Type.
  intros old_full new_full Hold Hnew H1 H2. unfold copy_move_paths.
  fold old_full new_full. rewrite Hold, Hnew. simpl.
  assert (PyStr.endswith "/" new_full = false) as ->; [|done].
  unfold new_full. rewrite join_endswith_sep by apply normpath_nonempty.
  destruct (PyStr.endswith "/" (PosixPath.normpath new_path)) eqn:He; [|done].
  by apply normpath_endswith_sep in He as [?|?].
Qed.

End Properties.

(** * The properties on the toy store *)

Module DemoFacts.
Import Demo.

Lemma unshift_shift a : unshift (shift a) = a.
Proof. by destruct a as [[] [] [] [] [] [] [] []]. Qed.

Lemma smap_unshift_shift s : smap unshift (smap shift s) = s.
Proof.
  induction s as [|a s IH]; simpl; [done|]. by rewrite unshift_shift, IH.
Qed.

Lemma toy_decrypt_encrypt ids data :
  decrypt (encrypt ids data) = Some data.
Proof. unfold decrypt, encrypt. by rewrite smap_unshift_shift. Qed.

Lemma fill_length n a : String.length (PyStr.fill n a) = n.
Proof. induction n as [|n IH]; simpl; [done|]. by rewrite IH. Qed.

Lemma fill_contains n a c :
  Ascii.eqb a c = false -> PyStr.contains c (PyStr.fill n a) = false.
Proof.
  intros Ha. induction n as [|n IH]; simpl; [done|]. by rewrite Ha, IH.
Qed.

Lemma letter_not_newline seed :
  Ascii.eqb (ascii_of_nat (97 + seed mod 26)) PyStr.nl = false.
Proof.
  apply Ascii.eqb_neq. intros H.
  apply (f_equal nat_of_ascii) in H.
  rewrite nat_ascii_embedding in H.
  - change (nat_of_ascii PyStr.nl) with 10 in H. lia.
  - pose proof (Nat.mod_upper_bound seed 26). lia.
Qed.

Lemma toy_gen_password_spec seed length symbols :
  String.length (_gen_password seed length symbols) = Z.to_nat length
  /\ PyStr.contains PyStr.nl (_gen_password seed length symbols) = false.
Proof.
  unfold _gen_password. split; [apply fill_length|].
  apply fill_contains, letter_not_newline.
Qed.

End DemoFacts.

Import Methods Demo DemoFacts.

Lemma empty_name_returns_at_once_witness :
  set_key store (Some "") "data" true world = (Return tt, world)
  /\ gen_key store (Some "") 12 true true false world = (Return None, world).
Proof.
  apply (empty_name_returns_at_once encrypt decrypt _gen_password
           initialised_ok trap_ok store world (Some "")); auto.
Defined.

Lemma get_key_present_absent_empty_witness :
  get_key store None world = (Return None, world)
  /\ get_key store (Some "d/x") world = (Return (Some "pw-x"), world)
  /\ get_key store (Some "nothing") world = (Raise FileNotFoundError, world).
Proof.
  split; [|split].
  - apply (get_key_present_absent_empty decrypt initialised_ok trap_ok
             store world None); auto.
  - apply (get_key_present_absent_empty decrypt initialised_ok trap_ok
             store world (Some "d/x") eq_refl eq_refl)
      with (name := "d/x") (payload := encrypt ["bob"] "pw-x");
      [reflexivity | discriminate | vm_compute; reflexivity
      | vm_compute; reflexivity].
  - apply (get_key_present_absent_empty decrypt initialised_ok trap_ok
             store world (Some "nothing") eq_refl eq_refl)
      with (name := "nothing");
      [reflexivity | discriminate | vm_compute; reflexivity].
Defined.

Lemma set_then_get_roundtrip_witness :
  (let w' := snd (set_key store (Some "n/m/k") "hello" false world) in
   get_key store (Some "n/m/k") w' = (Return (Some "hello"), w'))
  /\ exists w', set_key store (Some "top") "hello" false world
                = (Return tt, w').
Proof.
  split.
  - apply (set_then_get_roundtrip encrypt decrypt initialised_ok trap_ok
             toy_decrypt_encrypt store world "n/m/k" "hello" false);
      [discriminate | vm_compute; reflexivity | vm_compute; reflexivity
      | vm_compute; reflexivity].
  - apply (set_then_get_roundtrip encrypt decrypt initialised_ok trap_ok
             toy_decrypt_encrypt store world "top" "hello" false)
      with (k := ["s"; "top.gpg"]) (ids := ["alice"]);
      [discriminate | reflexivity | vm_compute; reflexivity | reflexivity
      | vm_compute; reflexivity | left; vm_compute; reflexivity
      | vm_compute; reflexivity].
Defined.

Lemma set_key_conflict_and_force_witness :
  set_key store (Some "b") "new" false world = (Raise FileExistsError, world)
  /\ exists w',
       set_key store (Some "b") "new" true world = (Return tt, w')
       /\ (initialised_ok store w' = true ->
           trap_ok store (Some "b") w' = true ->
           get_key store (Some "b") w' = (Return (Some "new"), w')).
Proof.
  apply (set_key_conflict_and_force encrypt decrypt initialised_ok trap_ok
           toy_decrypt_encrypt store world "b" "new"
           (encrypt ["alice"] "pw-b") ["alice"]);
    [reflexivity | vm_compute; reflexivity | discriminate | reflexivity
    | vm_compute; reflexivity | vm_compute; reflexivity].
Defined.

Lemma gen_key_inplace_keeps_other_lines_witness :
  exists w' payload' data',
    gen_key store (Some "a") 10 true false true world
    = (Return (Some "aaaaaaaaaa"), w')
    /\ String.length "aaaaaaaaaa" = 10
    /\ OS.lookup w' (Methods.key_path_of store "a") = Some (File payload')
    /\ decrypt payload' = Some data'
    /\ PyStr.split PyStr.nl data' = ["aaaaaaaaaa"; "meta1"; "meta2"]
    /\ (initialised_ok store w' = true ->
        trap_ok store (Some "a") w' = true ->
        get_key store (Some "a") w' = (Return (Some data'), w')).
Proof.
  apply (gen_key_inplace_keeps_other_lines encrypt decrypt _gen_password
           initialised_ok trap_ok toy_decrypt_encrypt store world "a" 10 true
           false (encrypt ["alice"] "old
meta1
meta2") "old
meta1
meta2" "old" ["meta1"; "meta2"] ["alice"]);
    [reflexivity | vm_compute; reflexivity | discriminate | reflexivity
    | vm_compute; reflexivity | vm_compute; reflexivity | reflexivity
    | vm_compute; reflexivity | intros seed; apply toy_gen_password_spec].
Defined.

Lemma init_store_existing_directory_raises_witness :
  init_store store (Some ["carol"]) (Some "d") world
  = (Raise FileExistsError, world).
Proof.
  apply (init_store_existing_directory_raises encrypt decrypt trap_ok store
           world "carol" [] (Some "d")); vm_compute; reflexivity.
Defined.



(** On the toy store, the directory [d] holds a [.gpg-id] and the secret
    [d/x]; [init_store] without identities on [d] returns, and the secret
    file is gone with the whole directory. *)
Example init_store_no_ids_on_toy_store :
  let '(r, w') := init_store store (Some []) (Some "d") world in
  OS.isfile world "/s/d/.gpg-id" = true
  /\ OS.isfile world "/s/d/x.gpg" = true
  /\ r = Return tt
  /\ OS.exists_ w' "/s/d/x.gpg" = false
  /\ OS.exists_ w' "/s/d" = false.
Proof. vm_compute. auto. Qed.

(** On the store directory itself, named by [.], the secrets go and the
    directory stays. *)
Example init_store_no_ids_on_store_itself :
  let '(r, w') := init_store store (Some []) (Some "") world in
  gpg_id_dir_of store (Some "") = "/s/."
  /\ r = Return tt
  /\ OS.exists_ w' "/s/b.gpg" = false
  /\ OS.exists_ w' "/s/d" = false
  /\ OS.isdir w' "/s" = true.
Proof. vm_compute. auto. Qed.

(** A directory whose name ends in [.gpg] is listed without the ending,
    under a name that [list_dir] itself does not take. *)
Example list_dir_of_gpg_directory :
  DemoRest.world_with_gpg_dir.(fs) !! ["s"; "x.gpg"] = Some Dir
  /\ list_dir store (Some "") DemoRest.world_with_gpg_dir
     = (Return (["d"; "x"], ["a"; "b"]), DemoRest.world_with_gpg_dir)
  /\ list_dir store (Some "x") DemoRest.world_with_gpg_dir
     = (Raise FileNotFoundError, DemoRest.world_with_gpg_dir)
  /\ list_dir store (Some "x.gpg") DemoRest.world_with_gpg_dir
     = (Return ([], []), DemoRest.world_with_gpg_dir).
Proof. vm_compute. auto. Qed.

Lemma init_store_no_ids_removes_subtree_witness :
  OS.isfile world "/s/d/x.gpg" = true
  /\ fs (snd (init_store store (Some []) (Some "d") world))
       !! ["s"; "d"; "x.gpg"] = None
  /\ fs (snd (init_store store (Some []) (Some "d") world))
       !! ["s"; "d"] = None.
Proof.
  split; [reflexivity|].
  destruct (init_store_no_ids_removes_subtree encrypt decrypt trap_ok store
              world (Some []) (Some "d") ["s"; "d"]
              (fst (init_store store (Some []) (Some "d") world))
              (snd (init_store store (Some []) (Some "d") world)))
    as [Hbelow Hself];
    [reflexivity | by right | reflexivity | vm_compute; reflexivity
    | vm_compute; reflexivity | vm_compute; reflexivity
    | apply surjective_pairing |].
  split.
  - apply Hbelow; [by exists ["x.gpg"] | discriminate].
  - apply Hself. vm_compute. reflexivity.
Defined.

Lemma copy_move_paths_append_suffix_witness :
  PyStr.endswith "/" "newdir/" = true
  /\ Methods.copy_move_paths store world "a" "newdir/"
     = ("/s/a.gpg", "/s/newdir.gpg").
Proof.
  split; [reflexivity|].
  apply (copy_move_paths_append_suffix store world "a" "newdir/");
    [vm_compute; reflexivity | vm_compute; reflexivity | discriminate
    | discriminate].
Defined.

(** * Paths made of proper names *)

Module CleanFacts.
Import PyStr StrFacts PathFacts Clean.

Lemma proper_name_spec c :
  proper_name c = true <->
  c <> "" /\ c <> "." /\ c <> ".." /\ contains sep c = false.
Proof.
  unfold proper_name.
  rewrite andb_true_iff, !negb_true_iff, !orb_false_iff, !eqb_false_iff.
  tauto.
Qed.

Lemma proper_not_abs c : proper_name c = true -> startswith "/" c = false.
Proof.
  intros (Hne & _ & _ & Hs)%proper_name_spec.
  destruct c as [|a c]; [done|]. cbn [contains] in Hs.
  apply orb_false_iff in Hs as [Ha _]. cbn [startswith].
  by rewrite Ascii.eqb_sym, Ha.
Qed.

Lemma proper_plain l :
  Forall (fun c => proper_name c = true) l ->
  Forall (fun x => x <> "" /\ contains sep x = false) l.
Proof.
  intros Hl. eapply Forall_impl; [exact Hl|].
  intros c (? & _ & _ & ?)%proper_name_spec. done.
Qed.

Lemma proper_no_sep l :
  Forall (fun c => proper_name c = true) l ->
  Forall (fun x => contains sep x = false) l.
Proof.
  intros Hl. eapply Forall_impl; [exact Hl|].
  intros c (? & _ & _ & ?)%proper_name_spec. done.
Qed.

Lemma join_cons_ne x l :
  l <> [] -> PyStr.join "/" (x :: l) = x +:+ "/" +:+ PyStr.join "/" l.
Proof. by destruct l. Qed.

Lemma join_snoc l c :
  l <> [] -> PyStr.join "/" (l ++ [c]) = PyStr.join "/" l +:+ "/" +:+ c.
Proof.
  induction l as [|x l IH]; [done|]. intros _.
  destruct (decide (l = [])) as [->|Hne]; [done|].
  change ((x :: l) ++ [c]) with (x :: (l ++ [c])).
  rewrite !join_cons_ne, IH by (done || by destruct l).
  by rewrite !app_assoc.
Qed.

Lemma join_app l1 l2 :
  l1 <> [] -> l2 <> [] ->
  PyStr.join "/" (l1 ++ l2)
  = PyStr.join "/" l1 +:+ "/" +:+ PyStr.join "/" l2.
Proof.
  intros H1. induction l2 as [|c l2 IH] using rev_ind; [done|]. intros _.
  destruct (decide (l2 = [])) as [->|Hne].
  - cbn [app]. by rewrite join_snoc.
  - rewrite List.app_assoc, !join_snoc, IH; try done.
    + by rewrite !app_assoc.
    + by destruct l1.
Qed.

Lemma join_proper_nonempty l :
  Forall (fun c => proper_name c = true) l -> l <> [] ->
  PyStr.join "/" l <> "" /\ endswith "/" (PyStr.join "/" l) = false
  /\ startswith "/" (PyStr.join "/" l) = false.
Proof.
  intros Hl Hne.
  destruct (join_comps_end l (proper_plain l Hl)) as [He Hn].
  split; [by apply Hn|]. split; [done|].
  destruct l as [|c l]; [done|]. apply Forall_cons in Hl as [Hc _].
  pose proof (proper_not_abs c Hc) as Ha.
  destruct l as [|d l]; [done|]. rewrite join_cons.
  rewrite startswith_sep_app; [done|].
  by apply proper_name_spec in Hc as (? & _).
Qed.

(** [normpath] keeps proper names and drops [.] among them. *)
Lemma normpath_comps_proper b acc l :
  Forall (fun c => proper_name c = true \/ c = ".") l ->
  PosixPath.normpath_comps b acc l
  = rev acc ++ filter (fun c => Is_true (proper_name c)) l.
Proof.
  revert acc. induction l as [|c l IH]; intros acc Hl;
    cbn [PosixPath.normpath_comps].
  - by rewrite List.app_nil_r.
  - apply Forall_cons in Hl as [Hc Hl]. destruct Hc as [Hc | ->].
    + pose proof Hc as (H1 & H2 & H3 & _)%proper_name_spec.
      apply eqb_false_iff in H1, H2, H3. rewrite H1, H2, H3.
      cbn [orb negb]. rewrite IH by done.
      rewrite filter_cons_True by (rewrite Hc; exact I).
      cbn [rev]. by rewrite <- List.app_assoc.
    + change (String.eqb "." "" || String.eqb "." ".") with true.
      cbv iota. rewrite IH by done.
      by rewrite filter_cons_False by exact (fun H => H).
Qed.

Lemma filter_proper_id l :
  Forall (fun c => proper_name c = true) l ->
  filter (fun c => Is_true (proper_name c)) l = l.
Proof.
  induction 1 as [|c l Hc Hl IH]; [done|].
  by rewrite filter_cons_True, IH by (rewrite Hc; exact I).
Qed.

Lemma startswith_twice a s :
  startswith (String a (String a "")) (String a s)
  = startswith (String a "") s.
Proof. cbn [startswith]. by rewrite Ascii.eqb_refl. Qed.

(** An absolute path of proper names and [.] is normalised by dropping
    the [.]. *)
Lemma normpath_rooted l :
  Forall (fun c => proper_name c = true \/ c = ".") l -> l <> [] ->
  filter (fun c => Is_true (proper_name c)) l <> [] ->
  PosixPath.normpath (rooted l)
  = rooted (filter (fun c => Is_true (proper_name c)) l).
Proof.
  intros Hl Hne Hf. unfold PosixPath.normpath, rooted.
  assert (Hsep : Forall (fun x => contains sep x = false) l).
  { eapply Forall_impl; [exact Hl|]. intros c [Hc | ->]; [|done].
    by apply proper_name_spec in Hc as (_ & _ & _ & ?). }
  assert (Hsplit : split sep ("/" +:+ PyStr.join "/" l) = "" :: l).
  { change ("/" +:+ PyStr.join "/" l) with ("" +:+ String sep (PyStr.join "/" l)).
    rewrite split_app_sep. cbn [split app].
    by rewrite (split_join sep l Hne Hsep). }
  assert (Hsecond : startswith "//" ("/" +:+ PyStr.join "/" l) = false).
  { destruct l as [|c l]; [done|]. apply Forall_cons in Hl as [Hc _].
    assert (Hc' : startswith "/" c = false).
    { destruct Hc as [Hc | ->]; [by apply proper_not_abs | done]. }
    assert (c <> "") by (destruct Hc as [Hc%proper_name_spec | ->]; [tauto|done]).
    rewrite app_cons, app_nil_l, startswith_twice.
    destruct (decide (l = [])) as [->|Hl']; [done|].
    by rewrite join_cons_ne, startswith_sep_app, Hc'. }
  change (String.eqb ("/" +:+ PyStr.join "/" l) "") with false. cbv iota.
  change (startswith "/" ("/" +:+ PyStr.join "/" l)) with true. cbv iota.
  rewrite Hsecond. cbn [andb Nat.eqb negb]. cbv iota.
  rewrite Hsplit. cbn [PosixPath.normpath_comps].
  change (String.eqb "" "" || String.eqb "" ".") with true. cbv iota.
  rewrite normpath_comps_proper by done. cbn [rev app]. done.
Qed.

Lemma normpath_rooted_proper l :
  Forall (fun c => proper_name c = true) l -> l <> [] ->
  PosixPath.normpath (rooted l) = rooted l.
Proof.
  intros Hl Hne. rewrite normpath_rooted.
  - by rewrite filter_proper_id.
  - eapply Forall_impl; [exact Hl|]. by left.
  - done.
  - by rewrite filter_proper_id.
Qed.

(** A relative path of proper names is its own normal form. *)
Lemma normpath_relative l :
  Forall (fun c => proper_name c = true) l -> l <> [] ->
  PosixPath.normpath (PyStr.join "/" l) = PyStr.join "/" l.
Proof.
  intros Hl Hne. unfold PosixPath.normpath.
  destruct (join_proper_nonempty l Hl Hne) as (Hn & _ & Ha).
  apply eqb_false_iff in Hn. rewrite Hn, Ha. cbn [Nat.eqb negb].
  rewrite (split_join sep l Hne (proper_no_sep l Hl)).
  rewrite normpath_comps_proper
    by (eapply Forall_impl; [exact Hl|]; by left).
  cbn [rev app]. rewrite filter_proper_id by done. by rewrite Hn.
Qed.

Lemma split_rooted l :
  Forall (fun x => contains sep x = false) l -> l <> [] ->
  split sep (rooted l) = "" :: l.
Proof.
  intros Hl Hne. unfold rooted.
  change ("/" +:+ PyStr.join "/" l) with ("" +:+ String sep (PyStr.join "/" l)).
  rewrite split_app_sep. cbn [split app]. by rewrite (split_join sep l Hne Hl).
Qed.

Lemma filter_nonempty_proper l :
  Forall (fun c => proper_name c = true) l ->
  filter (fun c => Is_true (PosixPath.nonempty c)) l = l.
Proof.
  induction 1 as [|c l Hc Hl IH]; [done|].
  rewrite filter_cons_True, IH; [done|].
  apply proper_name_spec in Hc as (Hc%eqb_false_iff & _).
  unfold PosixPath.nonempty. rewrite Hc. exact I.
Qed.

Lemma drop_common_prefix l r : PosixPath.drop_common l (l ++ r) = ([], r).
Proof.
  induction l as [|c l IH]; cbn [PosixPath.drop_common app].
  - by destruct r.
  - by rewrite String.eqb_refl.
Qed.

(** [os.path.join] of a path and a proper name. *)
Lemma posix_join_plain a b :
  a <> "" -> endswith "/" a = false -> startswith "/" b = false ->
  PosixPath.join a b = a +:+ "/" +:+ b.
Proof.
  intros Ha He Hb. unfold PosixPath.join. rewrite Hb, He.
  apply eqb_false_iff in Ha. by rewrite Ha.
Qed.

Lemma join_all_proper l :
  Forall (fun c => proper_name c = true) l -> l <> [] ->
  PosixPath.join_all l = PyStr.join "/" l.
Proof.
  intros Hl Hne. destruct l as [|x l]; [done|]. clear Hne.
  unfold PosixPath.join_all.
  apply Forall_cons in Hl as [Hx Hl].
  assert (Hgen : forall pre,
    Forall (fun c => proper_name c = true) pre -> pre <> [] ->
    fold_left PosixPath.join l (PyStr.join "/" pre)
    = PyStr.join "/" (pre ++ l)).
  { induction l as [|c l IH]; intros pre Hpre Hne.
    - by rewrite List.app_nil_r.
    - apply Forall_cons in Hl as [Hc Hl]. cbn [fold_left].
      destruct (join_proper_nonempty pre Hpre Hne) as (Hn & He & _).
      rewrite posix_join_plain by (done || by apply proper_not_abs).
      rewrite <- join_snoc by done. rewrite IH.
      + by rewrite <- List.app_assoc.
      + done.
      + apply Forall_app. split; [done | by apply Forall_singleton].
      + by destruct pre. }
  apply (Hgen [x]); [by apply Forall_singleton | done].
Qed.

(** [relpath] from the store directory to a path below it. *)
Lemma relpath_below cwd p s r :
  Forall (fun c => proper_name c = true) s -> s <> [] ->
  Forall (fun c => proper_name c = true) r -> r <> [] ->
  PosixPath.isabs p = true ->
  PosixPath.normpath p = rooted (s ++ r) ->
  PosixPath.relpath cwd p (rooted s) = Some (PyStr.join "/" r).
Proof.
  intros Hs Hsne Hr Hrne Hp Hnp. unfold PosixPath.relpath.
  assert (Hpne : String.eqb p "" = false)
    by (apply eqb_false_iff; by intros ->).
  rewrite Hpne. unfold PosixPath.abspath. rewrite Hp, Hnp.
  change (PosixPath.isabs (rooted s)) with true. cbv iota.
  rewrite (normpath_rooted_proper s Hs Hsne).
  assert (Hsr : Forall (fun c => proper_name c = true) (s ++ r))
    by (apply Forall_app; by split).
  rewrite !split_rooted by (by apply proper_no_sep || by destruct s).
  rewrite !filter_cons_False by exact (fun H => H).
  rewrite !filter_nonempty_proper by done.
  rewrite drop_common_prefix. cbn [length replicate app].
  rewrite join_all_proper by done. by destruct r.
Qed.

Lemma endswith_app_same p x : endswith p (x +:+ p) = true.
Proof.
  induction x as [|a x IH].
  - rewrite app_nil_l. destruct p; cbn [endswith]; by rewrite String.eqb_refl.
  - rewrite app_cons. cbn [endswith]. rewrite IH. apply orb_true_r.
Qed.

Lemma endswith_inv p s : endswith p s = true -> exists x, s = x +:+ p.
Proof.
  induction s as [|a s IH]; cbn [endswith].
  - rewrite orb_false_r. intros ->%String.eqb_eq. by exists "".
  - intros [->%String.eqb_eq | Hs]%orb_true_iff; [by exists ""|].
    destruct (IH Hs) as [x ->]. by exists (String a x).
Qed.

Lemma length_app_string x y :
  String.length (x +:+ y) = String.length x + String.length y.
Proof. induction x as [|a x IH]; [done|]. rewrite app_cons. simpl. lia. Qed.

Lemma substring_prefix x y :
  String.substring 0 (String.length x) (x +:+ y) = x.
Proof.
  induction x as [|a x IH].
  - rewrite app_nil_l. by destruct y.
  - rewrite app_cons. simpl. by rewrite IH.
Qed.

(** [(x + '.gpg')[:-4] == x] *)
Lemma drop_last_suffix x : drop_last 4 (x +:+ ".gpg") = x.
Proof.
  unfold drop_last. rewrite length_app_string.
  change (String.length ".gpg") with 4.
  replace (String.length x + 4 - 4) with (String.length x) by lia.
  apply substring_prefix.
Qed.

Lemma contains_app c x y :
  contains c (x +:+ y) = contains c x || contains c y.
Proof.
  induction x as [|a x IH]; [done|]. rewrite app_cons. cbn [contains].
  by rewrite IH, orb_assoc.
Qed.

(** The key of an entry that is listed: the entry without its [.gpg] is
    a proper name again. *)
Lemma proper_key_name e :
  proper_name e = true -> startswith "." e = false ->
  endswith ".gpg" e = true ->
  exists n, e = n +:+ ".gpg" /\ proper_name n = true.
Proof.
  intros He Hh [n ->]%endswith_inv. exists n. split; [done|].
  apply proper_name_spec in He as (_ & _ & _ & Hs).
  rewrite contains_app in Hs. apply orb_false_iff in Hs as [Hs _].
  apply proper_name_spec. split; [by intros ->|].
  split; [by intros ->|]. split; [by intros ->|done].
Qed.

(** Steps through [.] do not change where a path of proper names ends. *)
Lemma walk_drop_dots f cur l e :
  Forall (fun c => proper_name c = true \/ c = ".") l ->
  proper_name e = true ->
  OS.walk f cur (l ++ [e])
  = OS.walk f cur (filter (fun c => Is_true (proper_name c)) l ++ [e]).
Proof.
  intros Hl He. revert cur. induction l as [|c l IH]; intros cur; [done|].
  apply Forall_cons in Hl as [Hc Hl]. destruct Hc as [Hc | ->].
  - rewrite filter_cons_True by (rewrite Hc; exact I).
    cbn [app OS.walk]. destruct (f !! cur) as [[]|]; [done| |done].
    destruct (String.eqb c "" || String.eqb c "."); [by apply IH|].
    destruct (String.eqb c ".."); by apply IH.
  - rewrite filter_cons_False by exact (fun H => H).
    cbn [app OS.walk]. change (String.eqb "." "" || String.eqb "." ".") with true.
    cbv iota. rewrite IH by done.
    destruct (filter _ l ++ [e]) as [|d rest] eqn:Hd.
    { by destruct (filter (fun c => Is_true (proper_name c)) l). }
    cbn [OS.walk]. by destruct (f !! cur) as [[]|].
Qed.

Lemma rooted_end l :
  Forall (fun x => x <> "" /\ contains sep x = false) l -> l <> [] ->
  rooted l <> "" /\ endswith "/" (rooted l) = false.
Proof.
  intros Hl Hne. destruct (join_comps_end l Hl) as [He Hn].
  split; [done|]. unfold rooted. rewrite endswith_sep_app; [done|].
  by apply Hn.
Qed.

Lemma resolve_rooted w l :
  Forall (fun x => contains sep x = false) l -> l <> [] ->
  OS.resolve w (rooted l) = OS.walk (fs w) [] ("" :: l).
Proof.
  intros Hl Hne. rewrite resolve_walk by done. by rewrite split_rooted.
Qed.

Lemma spelled_spec p :
  Forall (fun c => proper_name c = true) p ->
  relative p = PyStr.join "/" (spelled p)
  /\ spelled p <> []
  /\ Forall (fun c => proper_name c = true \/ c = ".") (spelled p)
  /\ filter (fun c => Is_true (proper_name c)) (spelled p) = p.
Proof.
  intros Hp. destruct p as [|c p].
  - split; [done|]. split; [done|]. split; [|done].
    apply Forall_singleton. by right.
  - split; [done|]. split; [done|]. split.
    + eapply Forall_impl; [exact Hp|]. by left.
    + by apply filter_proper_id.
Qed.

Lemma dotted_plain l :
  Forall (fun c => proper_name c = true \/ c = ".") l ->
  Forall (fun x => x <> "" /\ contains sep x = false) l.
Proof.
  intros Hl. eapply Forall_impl; [exact Hl|].
  intros c [(? & _ & _ & ?)%proper_name_spec | ->]; done.
Qed.

Lemma dir_path_rooted s p :
  Forall (fun c => proper_name c = true) s -> s <> [] ->
  Forall (fun c => proper_name c = true) p ->
  PosixPath.join (rooted s) (relative p) = rooted (s ++ spelled p).
Proof.
  intros Hs Hsne Hp.
  destruct (spelled_spec p Hp) as (Hrel & Hqne & Hq & _).
  destruct (rooted_end s (proper_plain s Hs) Hsne) as [Hn He].
  destruct (join_comps_end (spelled p) (dotted_plain _ Hq)) as [_ Hjn].
  rewrite Hrel, posix_join_plain; [|done|done|].
  - unfold rooted. by rewrite join_app, !app_assoc.
  - destruct (spelled p) as [|c l] eqn:Hsp; [done|].
    apply Forall_cons in Hq as [Hc _].
    assert (Hc' : startswith "/" c = false)
      by (destruct Hc as [Hc | ->]; [by apply proper_not_abs | done]).
    destruct (decide (l = [])) as [->|Hl]; [done|].
    rewrite join_cons_ne, startswith_sep_app; [done| |done].
    destruct Hc as [Hc%proper_name_spec | ->]; [tauto | done].
Qed.

Lemma entry_path_rooted s p e :
  Forall (fun c => proper_name c = true) s -> s <> [] ->
  Forall (fun c => proper_name c = true) p ->
  proper_name e = true ->
  PosixPath.join (PosixPath.join (rooted s) (relative p)) e
  = rooted (s ++ spelled p ++ [e]).
Proof.
  intros Hs Hsne Hp He. rewrite dir_path_rooted by done.
  destruct (spelled_spec p Hp) as (_ & Hqne & Hq & _).
  assert (Hsq : Forall (fun x => x <> "" /\ contains sep x = false)
                  (s ++ spelled p)).
  { apply Forall_app. split; [by apply proper_plain | by apply dotted_plain]. }
  destruct (rooted_end _ Hsq) as [Hn Hend]; [by destruct s|].
  rewrite posix_join_plain by (done || by apply proper_not_abs).
  unfold rooted. rewrite List.app_assoc, join_snoc by by destruct s.
  by rewrite !app_assoc.
Qed.

Lemma normpath_entry_path s p e :
  Forall (fun c => proper_name c = true) s -> s <> [] ->
  Forall (fun c => proper_name c = true) p ->
  proper_name e = true ->
  PosixPath.normpath (rooted (s ++ spelled p ++ [e])) = rooted (s ++ p ++ [e]).
Proof.
  intros Hs Hsne Hp He.
  destruct (spelled_spec p Hp) as (_ & Hqne & Hq & Hf).
  assert (Hfilter : filter (fun c => Is_true (proper_name c))
                      (s ++ spelled p ++ [e]) = s ++ p ++ [e]).
  { rewrite !filter_app, filter_proper_id, Hf by done.
    by rewrite filter_cons_True by (rewrite He; exact I). }
  rewrite normpath_rooted; rewrite ?Hfilter; try done.
  - apply Forall_app. split.
    + eapply Forall_impl; [exact Hs|]. by left.
    + apply Forall_app. split; [done|]. apply Forall_singleton. by left.
  - by destruct s.
  - by destruct s.
Qed.

Lemma lookup_entry_path w s p e :
  Forall (fun c => proper_name c = true) s -> s <> [] ->
  Forall (fun c => proper_name c = true) p ->
  proper_name e = true ->
  OS.lookup w (rooted (s ++ spelled p ++ [e]))
  = OS.lookup w (rooted (s ++ p ++ [e])).
Proof.
  intros Hs Hsne Hp He.
  destruct (spelled_spec p Hp) as (_ & Hqne & Hq & Hf).
  unfold OS.lookup. rewrite !resolve_rooted; try (by destruct s).
  - cbn [OS.walk]. destruct (fs w !! []) as [[]|]; [done| |done].
    change (String.eqb "" "" || String.eqb "" ".") with true. cbv iota.
    rewrite !List.app_assoc, walk_drop_dots; [|..|done].
    + by rewrite filter_app, filter_proper_id, Hf.
    + apply Forall_app. split; [|done].
      eapply Forall_impl; [exact Hs|]. by left.
  - apply proper_no_sep, Forall_app. split; [done|].
    apply Forall_app. split; [done | by apply Forall_singleton].
  - apply Forall_app. split; [by apply proper_no_sep|].
    apply Forall_app. split.
    + eapply Forall_impl; [exact (dotted_plain _ Hq)|]. by intros c [_ ?].
    + apply Forall_singleton. by apply proper_name_spec in He as (_&_&_&?).
Qed.

Lemma entry_relpath cwd s p e :
  Forall (fun c => proper_name c = true) s -> s <> [] ->
  Forall (fun c => proper_name c = true) p ->
  proper_name e = true ->
  PosixPath.relpath cwd
    (PosixPath.join (PosixPath.join (rooted s) (relative p)) e) (rooted s)
  = Some (PyStr.join "/" (p ++ [e])).
Proof.
  intros Hs Hsne Hp He. rewrite entry_path_rooted by done.
  apply relpath_below; try done.
  - apply Forall_app. split; [done | by apply Forall_singleton].
  - by destruct p.
  - by apply normpath_entry_path.
Qed.

Lemma join_key_suffix p n :
  PyStr.join "/" (p ++ [n +:+ ".gpg"]) = PyStr.join "/" (p ++ [n]) +:+ ".gpg".
Proof.
  destruct (decide (p = [])) as [->|Hp]; [done|].
  by rewrite !join_snoc, !app_assoc by done.
Qed.

(** The name of the file of a secret: the store name of the path of the
    entry is the key, and the file of that key is the entry. *)
Lemma key_of_entry st w s p n :
  store_dir st = rooted s ->
  Forall (fun c => proper_name c = true) s -> s <> [] ->
  Forall (fun c => proper_name c = true) p ->
  proper_name n = true -> proper_name (n +:+ ".gpg") = true ->
  let entry_path :=
    PosixPath.join (PosixPath.join (store_dir st) (relative p))
      (n +:+ ".gpg") in
  let key := PyStr.join "/" (p ++ [n]) in
  Methods.store_name_at st w entry_path = key
  /\ key <> ""
  /\ OS.lookup w (Methods.key_path_of st key) = OS.lookup w entry_path.
Proof.
  intros Hst Hs Hsne Hp Hn He entry_path key.
  assert (Hpn : Forall (fun c => proper_name c = true) (p ++ [n]))
    by (apply Forall_app; split; [done | by apply Forall_singleton]).
  assert (Hpe : Forall (fun c => proper_name c = true) (p ++ [n +:+ ".gpg"]))
    by (apply Forall_app; split; [done | by apply Forall_singleton]).
  destruct (join_proper_nonempty (p ++ [n]) Hpn) as (Hkne & _ & _);
    [by destruct p|].
  split; [|split; [done|]].
  - unfold Methods.store_name_at, Methods._get_store_name, entry_path.
    rewrite Hst, entry_relpath by done.
    rewrite join_key_suffix, endswith_app_same. cbn [fst].
    apply drop_last_suffix.
  - unfold entry_path. rewrite Hst, entry_path_rooted by done.
    rewrite lookup_entry_path by done.
    unfold Methods.key_path_of, key. rewrite Hst.
    rewrite normpath_relative by (done || by destruct p).
    rewrite <- join_key_suffix.
    destruct (join_proper_nonempty _ Hpe) as (_ & _ & Hab); [by destruct p|].
    destruct (rooted_end s (proper_plain s Hs) Hsne) as [Hrn Hre].
    rewrite posix_join_plain by done.
    unfold rooted.
    rewrite (join_app s (p ++ [n +:+ ".gpg"])) by (done || by destruct p).
    by rewrite !app_assoc.
Qed.

(** A pattern without separator ends a path as it ends the last
    component. *)
Lemma endswith_below_sep t a e :
  contains sep t = false ->
  endswith t (a +:+ "/" +:+ e) = endswith t e.
Proof.
  intros Ht.
  assert (Hno : forall x, contains sep x = true -> String.eqb x t = false).
  { intros x Hx. apply eqb_false_iff. intros ->. congruence. }
  induction a as [|c a IH].
  - rewrite app_nil_l. change ("/" +:+ e) with (String sep e).
    cbn [endswith]. rewrite Hno; [done|]. cbn [contains].
    by rewrite Ascii.eqb_refl.
  - rewrite app_cons. cbn [endswith]. rewrite IH, Hno; [done|].
    rewrite <- app_cons, contains_app.
    change ("/" +:+ e) with (String sep e). cbn [contains].
    by rewrite Ascii.eqb_refl, orb_true_r.
Qed.

Lemma endswith_join t p e :
  contains sep t = false ->
  endswith t (PyStr.join "/" (p ++ [e])) = endswith t e.
Proof.
  intros Ht. destruct (decide (p = [])) as [->|Hp]; [done|].
  rewrite join_snoc by done. by apply endswith_below_sep.
Qed.

Lemma cut_gpg_suffix n : cut_gpg (n +:+ ".gpg") = n.
Proof. unfold cut_gpg. by rewrite endswith_app_same, drop_last_suffix. Qed.

(** The store name of an entry of the directory [p]: the path from the
    store to the entry, its ending [.gpg] cut. *)
Lemma name_of_entry st w s p e :
  store_dir st = rooted s ->
  Forall (fun c => proper_name c = true) s -> s <> [] ->
  Forall (fun c => proper_name c = true) p ->
  proper_name e = true ->
  Methods.store_name_at st w
    (PosixPath.join (PosixPath.join (store_dir st) (relative p)) e)
  = PyStr.join "/" (p ++ [cut_gpg e]).
Proof.
  intros Hst Hs Hsne Hp He.
  unfold Methods.store_name_at, Methods._get_store_name.
  rewrite Hst, entry_relpath by done.
  rewrite endswith_join by done. unfold cut_gpg.
  destruct (endswith ".gpg" e) eqn:Hg; [|done].
  apply endswith_inv in Hg as [n ->]. cbn [fst].
  by rewrite join_key_suffix, !drop_last_suffix.
Qed.

(** An entry of a directory resolves to the directory's key and its
    name. *)
Lemma resolve_entry w d k e :
  OS.resolve w d = Return k -> fs w !! k = Some Dir ->
  endswith "/" d = false -> proper_name e = true ->
  OS.resolve w (PosixPath.join d e) = Return (k ++ [e]).
Proof.
  intros Hr Hk Hend He. pose proof (resolve_nonempty _ _ _ Hr) as Hd.
  pose proof He as (H1 & H2 & H3 & Hs)%proper_name_spec.
  rewrite posix_join_plain by (done || by apply proper_not_abs).
  rewrite resolve_walk by (by destruct d).
  rewrite resolve_walk in Hr by done.
  change ("/" +:+ e) with (String sep e).
  rewrite split_app_sep, walk_app, start_app, Hr by done.
  rewrite (split_no_sep _ _ Hs). cbn [OS.walk]. rewrite Hk.
  apply eqb_false_iff in H1, H2, H3. by rewrite H1, H2, H3.
Qed.

End CleanFacts.

(** * More of the store: generation, removal, traversal *)

Section MoreProperties.

Variable encrypt : list string -> string -> string.
Variable decrypt : string -> option string.
Variable _gen_password : nat -> Z -> bool -> string.
Variable initialised_ok : Store -> World -> bool.
Variable trap_ok : Store -> option string -> World -> bool.
Variable OSError : exn.

Import Methods PathFacts OSFacts.

Local Abbreviation get_key :=
  (Methods.get_key decrypt initialised_ok trap_ok).
Local Abbreviation set_key :=
  (Methods.set_key encrypt initialised_ok trap_ok).
Local Abbreviation gen_key :=
  (Methods.gen_key encrypt decrypt _gen_password initialised_ok trap_ok).
Local Abbreviation init_store :=
  (Methods.init_store encrypt decrypt trap_ok).
Local Abbreviation list_dir :=
  (Methods.list_dir initialised_ok trap_ok).
Local Abbreviation remove_path :=
  (Removal.remove_path OSError initialised_ok trap_ok).
Local Abbreviation iter_dir := (Traversal.iter_dir initialised_ok trap_ok).
Local Abbreviation find := (Traversal.find initialised_ok trap_ok).

Lemma git_add_world st path msg w :
  _git_add_path st path msg w
  = (Return tt, mkWorld (fs w) (cwd w)
                  (staged st (git_log w) (GitAdd path msg)) (entropy w)).
Proof using Type.
  unfold _git_add_path, staged. destruct (repo st); [done|]. by destruct w.
Qed.

Lemma git_remove_world st paths msg recursive commit w :
  _git_remove_path st paths msg recursive commit w
  = (Return tt,
     mkWorld (fs w) (cwd w)
       (staged st (git_log w) (GitRemove paths msg recursive commit))
       (entropy w)).
Proof using Type.
  unfold _git_remove_path, staged. destruct (repo st); [done|]. by destruct w.
Qed.

Lemma write_key_world st key_path data w k ids :
  OS.resolve w key_path = Return k ->
  fs w !! k <> Some Dir ->
  (fs w !! k = None -> OS.proper_leaf key_path = true) ->
  scope_of w key_path = Some ids ->
  _write_key encrypt st key_path data w
  = (Return tt, mkWorld (<[k := File (encrypt ids data)]> (fs w)) (cwd w)
                  (git_log w) (entropy w)).
Proof using Type.
  intros Hr Hk Hleaf Hsc.
  unfold scope_of in Hsc. unfold _write_key. rewrite Hr in *. rewrite Hsc.
  unfold OS.write_file, set_fs. rewrite Hr.
  destruct (fs w !! k) as [[]|]; [done..|]. by rewrite Hleaf.
Qed.

Lemma proper_leaf_key_path st name :
  OS.proper_leaf (key_path_of st name) = true.
Proof using Type.
  unfold key_path_of.
  destruct (join_suffix (store_dir st) (PosixPath.normpath name) ".gpg")
    as [x ->].
  apply proper_leaf_suffix.
Qed.

Lemma lookup_inserted w k n p :
  OS.resolve w p = Return k -> fs w !! k <> Some Dir ->
  OS.lookup (mkWorld (<[k := n]> (fs w)) (cwd w) (git_log w) (entropy w)) p
  = Some n.
Proof using Type.
  intros Hr Hk. apply lookup_resolve. exists k. split.
  - apply (resolve_mono w); [done| |done]. simpl. intros x Hx.
    rewrite lookup_insert_ne; [done|]. intros <-. congruence.
  - simpl. apply lookup_insert_eq.
Qed.

(** X1: [gen_key] on a name that is taken, with neither [force] nor
    [inplace], raises [FileExistsError]; nothing is written and no
    password is drawn. *)
Theorem gen_key_refuses_taken_name st w name length symbols node :
  initialised_ok st w = true ->
  trap_ok st (Some name) w = true ->
  name <> "" ->
  OS.lookup w (key_path_of st name) = Some node ->
  gen_key st (Some name) length symbols false false w
  = (Raise FileExistsError, w).
Proof using Type.
  intros Hi Ht Hne Hl. unfold Methods.gen_key. run. rewrite Hi, Ht.
  destruct name as [|a name]; [congruence|].
  fold (key_path_of st (String a name)).
  assert (OS.exists_ w (key_path_of st (String a name)) = true) as ->; [|done].
  apply exists_lookup. by exists node.
Qed.

(** X2: where the file of the key can be written (its directory is there
    and has a scope, the key is absent or [force] is set on a present
    secret), [gen_key] without [inplace] returns the password it drew,
    makes it the whole content of the secret, touches no other file and
    stages one history entry; [get_key] then returns that password. *)
Theorem gen_key_writes_password_alone st w name length symbols force k ids :
  (forall ids data, decrypt (encrypt ids data) = Some data) ->
  initialised_ok st w = true ->
  trap_ok st (Some name) w = true ->
  name <> "" ->
  PosixPath.isabs (store_dir st) = true ->
  OS.resolve w (key_path_of st name) = Return k ->
  fs w !! k = None
  \/ (force = true /\ exists payload, fs w !! k = Some (File payload)) ->
  scope_of w (key_path_of st name) = Some ids ->
  let password := _gen_password (entropy w) length symbols in
  let w' :=
    mkWorld (<[k := File (encrypt ids password)]> (fs w)) (cwd w)
      (staged st (git_log w)
         (GitAdd (key_path_of st name)
            ("Add generated password for " +:+ PosixPath.normpath name
             +:+ ".")))
      (S (entropy w)) in
  gen_key st (Some name) length symbols force false w
  = (Return (Some password), w')
  /\ (initialised_ok st w' = true ->
      trap_ok st (Some name) w' = true ->
      get_key st (Some name) w' = (Return (Some password), w')).
Proof using Type.
  intros Hde Hi Ht Hne Habs Hr Hk Hsc password w'.
  set (key_path := key_path_of st name) in *.
  set (w1 := mkWorld (fs w) (cwd w) (git_log w) (S (entropy w))).
  assert (Hk' : fs w !! k <> Some Dir).
  { destruct Hk as [-> | [_ [payload ->]]]; done. }
  assert (Hrun : gen_key st (Some name) length symbols force false w
                 = (Return (Some password), w')).
  { unfold Methods.gen_key. run. rewrite Hi, Ht.
    destruct name as [|a name]; [congruence|].
    fold (key_path_of st (String a name)). fold key_path.
    assert (OS.exists_ w key_path && negb (force || false) = false) as ->.
    { destruct Hk as [Hk | [-> _]]; [|apply andb_false_r].
      unfold OS.exists_, OS.lookup. rewrite Hr, Hk.
      by rewrite bool_decide_eq_false_2 by by intros []. }
    rewrite (makedirs_dirname_existing _ _ _ k); [|by apply isabs_join|done].
    unfold draw_password. fold password. fold w1.
    change (negb false) with true. cbv beta iota.
    rewrite (write_key_world st key_path password w1 k ids); try done.
    - by rewrite git_add_world.
    - intros _. apply proper_leaf_key_path. }
  split; [done|]. intros Hi' Ht'.
  apply (get_key_of_present decrypt initialised_ok trap_ok st w' name
           (encrypt ids password)); try done.
  fold key_path. unfold w'.
  rewrite (lookup_same_files
             (mkWorld (<[k := File (encrypt ids password)]> (fs w)) (cwd w)
                (git_log w) (entropy w))) by done.
  by apply lookup_inserted.
Qed.

(** X3: [gen_key] with [inplace] on an absent key (in a directory that is
    there) raises [FileNotFoundError]: no file and no history entry is
    written, but a password has been drawn and is lost. *)
Theorem gen_key_inplace_absent st w name length symbols force k :
  initialised_ok st w = true ->
  trap_ok st (Some name) w = true ->
  name <> "" ->
  PosixPath.isabs (store_dir st) = true ->
  OS.resolve w (key_path_of st name) = Return k ->
  fs w !! k = None ->
  gen_key st (Some name) length symbols force true w
  = (Raise FileNotFoundError,
     mkWorld (fs w) (cwd w) (git_log w) (S (entropy w))).
Proof using Type.
  intros Hi Ht Hne Habs Hr Hk. unfold Methods.gen_key. run. rewrite Hi, Ht.
  destruct name as [|a name]; [congruence|].
  fold (key_path_of st (String a name)).
  set (key_path := key_path_of st (String a name)) in *.
  rewrite orb_true_r, andb_false_r.
  rewrite (makedirs_dirname_existing _ _ _ k); [|by apply isabs_join|done].
  unfold draw_password. change (negb true) with false. cbv beta iota.
  unfold _read_key, OS.read_file, OS.lookup, OS.resolve, OS.start. run.
  cbn [cwd fs]. fold (OS.start w key_path).
  unfold OS.resolve in Hr. destruct (String.eqb key_path ""); [done|].
  by rewrite Hr, Hk.
Qed.

(** X4: where the file of the key can be written, [set_key] changes that
    one file and nothing else in the file system, and stages exactly one
    history entry. *)
Theorem set_key_changes_one_file st w name content force k ids :
  initialised_ok st w = true ->
  trap_ok st (Some name) w = true ->
  name <> "" ->
  PosixPath.isabs (store_dir st) = true ->
  OS.resolve w (key_path_of st name) = Return k ->
  fs w !! k = None
  \/ (force = true /\ exists payload, fs w !! k = Some (File payload)) ->
  scope_of w (key_path_of st name) = Some ids ->
  set_key st (Some name) content force w
  = (Return tt,
     mkWorld (<[k := File (encrypt ids content)]> (fs w)) (cwd w)
       (staged st (git_log w)
          (GitAdd (key_path_of st name)
             ("Add given password for " +:+ PosixPath.normpath name
              +:+ " to store.")))
       (entropy w)).
Proof using Type.
  intros Hi Ht Hne Habs Hr Hk Hsc. unfold Methods.set_key. run.
  rewrite Hi, Ht. destruct name as [|a name]; [congruence|].
  fold (key_path_of st (String a name)).
  set (key_path := key_path_of st (String a name)) in *.
  assert (OS.exists_ w key_path && negb force = false) as ->.
  { destruct Hk as [Hk | [-> _]]; [|apply andb_false_r].
    unfold OS.exists_, OS.lookup. rewrite Hr, Hk.
    by rewrite bool_decide_eq_false_2 by by intros []. }
  rewrite (makedirs_dirname_existing _ _ _ k); [|by apply isabs_join|done].
  rewrite (write_key_world st key_path content w k ids); try done.
  - by rewrite git_add_world.
  - destruct Hk as [-> | [_ [payload ->]]]; done.
  - intros _. apply proper_leaf_key_path.
Qed.

(** What resolved to a node that is gone resolves to nothing when the
    file system has only shrunk. *)
Lemma lookup_gone w w' p k :
  cwd w' = cwd w ->
  (forall x, fs w' !! x = Some Dir -> fs w !! x = Some Dir) ->
  OS.resolve w p = Return k -> fs w' !! k = None ->
  OS.lookup w' p = None.
Proof using Type.
  intros Hc Hsub Hr Hk. unfold OS.lookup.
  destruct (OS.resolve w' p) as [k'|] eqn:Hr'; [|done].
  apply (resolve_mono w' w) in Hr'; [|done..]. congruence.
Qed.

Lemma exists_gone w w' p k :
  cwd w' = cwd w ->
  (forall x, fs w' !! x = Some Dir -> fs w !! x = Some Dir) ->
  OS.resolve w p = Return k -> fs w' !! k = None ->
  OS.exists_ w' p = false.
Proof using Type.
  intros Hc Hsub Hr Hk. unfold OS.exists_.
  rewrite (lookup_gone w w' p k) by done.
  by rewrite bool_decide_eq_false_2 by by intros [].
Qed.

Lemma isdir_resolve w p :
  OS.isdir w p = true <->
  exists k, OS.resolve w p = Return k /\ fs w !! k = Some Dir.
Proof using Type.
  unfold OS.isdir. rewrite <- lookup_resolve.
  destruct (OS.lookup w p) as [[]|]; by split.
Qed.

(** X5: [remove_path] of a name that is neither a directory nor a secret
    raises [FileNotFoundError] and changes nothing. *)
Theorem remove_path_missing st w path recursive :
  initialised_ok st w = true ->
  trap_ok st (Some path) w = true ->
  OS.isdir w (removal_path st path) = false ->
  OS.isfile w (removal_path st path +:+ ".gpg") = false ->
  remove_path st (Some path) recursive w = (Raise FileNotFoundError, w).
Proof using Type.
  intros Hi Ht Hd Hf. unfold Removal.remove_path. run. rewrite Hi, Ht.
  fold (removal_path st path). by rewrite Hd, Hf.
Qed.

(** X6: [remove_path] of a secret (no directory has its name) deletes the
    file of the secret and no other entry, and stages its removal;
    the path then no longer exists. *)
Theorem remove_path_secret st w path recursive k payload :
  initialised_ok st w = true ->
  trap_ok st (Some path) w = true ->
  OS.isdir w (removal_path st path) = false ->
  OS.resolve w (removal_path st path +:+ ".gpg") = Return k ->
  fs w !! k = Some (File payload) ->
  let w' :=
    mkWorld (delete k (fs w)) (cwd w)
      (staged st (git_log w)
         (GitRemove [removal_path st path +:+ ".gpg"]
            ("Remove " +:+ path +:+ " from store.") recursive true))
      (entropy w) in
  remove_path st (Some path) recursive w = (Return tt, w')
  /\ OS.exists_ w' (removal_path st path +:+ ".gpg") = false.
Proof using Type.
  intros Hi Ht Hd Hr Hk w'.
  set (key_path := removal_path st path +:+ ".gpg") in *.
  set (w1 := mkWorld (delete k (fs w)) (cwd w) (git_log w) (entropy w)).
  assert (Hgone : forall w2, fs w2 = fs w1 -> cwd w2 = cwd w ->
                             OS.exists_ w2 key_path = false).
  { intros w2 Hf2 Hc2. apply (exists_gone w w2 key_path k); try done.
    - intros x. rewrite Hf2. simpl. intros Hx.
      by apply lookup_delete_Some in Hx as [_ Hx].
    - rewrite Hf2. simpl. apply lookup_delete_eq. }
  split; [|by apply Hgone].
  unfold Removal.remove_path. run. rewrite Hi, Ht.
  fold (removal_path st path). rewrite Hd. fold key_path.
  assert (OS.isfile w key_path = true) as ->.
  { unfold OS.isfile, OS.lookup. by rewrite Hr, Hk. }
  change (negb true) with false. cbv beta iota.
  unfold OS.remove, set_fs. rewrite Hr, Hk. fold w1.
  rewrite (Hgone w1) by done. change (negb false) with true. cbv beta iota.
  by rewrite git_remove_world.
Qed.

(** X7: [remove_path] with [recursive] of a directory that is named
    neither by [.] nor by [..] and is not the root deletes the directory
    with all that is below it, keeps every other entry as it was, and
    stages the removal. *)
Theorem remove_path_directory_recursive st w path k :
  initialised_ok st w = true ->
  trap_ok st (Some path) w = true ->
  OS.resolve w (removal_path st path) = Return k ->
  fs w !! k = Some Dir ->
  k <> [] ->
  OS.dot_leaf (removal_path st path) = false ->
  exists w',
    remove_path st (Some path) true w = (Return tt, w')
    /\ (forall x, fs w' !! x = if OS.under k x then None else fs w !! x)
    /\ cwd w' = cwd w
    /\ git_log w'
       = staged st (git_log w)
           (GitRemove [removal_path st path]
              ("Remove " +:+ path +:+ " from store.") true true).
Proof using Type.
  intros Hi Ht Hr Hk Hne Hdot.
  assert (Hs : OS.stays (removal_path st path) k = false).
  { unfold OS.stays. by rewrite Hdot, bool_decide_eq_false_2. }
  set (f1 := OS.without_tree (removal_path st path) k (fs w)).
  set (w1 := mkWorld f1 (cwd w) (git_log w) (entropy w)).
  assert (Hf1 : forall x, f1 !! x = if OS.under k x then None else fs w !! x).
  { intros x. unfold f1. rewrite lookup_without_tree, Hs.
    by rewrite andb_true_r. }
  assert (Hgone : forall w2, fs w2 = f1 -> cwd w2 = cwd w ->
                             OS.exists_ w2 (removal_path st path) = false).
  { intros w2 Hf2 Hc2. apply (exists_gone w w2 _ k); try done.
    - intros x. rewrite Hf2, Hf1. by destruct (OS.under k x).
    - rewrite Hf2, Hf1. unfold OS.under.
      by rewrite bool_decide_eq_true_2. }
  eexists. split; [|split; [|split]].
  - unfold Removal.remove_path. run. rewrite Hi, Ht.
    fold (removal_path st path).
    assert (OS.isdir w (removal_path st path) = true) as ->
      by (apply isdir_resolve; by exists k).
    unfold Removal.rmtree. rewrite Hr, Hk, Hs. fold f1. fold w1.
    rewrite (Hgone w1) by done. change (negb false) with true. cbv beta iota.
    by rewrite git_remove_world.
  - done.
  - done.
  - done.
Qed.

(** X8: [remove_path] of a directory without [recursive] removes it when
    it is empty, and raises the error of [os.rmdir], changing nothing,
    when it has entries; a directory named by [.] or [..] is not removed
    even when empty, and the same error comes out. *)
Theorem remove_path_directory_plain st w path k :
  initialised_ok st w = true ->
  trap_ok st (Some path) w = true ->
  OS.resolve w (removal_path st path) = Return k ->
  fs w !! k = Some Dir ->
  k <> [] ->
  (OS.entries (fs w) k <> [] ->
   remove_path st (Some path) false w = (Raise OSError, w))
  /\ (OS.entries (fs w) k = [] ->
      OS.dot_leaf (removal_path st path) = false ->
      remove_path st (Some path) false w
      = (Return tt,
         mkWorld (delete k (fs w)) (cwd w)
           (staged st (git_log w)
              (GitRemove [removal_path st path]
                 ("Remove " +:+ path +:+ " from store.") false true))
           (entropy w)))
  /\ (OS.dot_leaf (removal_path st path) = true ->
      remove_path st (Some path) false w = (Raise OSError, w)).
Proof using Type.
  intros Hi Ht Hr Hk Hne.
  assert (Hd : OS.isdir w (removal_path st path) = true)
    by (apply isdir_resolve; by exists k).
  split; [|split]; intros He; try intros Hdot;
    unfold Removal.remove_path; run; rewrite Hi, Ht;
    fold (removal_path st path); rewrite Hd;
    unfold Removal.rmdir, set_fs; rewrite Hr, Hk.
  - rewrite (bool_decide_eq_false_2 (OS.entries (fs w) k = [])) by done.
    by rewrite andb_false_r.
  - unfold OS.stays. rewrite Hdot.
    rewrite (bool_decide_eq_false_2 (k = [])) by done.
    rewrite bool_decide_eq_true_2 by done.
    change (negb (false || false) && true) with true. cbv beta iota.
    set (w1 := mkWorld (delete k (fs w)) (cwd w) (git_log w) (entropy w)).
    assert (OS.exists_ w1 (removal_path st path) = false) as ->.
    { apply (exists_gone w w1 _ k); try done.
      - intros x. simpl. intros Hx.
        by apply lookup_delete_Some in Hx as [_ Hx].
      - simpl. apply lookup_delete_eq. }
    change (negb false) with true. cbv beta iota.
    by rewrite git_remove_world.
  - unfold OS.stays. by rewrite He.
Qed.

(** [startswith] and [find] of Python, as facts about substrings *)
Lemma startswith_spec p s :
  PyStr.startswith p s = true <-> exists b, s = p +:+ b.
Proof using Type.
  revert s. induction p as [|c p IH]; intros s.
  - split; [by exists s | done].
  - destruct s as [|d s]; cbn [PyStr.startswith].
    + split; [done | by intros [b ?]].
    + rewrite andb_true_iff, Ascii.eqb_eq, IH. split.
      * intros [-> [b ->]]. by exists b.
      * intros [b [= -> ->]]. split; [done | by exists b].
Qed.

Lemma str_find_range s sub :
  Traversal.str_find s sub = (-1)%Z \/ (0 <= Traversal.str_find s sub)%Z.
Proof using Type.
  induction s as [|c s IH]; cbn [Traversal.str_find];
    destruct (PyStr.startswith sub _); try (right; lia); [by left|].
  destruct (Z.eqb_spec (Traversal.str_find s sub) (-1)); [by left|].
  right. lia.
Qed.

(** [s.find(sub) != -1] exactly when [sub] occurs in [s]. *)
Lemma str_find_spec s sub :
  Traversal.str_find s sub <> (-1)%Z <-> exists a b, s = a +:+ sub +:+ b.
Proof using Type.
  split.
  - induction s as [|c s IH]; cbn [Traversal.str_find].
    + destruct (PyStr.startswith sub "") eqn:Hs; [|done].
      apply startswith_spec in Hs as [b ->]. intros _. by exists "", b.
    + destruct (PyStr.startswith sub (String c s)) eqn:Hs.
      { apply startswith_spec in Hs as [b ->]. intros _. by exists "", b. }
      destruct (Z.eqb_spec (Traversal.str_find s sub) (-1)); [done|].
      intros _. destruct (IH n) as (a & b & ->). by exists (String c a), b.
  - intros (a & b & ->). induction a as [|c a IH].
    + rewrite StrFacts.app_nil_l.
      assert (Hs : PyStr.startswith sub (sub +:+ b) = true)
        by (apply startswith_spec; by exists b).
      destruct (sub +:+ b); cbn [Traversal.str_find]; by rewrite Hs.
    + rewrite StrFacts.app_cons. cbn [Traversal.str_find].
      destruct (PyStr.startswith sub _); [done|].
      destruct (Z.eqb_spec (Traversal.str_find (a +:+ sub +:+ b) sub) (-1));
        [done|].
      destruct (str_find_range (a +:+ sub +:+ b) sub); lia.
Qed.

Lemma matches_any_spec key names :
  Traversal.matches_any key names = true <->
  exists name a b, name ∈ names /\ key = a +:+ name +:+ b.
Proof using Type.
  induction names as [|name names IH]; cbn [Traversal.matches_any].
  - split; [done|]. intros (? & ? & ? & Hin & _). by apply elem_of_nil in Hin.
  - destruct (Z.eqb_spec (Traversal.str_find key name) (-1)) as [He|He];
      cbn [negb].
    + rewrite IH. split.
      * intros (n & a & b & Hin & ->). exists n, a, b. split; [by right|done].
      * intros (n & a & b & [->|Hin]%elem_of_cons & ->).
        -- exfalso. apply (proj2 (str_find_spec (a +:+ name +:+ b) name));
             [by exists a, b | done].
        -- by exists n, a, b.
    + split; [|done]. intros _.
      apply str_find_spec in He as (a & b & ->).
      exists name, a, b. split; [by left | done].
Qed.

Lemma find_loop_filter names walk keys :
  Traversal.find_loop names walk keys
  = keys ++ filter (fun key => Is_true (Traversal.matches_any key names)) walk.
Proof using Type.
  revert keys. induction walk as [|key walk IH]; intros keys;
    cbn [Traversal.find_loop].
  - by rewrite app_nil_r.
  - destruct (Traversal.matches_any key names) eqn:Hm.
    + rewrite IH, filter_cons_True by (rewrite Hm; exact I).
      by rewrite <- app_assoc.
    + rewrite IH, filter_cons_False; [done|]. rewrite Hm. intros [].
Qed.

(** X9: [find] returns no key for [None]; otherwise it passes on what the
    walk of the store raises, and of the keys the walk yields it keeps,
    in their order and once each, those in which one of the names
    occurs. *)
Theorem find_keeps_keys_with_a_name limit st w :
  initialised_ok st w = true ->
  find limit st None w = (Return [], w)
  /\ (forall names e w',
        Traversal.iter initialised_ok trap_ok limit st w = (Raise e, w') ->
        find limit st (Some names) w = (Raise e, w'))
  /\ (forall names walk w',
        Traversal.iter initialised_ok trap_ok limit st w = (Return walk, w') ->
        find limit st (Some names) w
        = (Return (filter (fun key =>
                             Is_true (Traversal.matches_any key names)) walk),
           w')
        /\ forall key,
             Traversal.matches_any key names = true <->
             exists name a b, name ∈ names /\ key = a +:+ name +:+ b).
Proof using Type.
  intros Hi. unfold Traversal.find. run. rewrite Hi.
  split; [done|]. split.
  - intros names e w' ->. done.
  - intros names walk w' ->. split; [|intros key; apply matches_any_spec].
    by rewrite find_loop_filter.
Qed.

(** X10: [iter_dir] on a path that is no directory of the store raises
    [FileNotFoundError]. *)
Theorem iter_dir_not_a_directory limit st w path :
  initialised_ok st w = true ->
  trap_ok st (Some path) w = true ->
  OS.isdir w (PosixPath.join (store_dir st) (PosixPath.normpath path))
  = false ->
  iter_dir (S limit) st (Some path) w = (Raise FileNotFoundError, w).
Proof using Type.
  intros Hi Ht Hd. cbn [Traversal.iter_dir]. run. by rewrite Hi, Ht, Hd.
Qed.

Lemma list_dir_loop_world st path_dir entries dirs keys w :
  snd (list_dir_loop st path_dir entries dirs keys w) = w.
Proof using Type.
  revert dirs keys. induction entries as [|e entries IH]; intros dirs keys;
    cbn [list_dir_loop]; [done|].
  destruct (PyStr.startswith "." e); [apply IH|]. run.
  unfold _get_store_name.
  destruct (OS.isdir w _).
  { destruct (PosixPath.relpath _ _ _); [|done].
    destruct (PyStr.endswith ".gpg" _); apply IH. }
  destruct (OS.isfile w _ && PyStr.endswith ".gpg" e); [|apply IH].
  destruct (PosixPath.relpath _ _ _); [|done].
  destruct (PyStr.endswith ".gpg" _); apply IH.
Qed.

Lemma listdir_world p w : snd (OS.listdir p w) = w.
Proof using Type.
  unfold OS.listdir. destruct (OS.resolve w p); [|done].
  by destruct (fs w !! _) as [[]|].
Qed.

Lemma iter_dir_loop_world rec st path_dir entries w :
  (forall path w0, snd (rec path w0) = w0) ->
  snd (Traversal.iter_dir_loop rec st path_dir entries w) = w.
Proof using Type.
  intros Hrec. induction entries as [|entry l IHl];
    cbn [Traversal.iter_dir_loop]; [done|].
  destruct (PyStr.startswith "." entry); [apply IHl|]. run.
  destruct (PosixPath.relpath _ _ _) as [rel|]; [|done].
  destruct (OS.isdir w _).
  - specialize (Hrec (Some rel) w).
    destruct (rec (Some rel) w) as [[below|e] w1]; simpl in Hrec; subst w1;
      [|done].
    destruct (Traversal.iter_dir_loop rec st path_dir l w)
      as [[after|e] w2]; simpl in IHl; by subst w2.
  - destruct (PyStr.endswith ".gpg" entry); [|apply IHl].
    destruct (Traversal.iter_dir_loop rec st path_dir l w)
      as [[after|e] w2]; simpl in IHl; by subst w2.
Qed.

Lemma iter_dir_world limit st path w :
  snd (iter_dir limit st path w) = w.
Proof using Type.
  revert path w. induction limit as [|limit IH]; intros path w;
    cbn [Traversal.iter_dir]; [done|]. run.
  destruct (initialised_ok st w); [|done].
  destruct (trap_ok st path w); [|done].
  destruct path as [path|]; [|done].
  destruct (negb (OS.isdir w _)); [done|].
  pose proof (listdir_world
                (PosixPath.join (store_dir st) (PosixPath.normpath path)) w)
    as Hl.
  destruct (OS.listdir _ w) as [[entries|e] w1]; simpl in Hl; subst w1;
    [|done].
  by apply iter_dir_loop_world.
Qed.

(** X11: reading never writes: whatever they return or raise, [get_key],
    [list_dir], [iter_dir] and [find] leave the files, the history and
    the random source as they found them. *)
Theorem reading_changes_nothing limit st path names w :
  snd (get_key st path w) = w
  /\ snd (list_dir st path w) = w
  /\ snd (iter_dir limit st path w) = w
  /\ snd (find limit st names w) = w.
Proof using Type.
  split; [|split; [|split]].
  - unfold Methods.get_key. run.
    destruct (initialised_ok st w); [|done].
    destruct (trap_ok st path w); [|done].
    destruct path as [[|a path]|]; [done| |done].
    destruct (OS.isfile w _); [|done].
    unfold _read_key, OS.read_file. run.
    destruct (OS.lookup w _) as [[payload|]|]; [|done..].
    by destruct (decrypt payload).
  - unfold Methods.list_dir. run.
    destruct (initialised_ok st w); [|done].
    destruct (trap_ok st path w); [|done].
    destruct path as [path|]; [|done].
    destruct (negb (OS.isdir w _)); [done|].
    pose proof (listdir_world
                  (PosixPath.join (store_dir st) (PosixPath.normpath path)) w)
      as Hl.
    destruct (OS.listdir _ w) as [[entries|e] w1]; simpl in Hl; subst w1;
      [|done].
    apply list_dir_loop_world.
  - apply iter_dir_world.
  - unfold Traversal.find, Traversal.iter. run.
    destruct (initialised_ok st w); [|done].
    destruct names as [names|]; [|done].
    pose proof (iter_dir_world limit st (Some "") w) as Hw.
    destruct (Traversal.iter_dir _ _ _ _ _ w) as [[walk|e] w1];
      simpl in Hw; by subst w1.
Qed.






Import Clean CleanFacts.

Lemma get_key_of_file st w name payload :
  initialised_ok st w = true ->
  trap_ok st (Some name) w = true ->
  name <> "" ->
  OS.lookup w (key_path_of st name) = Some (File payload) ->
  get_key st (Some name) w
  = (match decrypt payload with
     | Some data => Return (Some data)
     | None => Raise GpgError
     end, w).
Proof using Type.
  intros Hi Ht Hne Hl. unfold Methods.get_key. run. rewrite Hi, Ht.
  destruct name as [|a name]; [congruence|].
  unfold key_path_of in Hl. unfold OS.isfile, _read_key, OS.read_file. run.
  rewrite !Hl. by destruct (decrypt payload).
Qed.

(** The directory [list_dir] and [iter_dir] work on, in a store of proper
    names. *)
Lemma store_path_dir st path s p :
  store_dir st = rooted s ->
  Forall (fun c => proper_name c = true) s -> s <> [] ->
  PosixPath.normpath path = relative p ->
  Forall (fun c => proper_name c = true) p ->
  let path_dir := PosixPath.join (store_dir st) (PosixPath.normpath path) in
  path_dir = PosixPath.join (rooted s) (relative p)
  /\ path_dir <> "" /\ PyStr.endswith "/" path_dir = false.
Proof using Type.
  intros Hst Hs Hsne Hnp Hp path_dir. unfold path_dir. rewrite Hst, Hnp.
  split; [done|]. rewrite dir_path_rooted by done.
  destruct (spelled_spec p Hp) as (_ & Hqne & Hq & _).
  apply rooted_end; [|by destruct s].
  apply Forall_app. split; [by apply proper_plain | by apply dotted_plain].
Qed.

Lemma entry_proper w k e :
  proper_names (fs w) -> is_Some (fs w !! (k ++ [e])) ->
  proper_name e = true.
Proof using Type.
  intros Hwf He. apply Hwf in He. apply Forall_app in He as [_ He].
  by inversion He.
Qed.

(** X13: in a store of proper names, every key that [list_dir] returns for
    a directory is the name of a secret that is there: the file of the key
    exists, and [get_key] of the key returns what the file decrypts to. *)
Theorem listed_keys_can_be_read st w path s p dirs keys w' :
  initialised_ok st w = true ->
  trap_ok st (Some path) w = true ->
  store_dir st = rooted s ->
  Forall (fun c => proper_name c = true) s -> s <> [] ->
  PosixPath.normpath path = relative p ->
  Forall (fun c => proper_name c = true) p ->
  proper_names (fs w) ->
  list_dir st (Some path) w = (Return (dirs, keys), w') ->
  forall key, key ∈ keys ->
    key <> ""
    /\ exists payload,
         OS.lookup w (key_path_of st key) = Some (File payload)
         /\ (trap_ok st (Some key) w = true ->
             get_key st (Some key) w
             = (match decrypt payload with
                | Some data => Return (Some data)
                | None => Raise GpgError
                end, w)).
Proof using Type.
  intros Hi Ht Hst Hs Hsne Hnp Hp Hwf Hrun key Hkey.
  destruct (store_path_dir st path s p Hst Hs Hsne Hnp Hp)
    as (Hpd & Hpdne & Hpdend).
  revert Hrun. unfold Methods.list_dir. run. rewrite Hi, Ht.
  set (path_dir := PosixPath.join (store_dir st) (PosixPath.normpath path))
    in *.
  destruct (OS.isdir w path_dir) eqn:Hd; [|done].
  change (negb true) with false. cbv beta iota.
  apply isdir_resolve in Hd as (k & Hr & Hk).
  unfold OS.listdir. rewrite Hr. cbv beta iota. rewrite Hk.
  rewrite (list_dir_loop_spec st w path_dir _ [] [] Hpdne).
  intros [= _ <- _]. cbn [app] in Hkey.
  apply list_elem_of_fmap in Hkey as (e & -> & He).
  apply list_elem_of_filter in He as [Hlisted He].
  destruct (sorted_spec (OS.entries (fs w) k)) as [_ Hperm].
  rewrite Hperm in He. apply entries_spec in He.
  pose proof (entry_proper w k e Hwf He) as Hprop.
  unfold listed_key in Hlisted.
  apply Is_true_true in Hlisted.
  apply andb_true_iff in Hlisted as [[Hh%negb_true_iff Hf]%andb_true_iff Hg].
  destruct (proper_key_name e Hprop Hh Hg) as (n & -> & Hn).
  destruct (key_of_entry st w s p n Hst Hs Hsne Hp Hn Hprop)
    as (Hname & Hne & Hl).
  rewrite <- Hnp in Hname, Hl. fold path_dir in Hname, Hl.
  rewrite Hname. split; [done|].
  unfold OS.isfile in Hf.
  destruct (OS.lookup w (PosixPath.join path_dir (n +:+ ".gpg")))
    as [[payload|]|] eqn:Hlook; [|done..].
  exists payload. split; [done|]. intros Ht'.
  by apply get_key_of_file.
Qed.

Lemma NoDup_entries f k : NoDup (OS.entries f k).
Proof using Type.
  unfold OS.entries. pose proof (NoDup_fst_map_to_list f) as Hnd.
  induction (map_to_list f) as [|[k' v] l IH]; [constructor|].
  rewrite fmap_cons in Hnd. apply NoDup_cons in Hnd as [Hk' Hnd]. csimpl.
  destruct (OS.child_of k k') as [n|] eqn:Hc; [|by apply IH].
  apply NoDup_cons. split; [|by apply IH].
  intros ([k2 v2] & Hin & Hc2)%list_elem_of_omap. simpl in *.
  apply child_of_spec in Hc, Hc2. subst. apply Hk'.
  apply list_elem_of_fmap. by exists (k ++ [n], v2).
Qed.

(** A list without repetition that is in order is strictly in order. *)
Lemma StronglySorted_strict l :
  StronglySorted PyStr.str_le l -> NoDup l -> StronglySorted PyStr.str_lt l.
Proof using Type.
  induction 1 as [|x l Hl IH Hx]; [constructor|].
  intros [Hxl Hnd]%NoDup_cons. constructor; [by apply IH|].
  apply Forall_forall. intros y Hy Hyx.
  rewrite Forall_forall in Hx.
  assert (x = y) by (apply str_le_antisym; [by apply Hx | done]).
  by subst.
Qed.

Lemma filter_ext_in (P Q : string -> bool) l :
  Forall (fun x => P x = Q x) l -> filter P l = filter Q l.
Proof using Type.
  induction 1 as [|x l Hx _ IH]; [done|].
  rewrite !filter_cons, IH. by rewrite Hx.
Qed.

(** C8: [list_dir] raises [FileNotFoundError] unless the path is a
    directory of the store. On a directory (in a store of proper names,
    at an absolute normal path) it lists the entries in the strict order
    of their names by code point: first the directories that are not
    hidden, then the files that are not hidden and end in [.gpg], each
    under the path from the store to the entry with a trailing [.gpg]
    cut. The cut is made for directories too: a directory [n.gpg] is
    listed as [n]. *)
Theorem list_dir_sorted_visible_entries st w path s p :
  initialised_ok st w = true ->
  trap_ok st (Some path) w = true ->
  store_dir st = rooted s ->
  Forall (fun c => proper_name c = true) s -> s <> [] ->
  PosixPath.normpath path = relative p ->
  Forall (fun c => proper_name c = true) p ->
  proper_names (fs w) ->
  let path_dir := PosixPath.join (store_dir st) (PosixPath.normpath path) in
  let name e := PyStr.join "/" (p ++ [cut_gpg e]) in
  (OS.isdir w path_dir = false ->
   list_dir st (Some path) w = (Raise FileNotFoundError, w))
  /\ (forall k,
        OS.resolve w path_dir = Return k -> fs w !! k = Some Dir ->
        exists es,
          StronglySorted PyStr.str_lt es
          /\ (forall e, e ∈ es <-> is_Some (fs w !! (k ++ [e])))
          /\ list_dir st (Some path) w
             = (Return (name <$> filter (shown_dir (fs w) k) es,
                        name <$> filter (shown_key (fs w) k) es), w)
          /\ (forall n,
                fs w !! (k ++ [n +:+ ".gpg"]) = Some Dir ->
                PyStr.startswith "." (n +:+ ".gpg") = false ->
                PyStr.join "/" (p ++ [n])
                ∈ name <$> filter (shown_dir (fs w) k) es)).
Proof using Type.
  intros Hi Ht Hst Hs Hsne Hnp Hp Hwf path_dir name.
  destruct (store_path_dir st path s p Hst Hs Hsne Hnp Hp)
    as (Hpd & Hpdne & Hpdend). fold path_dir in Hpd, Hpdne, Hpdend.
  split.
  { intros Hd. unfold Methods.list_dir. run. rewrite Hi, Ht.
    fold path_dir. by rewrite Hd. }
  intros k Hr Hk.
  assert (Hd : OS.isdir w path_dir = true)
    by (apply isdir_resolve; by exists k).
  destruct (sorted_spec (OS.entries (fs w) k)) as [Hsorted Hperm].
  set (es := PyStr.sorted (OS.entries (fs w) k)) in *.
  assert (Hin : forall e, e ∈ es <-> is_Some (fs w !! (k ++ [e]))).
  { intros e. by rewrite Hperm, entries_spec. }
  assert (Hlook : forall e, e ∈ es ->
            proper_name e = true
            /\ OS.lookup w (PosixPath.join path_dir e) = fs w !! (k ++ [e])).
  { intros e He%Hin. pose proof (entry_proper w k e Hwf He) as Hprop.
    split; [done|]. unfold OS.lookup.
    by rewrite (resolve_entry w path_dir k e Hr Hk Hpdend Hprop). }
  assert (Hnames : forall P : string -> bool,
            (fun e => store_name_at st w (PosixPath.join path_dir e))
              <$> filter P es
            = name <$> filter P es).
  { intros P. apply Forall_fmap_ext_1, Forall_forall.
    intros e [_ He]%list_elem_of_filter.
    destruct (Hlook e He) as [Hprop _]. unfold path_dir. rewrite Hnp.
    by apply (name_of_entry st w s). }
  assert (Hdirs : filter (listed_dir w path_dir) es
                  = filter (shown_dir (fs w) k) es).
  { apply filter_ext_in, Forall_forall. intros e He.
    destruct (Hlook e He) as [_ Hl].
    unfold listed_dir, shown_dir, OS.isdir, OS.is_dir. by rewrite Hl. }
  assert (Hkeys : filter (listed_key w path_dir) es
                  = filter (shown_key (fs w) k) es).
  { apply filter_ext_in, Forall_forall. intros e He.
    destruct (Hlook e He) as [_ Hl].
    unfold listed_key, shown_key, OS.isfile. by rewrite Hl. }
  exists es. split; [|split; [done|split]].
  - apply StronglySorted_strict; [done|].
    rewrite Hperm. apply NoDup_entries.
  - unfold Methods.list_dir. run. rewrite Hi, Ht. fold path_dir.
    rewrite Hd. change (negb true) with false. cbv beta iota.
    unfold OS.listdir. rewrite Hr. cbv beta iota. rewrite Hk. fold es.
    rewrite (list_dir_loop_spec st w path_dir _ [] [] Hpdne).
    cbn [app]. by rewrite !Hnames, Hdirs, Hkeys.
  - intros n Hn Hh. apply list_elem_of_fmap. exists (n +:+ ".gpg").
    split; [unfold name; by rewrite cut_gpg_suffix|].
    apply list_elem_of_filter. split.
    + unfold shown_dir, OS.is_dir. rewrite Hh, Hn. exact I.
    + apply Hin. by rewrite Hn.
Qed.

Lemma dir_path_end s p :
  Forall (fun c => proper_name c = true) s -> s <> [] ->
  Forall (fun c => proper_name c = true) p ->
  PyStr.endswith "/" (PosixPath.join (rooted s) (relative p)) = false.
Proof using Type.
  intros Hs Hsne Hp. rewrite dir_path_rooted by done.
  destruct (spelled_spec p Hp) as (_ & Hqne & Hq & _).
  apply rooted_end; [|by destruct s].
  apply Forall_app. split; [by apply proper_plain | by apply dotted_plain].
Qed.

Local Abbreviation readable st w key :=
  (key%_string <> ""
   /\ exists payload,
        OS.lookup w (key_path_of st key%_string) = Some (File payload)
        /\ (trap_ok st (Some key%_string) w = true ->
            get_key st (Some key%_string) w
            = (match decrypt payload with
               | Some data => Return (Some data)
               | None => Raise GpgError
               end, w))).

(** The loop of [iter_dir] over the entries of the directory [p] yields
    names of secrets that are there, if the calls on the directories below
    do. *)
Lemma iter_dir_loop_readable rec st w s p k l :
  initialised_ok st w = true ->
  store_dir st = rooted s ->
  Forall (fun c => proper_name c = true) s -> s <> [] ->
  Forall (fun c => proper_name c = true) p ->
  proper_names (fs w) ->
  let path_dir := PosixPath.join (rooted s) (relative p) in
  OS.resolve w path_dir = Return k -> fs w !! k = Some Dir ->
  (forall e below w1,
     proper_name e = true ->
     rec (Some (PyStr.join "/" (p ++ [e]))) w = (Return below, w1) ->
     w1 = w /\ forall key, key ∈ below -> readable st w key) ->
  forall walk w',
    (forall e, e ∈ l -> is_Some (fs w !! (k ++ [e]))) ->
    Traversal.iter_dir_loop rec st path_dir l w = (Return walk, w') ->
    w' = w /\ forall key, key ∈ walk -> readable st w key.
Proof using Type.
  intros Hi Hst Hs Hsne Hp Hwf path_dir Hr Hk Hrec.
  induction l as [|e l IH]; intros walk w' Hall;
    cbn [Traversal.iter_dir_loop].
  { run. intros [= <- <-]. split; [done|]. intros key Hkey.
    by apply elem_of_nil in Hkey. }
  assert (Hl : forall e0, e0 ∈ l -> is_Some (fs w !! (k ++ [e0])))
    by (intros e0 He0; apply Hall; by right).
  assert (He : is_Some (fs w !! (k ++ [e]))) by (apply Hall; by left).
  destruct (PyStr.startswith "." e) eqn:Hh; [by apply IH|].
  pose proof (entry_proper w k e Hwf He) as Hprop.
  run. rewrite Hst. unfold path_dir at 1. rewrite entry_relpath by done.
  destruct (OS.isdir w (PosixPath.join path_dir e)) eqn:Hd.
  - destruct (rec (Some (PyStr.join "/" (p ++ [e]))) w)
      as [[below|ex] w1] eqn:Hb; [|done].
    destruct (Hrec e below w1 Hprop Hb) as [-> Hbelow].
    destruct (Traversal.iter_dir_loop rec st path_dir l w)
      as [[after|ex] w2] eqn:Ha; [|done].
    destruct (IH after w2 Hl eq_refl) as [-> Hafter].
    intros [= <- <-]. split; [done|].
    intros key [Hkey|Hkey]%elem_of_app; [by apply Hbelow | by apply Hafter].
  - destruct (PyStr.endswith ".gpg" e) eqn:Hg; [|by apply IH].
    destruct (Traversal.iter_dir_loop rec st path_dir l w)
      as [[after|ex] w2] eqn:Ha; [|done].
    destruct (IH after w2 Hl eq_refl) as [-> Hafter].
    intros [= <- <-]. split; [done|].
    intros key [->|Hkey]%elem_of_cons; [|by apply Hafter].
    destruct (proper_key_name e Hprop Hh Hg) as (n & -> & Hn).
    rewrite join_key_suffix, drop_last_suffix.
    destruct (key_of_entry st w s p n Hst Hs Hsne Hp Hn Hprop)
      as (_ & Hne & Hlook).
    rewrite Hst in Hlook. fold path_dir in Hlook.
    pose proof (resolve_entry w path_dir k (n +:+ ".gpg") Hr Hk
                  (dir_path_end s p Hs Hsne Hp) Hprop) as Hre.
    assert (Hfile : exists payload,
               OS.lookup w (PosixPath.join path_dir (n +:+ ".gpg"))
               = Some (File payload)).
    { unfold OS.isdir in Hd. unfold OS.lookup in *. rewrite Hre in *.
      destruct He as [[payload|] He]; rewrite He in *; [by exists payload|].
      done. }
    destruct Hfile as [payload Hfile]. split; [done|].
    exists payload. split; [by rewrite Hlook|]. intros Ht.
    apply get_key_of_file; [done..|]. by rewrite Hlook.
Qed.

(** X14: in a store of proper names, every key that [iter_dir] yields is
    the name of a secret that is there, however deep below the directory:
    the file of the key exists, and [get_key] of the key returns what the
    file decrypts to. *)
Theorem walked_keys_can_be_read limit st w path s p walk w' :
  store_dir st = rooted s ->
  Forall (fun c => proper_name c = true) s -> s <> [] ->
  PosixPath.normpath path = relative p ->
  Forall (fun c => proper_name c = true) p ->
  proper_names (fs w) ->
  iter_dir limit st (Some path) w = (Return walk, w') ->
  forall key, key ∈ walk ->
    key <> ""
    /\ exists payload,
         OS.lookup w (key_path_of st key) = Some (File payload)
         /\ (trap_ok st (Some key) w = true ->
             get_key st (Some key) w
             = (match decrypt payload with
                | Some data => Return (Some data)
                | None => Raise GpgError
                end, w)).
Proof using Type.
  intros Hst Hs Hsne Hnp Hp Hwf Hrun.
  cut (w' = w /\ forall key, key ∈ walk -> readable st w key); [by intros []|].
  revert path p walk w' Hnp Hp Hrun.
  induction limit as [|limit IH]; intros path p walk w' Hnp Hp;
    cbn [Traversal.iter_dir]; [done|]. run.
  destruct (initialised_ok st w) eqn:Hi; [|done].
  destruct (trap_ok st (Some path) w); [|done].
  rewrite Hnp, Hst.
  set (path_dir := PosixPath.join (rooted s) (relative p)).
  destruct (OS.isdir w path_dir) eqn:Hd; [|done].
  change (negb true) with false. cbv beta iota.
  apply isdir_resolve in Hd as (k & Hr & Hk).
  unfold OS.listdir. rewrite Hr. cbv beta iota. rewrite Hk.
  apply (iter_dir_loop_readable (Traversal.iter_dir initialised_ok trap_ok
                                   limit st) st w s p k); try done.
  - intros e below w1 He Hb.
    apply (IH (PyStr.join "/" (p ++ [e])) (p ++ [e])); [| |done].
    + replace (relative (p ++ [e])) with (PyStr.join "/" (p ++ [e]))
        by by destruct p.
      apply normpath_relative; [|by destruct p].
      apply Forall_app. split; [done | by apply Forall_singleton].
    + apply Forall_app. split; [done | by apply Forall_singleton].
  - intros e He. destruct (sorted_spec (OS.entries (fs w) k)) as [_ Hperm].
    rewrite Hperm in He. by apply entries_spec in He.
Qed.

End MoreProperties.

(** ** The toy store again *)

Module DemoRestFacts.
Import Clean.

Lemma toy_files_listed key n :
  Demo.files !! key = Some n ->
  key ∈ [[]; ["home"]; ["s"]; ["s"; ".gpg-id"]; ["s"; "b.gpg"];
         ["s"; "a.gpg"]; ["s"; "notes.txt"]; ["s"; "d"];
         ["s"; "d"; ".gpg-id"]; ["s"; "d"; "x.gpg"]].
Proof.
  intros E. apply elem_of_list_to_map_2 in E.
  repeat (apply elem_of_cons in E as [E|E];
          [injection E as -> _; set_solver|]).
  by apply elem_of_nil in E.
Qed.

Lemma toy_proper_names : proper_names Demo.files.
Proof.
  intros key [n E]. apply toy_files_listed in E.
  repeat (apply elem_of_cons in E as [->|E]; [by repeat constructor|]).
  by apply elem_of_nil in E.
Qed.

Lemma proper_names_insert f key v :
  proper_names f -> Forall (fun c => proper_name c = true) key ->
  proper_names (<[key := v]> f).
Proof.
  intros Hf Hkey key' [n [[<- _]|[_ Hn]]%lookup_insert_Some]; [done|].
  by apply Hf.
Qed.


End DemoRestFacts.

Import DemoRest DemoRestFacts.

Lemma gen_key_refuses_taken_name_witness :
  gen_key store (Some "b") 12 true false false world
  = (Raise FileExistsError, world).
Proof.
  apply (gen_key_refuses_taken_name encrypt decrypt _gen_password
           initialised_ok trap_ok store world "b" 12 true
           (File (encrypt ["alice"] "pw-b")));
    [reflexivity | vm_compute; reflexivity | discriminate
    | vm_compute; reflexivity].
Defined.

Lemma gen_key_writes_password_alone_witness :
  exists w',
    gen_key store (Some "new") 8 true false false world
    = (Return (Some "aaaaaaaa"), w')
    /\ fs w' = <[ ["s"; "new.gpg"] := File (encrypt ["alice"] "aaaaaaaa") ]>
                 files
    /\ (initialised_ok store w' = true ->
        trap_ok store (Some "new") w' = true ->
        get_key store (Some "new") w' = (Return (Some "aaaaaaaa"), w')).
Proof.
  destruct (gen_key_writes_password_alone encrypt decrypt _gen_password
              initialised_ok trap_ok store world "new" 8 true false
              ["s"; "new.gpg"] ["alice"]) as [Hrun Hget];
    [apply toy_decrypt_encrypt | reflexivity | vm_compute; reflexivity
    | discriminate | reflexivity | vm_compute; reflexivity
    | left; vm_compute; reflexivity | vm_compute; reflexivity |].
  eexists. split; [exact Hrun|]. split; [reflexivity | exact Hget].
Defined.

Lemma gen_key_inplace_absent_witness :
  gen_key store (Some "new") 8 true false true world
  = (Raise FileNotFoundError, mkWorld files ["home"] [] 1).
Proof.
  apply (gen_key_inplace_absent encrypt decrypt _gen_password initialised_ok
           trap_ok store world "new" 8 true false ["s"; "new.gpg"]);
    [reflexivity | vm_compute; reflexivity | discriminate | reflexivity
    | vm_compute; reflexivity | vm_compute; reflexivity].
Defined.

Lemma set_key_changes_one_file_witness :
  set_key store (Some "new") "hello" false world
  = (Return tt,
     mkWorld (<[ ["s"; "new.gpg"] := File (encrypt ["alice"] "hello") ]> files)
       ["home"]
       [GitAdd "/s/new.gpg" "Add given password for new to store."] 0).
Proof.
  apply (set_key_changes_one_file encrypt initialised_ok trap_ok store world
           "new" "hello" false ["s"; "new.gpg"] ["alice"]);
    [reflexivity | vm_compute; reflexivity | discriminate | reflexivity
    | vm_compute; reflexivity | left; vm_compute; reflexivity
    | vm_compute; reflexivity].
Defined.

Lemma remove_path_missing_witness :
  remove_path store (Some "nothing") false world
  = (Raise FileNotFoundError, world).
Proof.
  apply (remove_path_missing initialised_ok trap_ok ValueError store world
           "nothing" false);
    [reflexivity | vm_compute; reflexivity | vm_compute; reflexivity
    | vm_compute; reflexivity].
Defined.

Lemma remove_path_secret_witness :
  exists w',
    remove_path store (Some "b") false world = (Return tt, w')
    /\ fs w' = delete ["s"; "b.gpg"] files
    /\ git_log w'
       = [GitRemove ["/s/b.gpg"] "Remove b from store." false true]
    /\ OS.exists_ w' "/s/b.gpg" = false.
Proof.
  destruct (remove_path_secret initialised_ok trap_ok ValueError store world
              "b" false ["s"; "b.gpg"] (encrypt ["alice"] "pw-b"))
    as [Hrun Hgone];
    [reflexivity | vm_compute; reflexivity | vm_compute; reflexivity
    | vm_compute; reflexivity | vm_compute; reflexivity |].
  eexists. split; [exact Hrun|].
  split; [reflexivity|]. split; [reflexivity | exact Hgone].
Defined.

Lemma remove_path_directory_recursive_witness :
  exists w',
    remove_path store (Some "d") true world = (Return tt, w')
    /\ (forall x,
          fs w' !! x = if OS.under ["s"; "d"] x then None else files !! x)
    /\ cwd w' = ["home"]
    /\ git_log w' = [GitRemove ["/s/d"] "Remove d from store." true true].
Proof.
  apply (remove_path_directory_recursive initialised_ok trap_ok ValueError
           store world "d" ["s"; "d"]);
    [reflexivity | vm_compute; reflexivity | vm_compute; reflexivity
    | vm_compute; reflexivity | discriminate | vm_compute; reflexivity].
Defined.

Lemma remove_path_directory_plain_witness :
  remove_path store (Some "d") false world = (Raise ValueError, world)
  /\ remove_path store (Some "e") false world_with_empty
     = (Return tt,
        mkWorld (delete ["s"; "e"] (<[ ["s"; "e"] := Dir ]> files)) ["home"]
          [GitRemove ["/s/e"] "Remove e from store." false true] 0)
  /\ remove_path dot_store (Some "") false world_in_store
     = (Raise ValueError, world_in_store).
Proof.
  split; [|split].
  - destruct (remove_path_directory_plain initialised_ok trap_ok ValueError
                store world "d" ["s"; "d"]) as (Hfull & _ & _);
      [reflexivity | vm_compute; reflexivity | vm_compute; reflexivity
      | vm_compute; reflexivity | discriminate |].
    apply Hfull. vm_compute. discriminate.
  - destruct (remove_path_directory_plain initialised_ok trap_ok ValueError
                store world_with_empty "e" ["s"; "e"]) as (_ & Hempty & _);
      [vm_compute; reflexivity | vm_compute; reflexivity
      | vm_compute; reflexivity | vm_compute; reflexivity | discriminate |].
    apply Hempty; vm_compute; reflexivity.
  - destruct (remove_path_directory_plain initialised_ok trap_ok ValueError
                dot_store world_in_store "" ["s"]) as (_ & _ & Hdot);
      [vm_compute; reflexivity | vm_compute; reflexivity
      | vm_compute; reflexivity | vm_compute; reflexivity | discriminate |].
    apply Hdot. vm_compute. reflexivity.
Defined.

Lemma find_keeps_keys_with_a_name_witness :
  find 5 store None world = (Return [], world)
  /\ find 5 store (Some ["x"; "b"]) world = (Return ["b"; "d/x"], world).
Proof.
  destruct (find_keeps_keys_with_a_name initialised_ok trap_ok 5 store world
              eq_refl) as (Hnone & _ & Hsome).
  split; [exact Hnone|].
  destruct (Hsome ["x"; "b"] ["a"; "b"; "d/x"] world) as [Hrun _];
    [vm_compute; reflexivity|].
  exact Hrun.
Defined.

Lemma iter_dir_not_a_directory_witness :
  iter_dir 3 store (Some "nothing") world = (Raise FileNotFoundError, world).
Proof.
  apply (iter_dir_not_a_directory initialised_ok trap_ok 2 store world
           "nothing");
    [reflexivity | vm_compute; reflexivity | vm_compute; reflexivity].
Defined.


Lemma listed_keys_can_be_read_witness :
  list_dir store (Some "") world = (Return (["d"], ["a"; "b"]), world)
  /\ forall key, key ∈ ["a"; "b"] ->
       key <> ""
       /\ exists payload,
            OS.lookup world (key_path_of store key) = Some (File payload)
            /\ (trap_ok store (Some key) world = true ->
                get_key store (Some key) world
                = (match decrypt payload with
                   | Some data => Return (Some data)
                   | None => Raise GpgError
                   end, world)).
Proof.
  split; [vm_compute; reflexivity|].
  apply (listed_keys_can_be_read decrypt initialised_ok trap_ok store world
           "" ["s"] [] ["d"] ["a"; "b"] world);
    [reflexivity | vm_compute; reflexivity | reflexivity
    | repeat constructor | discriminate | vm_compute; reflexivity
    | constructor | apply toy_proper_names | vm_compute; reflexivity].
Defined.

Lemma walked_keys_can_be_read_witness :
  iter_dir 5 store (Some "") world = (Return ["a"; "b"; "d/x"], world)
  /\ forall key, key ∈ ["a"; "b"; "d/x"] ->
       key <> ""
       /\ exists payload,
            OS.lookup world (key_path_of store key) = Some (File payload)
            /\ (trap_ok store (Some key) world = true ->
                get_key store (Some key) world
                = (match decrypt payload with
                   | Some data => Return (Some data)
                   | None => Raise GpgError
                   end, world)).
Proof.
  split; [vm_compute; reflexivity|].
  apply (walked_keys_can_be_read decrypt initialised_ok trap_ok 5 store world
           "" ["s"] [] ["a"; "b"; "d/x"] world);
    [reflexivity | repeat constructor | discriminate
    | vm_compute; reflexivity | constructor | apply toy_proper_names
    | vm_compute; reflexivity].
Defined.

Lemma list_dir_sorted_visible_entries_witness :
  (exists dirs keys,
     list_dir store (Some "") world_with_gpg_dir
     = (Return (dirs, keys), world_with_gpg_dir)
     /\ "x" ∈ dirs)
  /\ list_dir store (Some "x") world_with_gpg_dir
     = (Raise FileNotFoundError, world_with_gpg_dir).
Proof.
  assert (Hwf : Clean.proper_names (fs world_with_gpg_dir)).
  { apply proper_names_insert; [apply toy_proper_names|].
    by repeat constructor. }
  split.
  - destruct (list_dir_sorted_visible_entries initialised_ok trap_ok store
                world_with_gpg_dir "" ["s"] [])
      as [_ Hlist];
      [vm_compute; reflexivity | vm_compute; reflexivity | reflexivity
      | repeat constructor | discriminate | vm_compute; reflexivity
      | constructor | exact Hwf |].
    destruct (Hlist ["s"]) as (es & _ & _ & Hrun & Hcut);
      [vm_compute; reflexivity | vm_compute; reflexivity|].
    eexists _, _. split; [exact Hrun|].
    apply (Hcut "x"); vm_compute; reflexivity.
  - destruct (list_dir_sorted_visible_entries initialised_ok trap_ok store
                world_with_gpg_dir "x" ["s"] ["x"])
      as [Hnone _];
      [vm_compute; reflexivity | vm_compute; reflexivity | reflexivity
      | repeat constructor | discriminate | vm_compute; reflexivity
      | repeat constructor | exact Hwf |].
    apply Hnone. vm_compute. reflexivity.
Defined.
